(* ========================================================================== *)
(*  Modal reduction of flexible sub-assemblies (chrono_modal/ChModalAssembly)  *)
(*                                                                            *)
(*  A shallow embedding of src/chrono_modal/ChModalAssembly.cpp:              *)
(*    - Part I    scalars and Eigen-style dense matrices with run-time sizes  *)
(*    - Part II   the collaborators of the class (sub-items, parent class,    *)
(*                solvers, damping model, frames) as an interface             *)
(*    - Part III  the object state of ChModalAssembly                         *)
(*    - Part IV   the member functions, in the order of the C++ file          *)
(*    - Part V    small concrete instances over the integers and over         *)
(*                binary64                                                    *)
(*    - Part VI   the properties                                              *)
(*    - Part VII  the properties on the concrete instances                    *)
(*                                                                            *)
(*  Conventions.                                                              *)
(*    `double` is an abstract carrier D with its operations (class Scalar):   *)
(*    nothing is assumed of them, so the statements hold for IEEE arithmetic  *)
(*    as for exact numbers.  Part V runs the code on integers and, where      *)
(*    rounding matters, on binary64.                                          *)
(*    `int` counters are integers Z (signed overflow is undefined in C++ and  *)
(*    not modelled); `unsigned int` offsets wrap modulo 2^32 (u32).           *)
(*    ChSparseMatrix and ChMatrixDynamic are both value-level dense matrices: *)
(*    makeCompressed(), sparseView() and toDense() do not change a            *)
(*    coefficient.  Log lines (GetLog), timers and the debug dumps to .dat    *)
(*    files write outside the object and are left out.                        *)
(* ========================================================================== *)

From Stdlib Require Import ZArith List Bool Lia.
Import ListNotations.

Set Implicit Arguments.

Open Scope Z_scope.

(* ========================================================================== *)
(*  Part I.  Scalars and dense matrices                                        *)
(* ========================================================================== *)

(** The operations of [double] used by the class. [dnonzero x] is the C++
    truth value of [x] in [if (x)]. *)
Class Scalar (D : Type) : Type := {
  d0 : D;
  d1 : D;
  dadd : D -> D -> D;
  dsub : D -> D -> D;
  dmul : D -> D -> D;
  ddiv : D -> D -> D;
  dopp : D -> D;
  dnonzero : D -> bool
}.

(** [unsigned int] arithmetic. *)
Definition u32 (z : Z) : Z := z mod 4294967296.

(** An index or a size handed to Eigen. *)
Definition idx (z : Z) : nat := Z.to_nat z.

Section Dense.

Context {D : Type} {SD : Scalar D}.

(** A matrix with run-time dimensions, stored by rows.  Vectors
    (ChVectorDynamic, ChState, ChStateDelta, ChVector, ChQuaternion) are
    matrices with one column. *)
Record mat : Type := Mat {
  mrows : nat;
  mcols : nat;
  mdata : list (list D)
}.

(** Reading outside the dimensions yields zero (Eigen asserts there). *)
Definition coef (A : mat) (i j : nat) : D :=
  if ((i <? mrows A) && (j <? mcols A))%nat
  then nth j (nth i (mdata A) []) d0
  else d0.

Definition mbuild (r c : nat) (f : nat -> nat -> D) : mat :=
  Mat r c (map (fun i => map (f i) (seq 0 c)) (seq 0 r)).

Definition msize (A : mat) : nat := (mrows A * mcols A)%nat.
Definition dims (A : mat) : nat * nat := (mrows A, mcols A).

(** Sum of [f 0 .. f (n-1)], accumulated from the left. *)
Fixpoint dsum (n : nat) (f : nat -> D) : D :=
  match n with
  | O => d0
  | S k => dadd (dsum k f) (f k)
  end.

(* -- construction -------------------------------------------------------- *)

(** [M.setZero(r, c)] and [M.resize(r, c)] followed by no write. *)
Definition mzero (r c : nat) : mat := mbuild r c (fun _ _ => d0).
(** [M.setZero()]: the dimensions stay. *)
Definition mzero_like (A : mat) : mat := mzero (mrows A) (mcols A).
(** [M.setIdentity(r, c)]. *)
Definition midentity (r c : nat) : mat :=
  mbuild r c (fun i j => if (i =? j)%nat then d1 else d0).
Definition mconst (r c : nat) (x : D) : mat := mbuild r c (fun _ _ => x).
(** [v.setZero(n)] on a vector. *)
Definition vzero (n : nat) : mat := mzero n 1.

(* -- arithmetic ---------------------------------------------------------- *)

Definition mmul (A B : mat) : mat :=
  mbuild (mrows A) (mcols B)
    (fun i j => dsum (mcols A) (fun k => dmul (coef A i k) (coef B k j))).
Definition madd (A B : mat) : mat :=
  mbuild (mrows A) (mcols A) (fun i j => dadd (coef A i j) (coef B i j)).
Definition msub (A B : mat) : mat :=
  mbuild (mrows A) (mcols A) (fun i j => dsub (coef A i j) (coef B i j)).
Definition mopp (A : mat) : mat :=
  mbuild (mrows A) (mcols A) (fun i j => dopp (coef A i j)).
(** [c * A], [A * c] and [A / c] with a scalar [c]. *)
Definition mscale_l (c : D) (A : mat) : mat :=
  mbuild (mrows A) (mcols A) (fun i j => dmul c (coef A i j)).
Definition mscale_r (A : mat) (c : D) : mat :=
  mbuild (mrows A) (mcols A) (fun i j => dmul (coef A i j) c).
Definition mdiv_r (A : mat) (c : D) : mat :=
  mbuild (mrows A) (mcols A) (fun i j => ddiv (coef A i j) c).
Definition mtranspose (A : mat) : mat :=
  mbuild (mcols A) (mrows A) (fun i j => coef A j i).

(* -- blocks -------------------------------------------------------------- *)

(** [A.block(i, j, p, q)] read. *)
Definition block (A : mat) (i j p q : nat) : mat :=
  mbuild p q (fun a b => coef A (i + a) (j + b)).
(** [A.block(i, j, p, q) = X]. *)
Definition set_block (A : mat) (i j p q : nat) (X : mat) : mat :=
  mbuild (mrows A) (mcols A)
    (fun a b =>
       if ((i <=? a) && (a <? i + p) && (j <=? b) && (b <? j + q))%nat
       then coef X (a - i) (b - j)
       else coef A a b).
(** [A.block(i, j, p, p).diagonal().setConstant(x)]. *)
Definition set_block_diagonal (A : mat) (i j p : nat) (x : D) : mat :=
  mbuild (mrows A) (mcols A)
    (fun a b =>
       if ((i <=? a) && (a <? i + p) && (j <=? b) && (b <? j + p)
           && (a - i =? b - j))%nat
       then x
       else coef A a b).

Definition col (A : mat) (j : nat) : mat := block A 0 j (mrows A) 1.
Definition set_col (A : mat) (j : nat) (x : mat) : mat :=
  set_block A 0 j (mrows A) 1 x.
Definition segment (v : mat) (i n : nat) : mat := block v i 0 n 1.
Definition set_segment (v : mat) (i n : nat) (x : mat) : mat :=
  set_block v i 0 n 1 x.
Definition head (v : mat) (n : nat) : mat := segment v 0 n.
Definition tail (v : mat) (n : nat) : mat := segment v (mrows v - n) n.
Definition topRows (A : mat) (n : nat) : mat := block A 0 0 n (mcols A).
Definition set_topRows (A : mat) (n : nat) (X : mat) : mat :=
  set_block A 0 0 n (mcols A) X.
Definition set_bottomRows (A : mat) (n : nat) (X : mat) : mat :=
  set_block A (mrows A - n) 0 n (mcols A) X.
Definition set_topLeftCorner (A : mat) (p q : nat) (X : mat) : mat :=
  set_block A 0 0 p q X.
Definition set_bottomRightCorner (A : mat) (p q : nat) (X : mat) : mat :=
  set_block A (mrows A - p) (mcols A - q) p q X.

(** The comma initializer [dest << B1, B2, ...]: blocks are laid left to
    right, and a new block row starts when the current one is full. *)
Fixpoint comma_fill (dest : mat) (row c rowh : nat) (bs : list mat) : mat :=
  match bs with
  | [] => dest
  | B :: rest =>
      let wrap := ((c =? mcols dest)
                   && (negb (mcols B =? 0) || negb (mrows B =? rowh)))%nat in
      let row' := if wrap then (row + rowh)%nat else row in
      let c' := if wrap then O else c in
      let rowh' := if wrap then mrows B else rowh in
      comma_fill (set_block dest row' c' (mrows B) (mcols B) B)
                 row' (c' + mcols B)%nat rowh' rest
  end.
Definition comma_init (dest : mat) (bs : list mat) : mat :=
  match bs with
  | [] => dest
  | B :: rest =>
      comma_fill (set_block dest 0 0 (mrows B) (mcols B) B)
                 0 (mcols B) (mrows B) rest
  end.

(** A square matrix is singular when it sends some non-zero vector to
    zero. *)
Definition singular (K : mat) : Prop :=
  exists x : mat,
    mrows x = mcols K /\ mcols x = 1%nat /\
    x <> vzero (mcols K) /\ mmul K x = vzero (mrows K).

(** A complex matrix, kept as its real and its imaginary part. *)
Record cmat : Type := CMat { re : mat; im : mat }.
Definition crows (A : cmat) : nat := mrows (re A).
Definition ccols (A : cmat) : nat := mcols (re A).
Definition csize (A : cmat) : nat := msize (re A).
Definition cblock (A : cmat) (i j p q : nat) : cmat :=
  CMat (block (re A) i j p q) (block (im A) i j p q).
Definition cresize (r c : nat) : cmat := CMat (mzero r c) (mzero r c).

End Dense.

Arguments mat D : clear implicits.
Arguments cmat D : clear implicits.

(* ========================================================================== *)
(*  Part II.  Collaborators                                                    *)
(* ========================================================================== *)

(** Loops.  [for_int lo hi body a] is
    [for (int i = lo; i < hi; i++) { body }], where the body may itself move
    the index: it returns the index it leaves behind, and the loop header
    then adds one.  The fuel [hi - lo] is never exhausted before the test
    fails as long as the body does not move the index backwards. *)
Fixpoint for_loop {A : Type} (fuel : nat) (i hi : Z)
    (body : Z -> A -> Z * A) (a : A) : A :=
  match fuel with
  | O => a
  | S fuel' =>
      if i <? hi
      then let '(i', a') := body i a in for_loop fuel' (i' + 1) hi body a'
      else a
  end.

Definition for_int {A : Type} (lo hi : Z) (body : Z -> A -> Z * A) (a : A) : A :=
  for_loop (idx (hi - lo)) lo hi body a.

(** Components of a triple. *)
Definition fst3 {A B C : Type} (t : A * B * C) : A := fst (fst t).
Definition snd3 {A B C : Type} (t : A * B * C) : B := snd (fst t).
Definition thd3 {A B C : Type} (t : A * B * C) : C := snd t.

(** [for (auto& x : xs) { body }] where the body may change both the element
    and the surrounding state. *)
Fixpoint for_each {A St : Type} (body : A -> St -> A * St) (xs : list A) (s : St)
    : list A * St :=
  match xs with
  | [] => ([], s)
  | x :: rest =>
      let '(x', s') := body x s in
      let '(rest', s'') := for_each body rest s' in
      (x' :: rest', s'')
  end.

(** The modal unknowns handed to the solver descriptor
    (ChVariablesGenericDiagonalMass): their number, the diagonal mass, the
    unknowns qb and the known term fb, and whether they are enabled. *)
Record ChVariablesGenericDiagonalMass (D : Type) : Type := {
  Get_ndof : Z;
  GetMassDiagonal : mat D;
  Get_qb : mat D;
  Get_fb : mat D;
  vars_IsActive : bool
}.

(** The classes ChModalAssembly works with and whose code is outside this
    file's scope: the sub-items (ChBody, ChLinkBase, ChMesh and other
    ChPhysicsItem, here one type [Item]), mesh nodes and elements, the moving
    frame ChFrameMoving, the system descriptor, the eigen-solver settings,
    the rotation helpers, and Eigen's factorizations.  Each member function
    is a function; one that changes its object returns the changed object. *)
Class Collaborators (D : Type) {SD : Scalar D} : Type := {
  Item : Type;
  Node : Type;
  Element : Type;
  Frame : Type;
  Descriptor : Type;
  Variables : Type;
  ChModalSolveUndamped : Type;
  ChModalDamping : Type;
  CustomForceModalCallback : Type;
  CustomForceFullCallback : Type;

  (* ChPhysicsItem: bookkeeping *)
  GetBodyFixed : Item -> bool;
  GetSleeping : Item -> bool;
  IsActive : Item -> bool;
  SetOffset_x : Z -> Item -> Item;
  SetOffset_w : Z -> Item -> Item;
  SetOffset_L : Z -> Item -> Item;
  GetOffset_x : Item -> Z;
  GetOffset_w : Item -> Z;
  GetOffset_L : Item -> Z;
  GetDOF : Item -> Z;
  GetDOF_w : Item -> Z;
  GetDOC : Item -> Z;
  GetDOC_c : Item -> Z;
  GetDOC_d : Item -> Z;
  item_SetupInitial : Item -> Item;
  item_Setup : Item -> Item;
  item_Update : D -> bool -> Item -> Item;

  (* ChPhysicsItem: the integrator protocol *)
  item_IntStateGather : Item -> Z -> mat D -> Z -> mat D -> D -> mat D * mat D * D;
  item_IntStateScatter : Z -> mat D -> Z -> mat D -> D -> bool -> Item -> Item;
  item_IntStateGatherAcceleration : Item -> Z -> mat D -> mat D;
  item_IntStateIncrement : Item -> Z -> mat D -> mat D -> Z -> mat D -> mat D;
  item_IntStateGetIncrement : Item -> Z -> mat D -> mat D -> Z -> mat D -> mat D;
  item_KRMmatricesLoad : D -> D -> D -> Item -> Item;
  item_ConstraintsLoadJacobians : Item -> Item;
  item_InjectVariables : Item -> Descriptor -> Descriptor;
  item_InjectKRMmatrices : Item -> Descriptor -> Descriptor;
  item_InjectConstraints : Item -> Descriptor -> Descriptor;

  (* ChBody kinematics and mass *)
  GetMass : Item -> D;
  GetPos : Item -> mat D;
  GetRot : Item -> mat D;
  GetPos_dt : Item -> mat D;
  GetWvel_loc : Item -> mat D;
  GetPos_dtdt : Item -> mat D;
  GetWacc_loc : Item -> mat D;
  SetMass : D -> Item -> Item;
  SetInertia : mat D -> Item -> Item;

  (* ChMesh: std::dynamic_pointer_cast<ChMesh>, nodes and elements *)
  is_ChMesh : Item -> bool;
  GetNodes : Item -> list Node;
  SetNodes : list Node -> Item -> Item;
  GetElements : Item -> list Element;
  GetNnodes : Item -> Z;
  ComputeMassProperties : list Node -> list Element -> D * mat D * mat D;

  (* nodes: dynamic casts to ChNodeFEAxyz / ChNodeFEAxyzrot *)
  is_ChNodeFEAxyz : Node -> bool;
  is_ChNodeFEAxyzrot : Node -> bool;
  node_GetPos : Node -> mat D;
  node_GetRot : Node -> mat D;
  node_GetPos_dt : Node -> mat D;
  node_GetWvel_loc : Node -> mat D;
  node_GetPos_dtdt : Node -> mat D;
  node_GetWacc_loc : Node -> mat D;
  node_SetMass : D -> Node -> Node;
  node_Inertia_setZero : Node -> Node;

  (* ChFrameMoving *)
  frame_SetPos : mat D -> Frame -> Frame;
  frame_SetRot : mat D -> Frame -> Frame;
  frame_SetPos_dt : mat D -> Frame -> Frame;
  frame_SetWvel_loc : mat D -> Frame -> Frame;
  frame_SetPos_dtdt : mat D -> Frame -> Frame;
  frame_SetWacc_loc : mat D -> Frame -> Frame;
  frame_GetA : Frame -> mat D;
  frame_GetPos : Frame -> mat D;
  frame_GetRot : Frame -> mat D;
  frame_GetWvel_loc : Frame -> mat D;

  (* rotations and small constants: ChStarMatrix33(v), ChMatrix33(q),
     ChMatrix33(val), VNULL, q.Q_to_Rotv(), Q_from_Rotv *)
  ChStarMatrix33 : mat D -> mat D;
  ChMatrix33_of_quat : mat D -> mat D;
  ChMatrix33_of_scalar : D -> mat D;
  VNULL : mat D;
  Q_to_Rotv : mat D -> mat D;
  Q_from_Rotv : mat D -> mat D;

  (* Eigen factorizations: analyzePattern + factorize + solve.  The solve
     returns a vector whatever the rank of the factored matrix. *)
  SparseQR_solve : mat D -> mat D -> mat D;
  colPivHouseholderQr_solve : mat D -> mat D -> mat D;

  (* ChModalSolveUndamped::Solve(M, K, Cq, V, eig, freq): the last three are
     written.  The solver is taken on the runs in which it returns: an
     exception that it may throw is not modelled, and nothing is stated about
     how it treats a request that it cannot serve. *)
  Solve : ChModalSolveUndamped -> mat D -> mat D -> mat D ->
          cmat D * cmat D * mat D -> cmat D * cmat D * mat D;

  (* ChSystemDescriptor and ChVariables *)
  empty_descriptor : Descriptor;
  GetVariablesList : Descriptor -> list Variables;
  var_IsActive : Variables -> bool;
  SetMassFactor : D -> Descriptor -> Descriptor;
  ConvertToMatrixForm_Cq : Descriptor -> mat D;
  ConvertToMatrixForm_H : Descriptor -> mat D;
  new_ChVariablesGenericDiagonalMass : Z -> ChVariablesGenericDiagonalMass D;
  InsertVariables : ChVariablesGenericDiagonalMass D -> Descriptor -> Descriptor;
  (* ChKblockGeneric::SetVariables(vars) sizes the block's matrix for the
     variables it is given; InsertKblock hands the block to the descriptor *)
  SetVariables_K :
    list (Variables + ChVariablesGenericDiagonalMass D) -> mat D -> mat D;
  InsertKblock :
    list (Variables + ChVariablesGenericDiagonalMass D) -> mat D ->
    Descriptor -> Descriptor
}.

Arguments Collaborators D {SD}.

(* ========================================================================== *)
(*  Part III.  The object state                                                *)
(* ========================================================================== *)

(** Field update.  [eta] rebuilds a record from its projections; the setter
    of the projection [p] swaps the one argument [p r] for the new value. *)
Ltac gen_setter eta p :=
  let v := fresh "v" in
  let r := fresh "r" in
  intros v r;
  let body := eval cbv beta delta [eta] in (eta r) in
  match eval pattern (p r) in body with
  | ?f _ => let t := eval cbv beta in (f v) in exact t
  end.

(** The two records of the object state have primitive projections: reading
    a field of an updated record computes. *)
Set Primitive Projections.

Section State.

Context {D : Type} {SD : Scalar D} {C : Collaborators D}.

(** The members of the parent class ChAssembly that ChModalAssembly reads or
    writes: the boundary items, the assembly-wide statistics, the offsets of
    the assembly in the system vectors, and the time. *)
Record ChAssembly : Type := {
  bodylist : list Item;
  linklist : list Item;
  meshlist : list Item;
  otherphysicslist : list Item;
  nbodies : Z;
  nlinks : Z;
  nmeshes : Z;
  nphysicsitems : Z;
  ncoords : Z;
  ncoords_w : Z;
  ndoc : Z;
  ndoc_w : Z;
  ndoc_w_C : Z;
  ndoc_w_D : Z;
  nsysvars : Z;
  nsysvars_w : Z;
  ndof : Z;
  offset_x : Z;
  offset_w : Z;
  offset_L : Z;
  ChTime : D
}.

Definition eta_ChAssembly (a : ChAssembly) : ChAssembly :=
  Build_ChAssembly
    (bodylist a) (linklist a) (meshlist a) (otherphysicslist a)
    (nbodies a) (nlinks a) (nmeshes a) (nphysicsitems a)
    (ncoords a) (ncoords_w a) (ndoc a) (ndoc_w a) (ndoc_w_C a) (ndoc_w_D a)
    (nsysvars a) (nsysvars_w a) (ndof a)
    (offset_x a) (offset_w a) (offset_L a) (ChTime a).

Definition set_bodylist : list Item -> ChAssembly -> ChAssembly :=
  ltac:(gen_setter eta_ChAssembly bodylist).
Definition set_linklist : list Item -> ChAssembly -> ChAssembly :=
  ltac:(gen_setter eta_ChAssembly linklist).
Definition set_meshlist : list Item -> ChAssembly -> ChAssembly :=
  ltac:(gen_setter eta_ChAssembly meshlist).
Definition set_otherphysicslist : list Item -> ChAssembly -> ChAssembly :=
  ltac:(gen_setter eta_ChAssembly otherphysicslist).
Definition set_nbodies : Z -> ChAssembly -> ChAssembly :=
  ltac:(gen_setter eta_ChAssembly nbodies).
Definition set_nlinks : Z -> ChAssembly -> ChAssembly :=
  ltac:(gen_setter eta_ChAssembly nlinks).
Definition set_nmeshes : Z -> ChAssembly -> ChAssembly :=
  ltac:(gen_setter eta_ChAssembly nmeshes).
Definition set_nphysicsitems : Z -> ChAssembly -> ChAssembly :=
  ltac:(gen_setter eta_ChAssembly nphysicsitems).
Definition set_ncoords : Z -> ChAssembly -> ChAssembly :=
  ltac:(gen_setter eta_ChAssembly ncoords).
Definition set_ncoords_w : Z -> ChAssembly -> ChAssembly :=
  ltac:(gen_setter eta_ChAssembly ncoords_w).
Definition set_ndoc : Z -> ChAssembly -> ChAssembly :=
  ltac:(gen_setter eta_ChAssembly ndoc).
Definition set_ndoc_w : Z -> ChAssembly -> ChAssembly :=
  ltac:(gen_setter eta_ChAssembly ndoc_w).
Definition set_ndoc_w_C : Z -> ChAssembly -> ChAssembly :=
  ltac:(gen_setter eta_ChAssembly ndoc_w_C).
Definition set_ndoc_w_D : Z -> ChAssembly -> ChAssembly :=
  ltac:(gen_setter eta_ChAssembly ndoc_w_D).
Definition set_nsysvars : Z -> ChAssembly -> ChAssembly :=
  ltac:(gen_setter eta_ChAssembly nsysvars).
Definition set_nsysvars_w : Z -> ChAssembly -> ChAssembly :=
  ltac:(gen_setter eta_ChAssembly nsysvars_w).
Definition set_ndof : Z -> ChAssembly -> ChAssembly :=
  ltac:(gen_setter eta_ChAssembly ndof).
Definition set_offset_x : Z -> ChAssembly -> ChAssembly :=
  ltac:(gen_setter eta_ChAssembly offset_x).
Definition set_offset_w : Z -> ChAssembly -> ChAssembly :=
  ltac:(gen_setter eta_ChAssembly offset_w).
Definition set_offset_L : Z -> ChAssembly -> ChAssembly :=
  ltac:(gen_setter eta_ChAssembly offset_L).
Definition set_ChTime : D -> ChAssembly -> ChAssembly :=
  ltac:(gen_setter eta_ChAssembly ChTime).

(** ChKblockGeneric: the variables the block couples and its matrix, which
    Get_K() hands out by reference. *)
Record ChKblockGeneric : Type := {
  Kblock_variables : list (Variables + ChVariablesGenericDiagonalMass D);
  Get_K : mat D
}.

(** The members of ChModalAssembly. *)
Record ChModalAssembly : Type := {
  (* the ChAssembly base-class sub-object *)
  base : ChAssembly;
  (* internal items *)
  internal_bodylist : list Item;
  internal_linklist : list Item;
  internal_meshlist : list Item;
  internal_otherphysicslist : list Item;
  (* boundary statistics *)
  n_boundary_bodies : Z;
  n_boundary_links : Z;
  n_boundary_meshes : Z;
  n_boundary_physicsitems : Z;
  n_boundary_coords : Z;
  n_boundary_coords_w : Z;
  n_boundary_doc : Z;
  n_boundary_doc_w : Z;
  n_boundary_doc_w_C : Z;
  n_boundary_doc_w_D : Z;
  n_boundary_sysvars : Z;
  n_boundary_sysvars_w : Z;
  n_boundary_dof : Z;
  (* internal statistics *)
  n_internal_bodies : Z;
  n_internal_links : Z;
  n_internal_meshes : Z;
  n_internal_physicsitems : Z;
  n_internal_coords : Z;
  n_internal_coords_w : Z;
  n_internal_doc : Z;
  n_internal_doc_w : Z;
  n_internal_doc_w_C : Z;
  n_internal_doc_w_D : Z;
  n_internal_sysvars : Z;
  n_internal_sysvars_w : Z;
  n_internal_dof : Z;
  (* mode switch *)
  n_modes_coords_w : Z;
  is_modal : bool;
  internal_nodes_update : bool;
  (* solver variables of the modal unknowns *)
  modal_variables : option (ChVariablesGenericDiagonalMass D);
  modal_Hblock : ChKblockGeneric;
  (* modal coordinates and custom forces *)
  modal_q : mat D;
  modal_q_dt : mat D;
  modal_q_dtdt : mat D;
  custom_F_modal : mat D;
  custom_F_full : mat D;
  m_custom_F_modal_callback : option CustomForceModalCallback;
  m_custom_F_full_callback : option CustomForceFullCallback;
  (* state snapshots *)
  full_assembly_x_old : mat D;
  modes_assembly_x0 : mat D;
  (* mode set of the eigen-solver *)
  modes_V : cmat D;
  modes_eig : cmat D;
  modes_freq : mat D;
  modes_damping_ratio : mat D;
  (* floating frame; S_sel is the selection matrix S of the source *)
  com_x : mat D;
  S_sel : mat D;
  floating_frame_F : Frame;
  floating_frame_F0 : Frame;
  R_F : mat D;
  wloc_F : mat D;
  (* transformation matrices *)
  P_B1 : mat D;
  P_B2 : mat D;
  P_I1 : mat D;
  P_I2 : mat D;
  P_W : mat D;
  Y : mat D;
  U : mat D;
  (* full matrices in the local frame *)
  full_M_loc : mat D;
  full_K_loc : mat D;
  full_R_loc : mat D;
  full_Cq_loc : mat D;
  (* reduction basis and reduced matrices *)
  Psi : mat D;
  Psi_S : mat D;
  Psi_D : mat D;
  M_red : mat D;
  K_red : mat D;
  R_red : mat D;
  Cq_red : mat D;
  (* blocks of the inertial and geometric corrections *)
  V : mat D;
  O_B : mat D;
  O_F : mat D;
  V_acc : mat D;
  V_rmom : mat D;
  O_thetamom : mat D;
  V_F1 : mat D;
  V_F2 : mat D;
  V_F3 : mat D;
  M_sup : mat D;
  Ri_sup : mat D;
  Ki_sup : mat D;
  g_quad : mat D;
  g_loc : mat D;
  Km_sup : mat D;
  Kg_sup : mat D;
  Rm_sup : mat D;
  (* tangent matrices of the reduced assembly *)
  modal_M : mat D;
  modal_K : mat D;
  modal_R : mat D;
  modal_Cq : mat D
}.

Definition eta_ChModalAssembly (s : ChModalAssembly) : ChModalAssembly :=
  Build_ChModalAssembly
        (base s)
        (internal_bodylist s) (internal_linklist s) (internal_meshlist s)
    (internal_otherphysicslist s)
        (n_boundary_bodies s) (n_boundary_links s) (n_boundary_meshes s)
    (n_boundary_physicsitems s) (n_boundary_coords s) (n_boundary_coords_w s)
    (n_boundary_doc s) (n_boundary_doc_w s) (n_boundary_doc_w_C s)
    (n_boundary_doc_w_D s) (n_boundary_sysvars s) (n_boundary_sysvars_w s)
    (n_boundary_dof s)
        (n_internal_bodies s) (n_internal_links s) (n_internal_meshes s)
    (n_internal_physicsitems s) (n_internal_coords s) (n_internal_coords_w s)
    (n_internal_doc s) (n_internal_doc_w s) (n_internal_doc_w_C s)
    (n_internal_doc_w_D s) (n_internal_sysvars s) (n_internal_sysvars_w s)
    (n_internal_dof s)
        (n_modes_coords_w s) (is_modal s) (internal_nodes_update s)
        (modal_variables s) (modal_Hblock s)
        (modal_q s) (modal_q_dt s) (modal_q_dtdt s) (custom_F_modal s)
    (custom_F_full s) (m_custom_F_modal_callback s) (m_custom_F_full_callback
    s)
        (full_assembly_x_old s) (modes_assembly_x0 s)
        (modes_V s) (modes_eig s) (modes_freq s) (modes_damping_ratio s)
        (com_x s) (S_sel s) (floating_frame_F s) (floating_frame_F0 s) (R_F s)
    (wloc_F s)
        (P_B1 s) (P_B2 s) (P_I1 s) (P_I2 s) (P_W s) (Y s) (U s)
        (full_M_loc s) (full_K_loc s) (full_R_loc s) (full_Cq_loc s)
        (Psi s) (Psi_S s) (Psi_D s) (M_red s) (K_red s) (R_red s) (Cq_red s)
        (V s) (O_B s) (O_F s) (V_acc s) (V_rmom s) (O_thetamom s) (V_F1 s)
    (V_F2 s) (V_F3 s) (M_sup s) (Ri_sup s) (Ki_sup s) (g_quad s) (g_loc s)
    (Km_sup s) (Kg_sup s) (Rm_sup s)
        (modal_M s) (modal_K s) (modal_R s) (modal_Cq s).

Definition set_base : ChAssembly -> ChModalAssembly -> ChModalAssembly :=
  ltac:(gen_setter eta_ChModalAssembly base).
Definition set_internal_bodylist : list Item -> ChModalAssembly -> ChModalAssembly :=
  ltac:(gen_setter eta_ChModalAssembly internal_bodylist).
Definition set_internal_linklist : list Item -> ChModalAssembly -> ChModalAssembly :=
  ltac:(gen_setter eta_ChModalAssembly internal_linklist).
Definition set_internal_meshlist : list Item -> ChModalAssembly -> ChModalAssembly :=
  ltac:(gen_setter eta_ChModalAssembly internal_meshlist).
Definition set_internal_otherphysicslist : list Item -> ChModalAssembly -> ChModalAssembly :=
  ltac:(gen_setter eta_ChModalAssembly internal_otherphysicslist).
Definition set_n_boundary_bodies : Z -> ChModalAssembly -> ChModalAssembly :=
  ltac:(gen_setter eta_ChModalAssembly n_boundary_bodies).
Definition set_n_boundary_links : Z -> ChModalAssembly -> ChModalAssembly :=
  ltac:(gen_setter eta_ChModalAssembly n_boundary_links).
Definition set_n_boundary_meshes : Z -> ChModalAssembly -> ChModalAssembly :=
  ltac:(gen_setter eta_ChModalAssembly n_boundary_meshes).
Definition set_n_boundary_physicsitems : Z -> ChModalAssembly -> ChModalAssembly :=
  ltac:(gen_setter eta_ChModalAssembly n_boundary_physicsitems).
Definition set_n_boundary_coords : Z -> ChModalAssembly -> ChModalAssembly :=
  ltac:(gen_setter eta_ChModalAssembly n_boundary_coords).
Definition set_n_boundary_coords_w : Z -> ChModalAssembly -> ChModalAssembly :=
  ltac:(gen_setter eta_ChModalAssembly n_boundary_coords_w).
Definition set_n_boundary_doc : Z -> ChModalAssembly -> ChModalAssembly :=
  ltac:(gen_setter eta_ChModalAssembly n_boundary_doc).
Definition set_n_boundary_doc_w : Z -> ChModalAssembly -> ChModalAssembly :=
  ltac:(gen_setter eta_ChModalAssembly n_boundary_doc_w).
Definition set_n_boundary_doc_w_C : Z -> ChModalAssembly -> ChModalAssembly :=
  ltac:(gen_setter eta_ChModalAssembly n_boundary_doc_w_C).
Definition set_n_boundary_doc_w_D : Z -> ChModalAssembly -> ChModalAssembly :=
  ltac:(gen_setter eta_ChModalAssembly n_boundary_doc_w_D).
Definition set_n_boundary_sysvars : Z -> ChModalAssembly -> ChModalAssembly :=
  ltac:(gen_setter eta_ChModalAssembly n_boundary_sysvars).
Definition set_n_boundary_sysvars_w : Z -> ChModalAssembly -> ChModalAssembly :=
  ltac:(gen_setter eta_ChModalAssembly n_boundary_sysvars_w).
Definition set_n_boundary_dof : Z -> ChModalAssembly -> ChModalAssembly :=
  ltac:(gen_setter eta_ChModalAssembly n_boundary_dof).
Definition set_n_internal_bodies : Z -> ChModalAssembly -> ChModalAssembly :=
  ltac:(gen_setter eta_ChModalAssembly n_internal_bodies).
Definition set_n_internal_links : Z -> ChModalAssembly -> ChModalAssembly :=
  ltac:(gen_setter eta_ChModalAssembly n_internal_links).
Definition set_n_internal_meshes : Z -> ChModalAssembly -> ChModalAssembly :=
  ltac:(gen_setter eta_ChModalAssembly n_internal_meshes).
Definition set_n_internal_physicsitems : Z -> ChModalAssembly -> ChModalAssembly :=
  ltac:(gen_setter eta_ChModalAssembly n_internal_physicsitems).
Definition set_n_internal_coords : Z -> ChModalAssembly -> ChModalAssembly :=
  ltac:(gen_setter eta_ChModalAssembly n_internal_coords).
Definition set_n_internal_coords_w : Z -> ChModalAssembly -> ChModalAssembly :=
  ltac:(gen_setter eta_ChModalAssembly n_internal_coords_w).
Definition set_n_internal_doc : Z -> ChModalAssembly -> ChModalAssembly :=
  ltac:(gen_setter eta_ChModalAssembly n_internal_doc).
Definition set_n_internal_doc_w : Z -> ChModalAssembly -> ChModalAssembly :=
  ltac:(gen_setter eta_ChModalAssembly n_internal_doc_w).
Definition set_n_internal_doc_w_C : Z -> ChModalAssembly -> ChModalAssembly :=
  ltac:(gen_setter eta_ChModalAssembly n_internal_doc_w_C).
Definition set_n_internal_doc_w_D : Z -> ChModalAssembly -> ChModalAssembly :=
  ltac:(gen_setter eta_ChModalAssembly n_internal_doc_w_D).
Definition set_n_internal_sysvars : Z -> ChModalAssembly -> ChModalAssembly :=
  ltac:(gen_setter eta_ChModalAssembly n_internal_sysvars).
Definition set_n_internal_sysvars_w : Z -> ChModalAssembly -> ChModalAssembly :=
  ltac:(gen_setter eta_ChModalAssembly n_internal_sysvars_w).
Definition set_n_internal_dof : Z -> ChModalAssembly -> ChModalAssembly :=
  ltac:(gen_setter eta_ChModalAssembly n_internal_dof).
Definition set_n_modes_coords_w : Z -> ChModalAssembly -> ChModalAssembly :=
  ltac:(gen_setter eta_ChModalAssembly n_modes_coords_w).
Definition set_is_modal : bool -> ChModalAssembly -> ChModalAssembly :=
  ltac:(gen_setter eta_ChModalAssembly is_modal).
Definition set_internal_nodes_update : bool -> ChModalAssembly -> ChModalAssembly :=
  ltac:(gen_setter eta_ChModalAssembly internal_nodes_update).
Definition set_modal_variables : option (ChVariablesGenericDiagonalMass D) -> ChModalAssembly -> ChModalAssembly :=
  ltac:(gen_setter eta_ChModalAssembly modal_variables).
Definition set_modal_Hblock : ChKblockGeneric -> ChModalAssembly -> ChModalAssembly :=
  ltac:(gen_setter eta_ChModalAssembly modal_Hblock).
Definition set_modal_q : mat D -> ChModalAssembly -> ChModalAssembly :=
  ltac:(gen_setter eta_ChModalAssembly modal_q).
Definition set_modal_q_dt : mat D -> ChModalAssembly -> ChModalAssembly :=
  ltac:(gen_setter eta_ChModalAssembly modal_q_dt).
Definition set_modal_q_dtdt : mat D -> ChModalAssembly -> ChModalAssembly :=
  ltac:(gen_setter eta_ChModalAssembly modal_q_dtdt).
Definition set_custom_F_modal : mat D -> ChModalAssembly -> ChModalAssembly :=
  ltac:(gen_setter eta_ChModalAssembly custom_F_modal).
Definition set_custom_F_full : mat D -> ChModalAssembly -> ChModalAssembly :=
  ltac:(gen_setter eta_ChModalAssembly custom_F_full).
Definition set_m_custom_F_modal_callback : option CustomForceModalCallback -> ChModalAssembly -> ChModalAssembly :=
  ltac:(gen_setter eta_ChModalAssembly m_custom_F_modal_callback).
Definition set_m_custom_F_full_callback : option CustomForceFullCallback -> ChModalAssembly -> ChModalAssembly :=
  ltac:(gen_setter eta_ChModalAssembly m_custom_F_full_callback).
Definition set_full_assembly_x_old : mat D -> ChModalAssembly -> ChModalAssembly :=
  ltac:(gen_setter eta_ChModalAssembly full_assembly_x_old).
Definition set_modes_assembly_x0 : mat D -> ChModalAssembly -> ChModalAssembly :=
  ltac:(gen_setter eta_ChModalAssembly modes_assembly_x0).
Definition set_modes_V : cmat D -> ChModalAssembly -> ChModalAssembly :=
  ltac:(gen_setter eta_ChModalAssembly modes_V).
Definition set_modes_eig : cmat D -> ChModalAssembly -> ChModalAssembly :=
  ltac:(gen_setter eta_ChModalAssembly modes_eig).
Definition set_modes_freq : mat D -> ChModalAssembly -> ChModalAssembly :=
  ltac:(gen_setter eta_ChModalAssembly modes_freq).
Definition set_modes_damping_ratio : mat D -> ChModalAssembly -> ChModalAssembly :=
  ltac:(gen_setter eta_ChModalAssembly modes_damping_ratio).
Definition set_com_x : mat D -> ChModalAssembly -> ChModalAssembly :=
  ltac:(gen_setter eta_ChModalAssembly com_x).
Definition set_S_sel : mat D -> ChModalAssembly -> ChModalAssembly :=
  ltac:(gen_setter eta_ChModalAssembly S_sel).
Definition set_floating_frame_F : Frame -> ChModalAssembly -> ChModalAssembly :=
  ltac:(gen_setter eta_ChModalAssembly floating_frame_F).
Definition set_floating_frame_F0 : Frame -> ChModalAssembly -> ChModalAssembly :=
  ltac:(gen_setter eta_ChModalAssembly floating_frame_F0).
Definition set_R_F : mat D -> ChModalAssembly -> ChModalAssembly :=
  ltac:(gen_setter eta_ChModalAssembly R_F).
Definition set_wloc_F : mat D -> ChModalAssembly -> ChModalAssembly :=
  ltac:(gen_setter eta_ChModalAssembly wloc_F).
Definition set_P_B1 : mat D -> ChModalAssembly -> ChModalAssembly :=
  ltac:(gen_setter eta_ChModalAssembly P_B1).
Definition set_P_B2 : mat D -> ChModalAssembly -> ChModalAssembly :=
  ltac:(gen_setter eta_ChModalAssembly P_B2).
Definition set_P_I1 : mat D -> ChModalAssembly -> ChModalAssembly :=
  ltac:(gen_setter eta_ChModalAssembly P_I1).
Definition set_P_I2 : mat D -> ChModalAssembly -> ChModalAssembly :=
  ltac:(gen_setter eta_ChModalAssembly P_I2).
Definition set_P_W : mat D -> ChModalAssembly -> ChModalAssembly :=
  ltac:(gen_setter eta_ChModalAssembly P_W).
Definition set_Y : mat D -> ChModalAssembly -> ChModalAssembly :=
  ltac:(gen_setter eta_ChModalAssembly Y).
Definition set_U : mat D -> ChModalAssembly -> ChModalAssembly :=
  ltac:(gen_setter eta_ChModalAssembly U).
Definition set_full_M_loc : mat D -> ChModalAssembly -> ChModalAssembly :=
  ltac:(gen_setter eta_ChModalAssembly full_M_loc).
Definition set_full_K_loc : mat D -> ChModalAssembly -> ChModalAssembly :=
  ltac:(gen_setter eta_ChModalAssembly full_K_loc).
Definition set_full_R_loc : mat D -> ChModalAssembly -> ChModalAssembly :=
  ltac:(gen_setter eta_ChModalAssembly full_R_loc).
Definition set_full_Cq_loc : mat D -> ChModalAssembly -> ChModalAssembly :=
  ltac:(gen_setter eta_ChModalAssembly full_Cq_loc).
Definition set_Psi : mat D -> ChModalAssembly -> ChModalAssembly :=
  ltac:(gen_setter eta_ChModalAssembly Psi).
Definition set_Psi_S : mat D -> ChModalAssembly -> ChModalAssembly :=
  ltac:(gen_setter eta_ChModalAssembly Psi_S).
Definition set_Psi_D : mat D -> ChModalAssembly -> ChModalAssembly :=
  ltac:(gen_setter eta_ChModalAssembly Psi_D).
Definition set_M_red : mat D -> ChModalAssembly -> ChModalAssembly :=
  ltac:(gen_setter eta_ChModalAssembly M_red).
Definition set_K_red : mat D -> ChModalAssembly -> ChModalAssembly :=
  ltac:(gen_setter eta_ChModalAssembly K_red).
Definition set_R_red : mat D -> ChModalAssembly -> ChModalAssembly :=
  ltac:(gen_setter eta_ChModalAssembly R_red).
Definition set_Cq_red : mat D -> ChModalAssembly -> ChModalAssembly :=
  ltac:(gen_setter eta_ChModalAssembly Cq_red).
Definition set_V : mat D -> ChModalAssembly -> ChModalAssembly :=
  ltac:(gen_setter eta_ChModalAssembly V).
Definition set_O_B : mat D -> ChModalAssembly -> ChModalAssembly :=
  ltac:(gen_setter eta_ChModalAssembly O_B).
Definition set_O_F : mat D -> ChModalAssembly -> ChModalAssembly :=
  ltac:(gen_setter eta_ChModalAssembly O_F).
Definition set_V_acc : mat D -> ChModalAssembly -> ChModalAssembly :=
  ltac:(gen_setter eta_ChModalAssembly V_acc).
Definition set_V_rmom : mat D -> ChModalAssembly -> ChModalAssembly :=
  ltac:(gen_setter eta_ChModalAssembly V_rmom).
Definition set_O_thetamom : mat D -> ChModalAssembly -> ChModalAssembly :=
  ltac:(gen_setter eta_ChModalAssembly O_thetamom).
Definition set_V_F1 : mat D -> ChModalAssembly -> ChModalAssembly :=
  ltac:(gen_setter eta_ChModalAssembly V_F1).
Definition set_V_F2 : mat D -> ChModalAssembly -> ChModalAssembly :=
  ltac:(gen_setter eta_ChModalAssembly V_F2).
Definition set_V_F3 : mat D -> ChModalAssembly -> ChModalAssembly :=
  ltac:(gen_setter eta_ChModalAssembly V_F3).
Definition set_M_sup : mat D -> ChModalAssembly -> ChModalAssembly :=
  ltac:(gen_setter eta_ChModalAssembly M_sup).
Definition set_Ri_sup : mat D -> ChModalAssembly -> ChModalAssembly :=
  ltac:(gen_setter eta_ChModalAssembly Ri_sup).
Definition set_Ki_sup : mat D -> ChModalAssembly -> ChModalAssembly :=
  ltac:(gen_setter eta_ChModalAssembly Ki_sup).
Definition set_g_quad : mat D -> ChModalAssembly -> ChModalAssembly :=
  ltac:(gen_setter eta_ChModalAssembly g_quad).
Definition set_g_loc : mat D -> ChModalAssembly -> ChModalAssembly :=
  ltac:(gen_setter eta_ChModalAssembly g_loc).
Definition set_Km_sup : mat D -> ChModalAssembly -> ChModalAssembly :=
  ltac:(gen_setter eta_ChModalAssembly Km_sup).
Definition set_Kg_sup : mat D -> ChModalAssembly -> ChModalAssembly :=
  ltac:(gen_setter eta_ChModalAssembly Kg_sup).
Definition set_Rm_sup : mat D -> ChModalAssembly -> ChModalAssembly :=
  ltac:(gen_setter eta_ChModalAssembly Rm_sup).
Definition set_modal_M : mat D -> ChModalAssembly -> ChModalAssembly :=
  ltac:(gen_setter eta_ChModalAssembly modal_M).
Definition set_modal_K : mat D -> ChModalAssembly -> ChModalAssembly :=
  ltac:(gen_setter eta_ChModalAssembly modal_K).
Definition set_modal_R : mat D -> ChModalAssembly -> ChModalAssembly :=
  ltac:(gen_setter eta_ChModalAssembly modal_R).
Definition set_modal_Cq : mat D -> ChModalAssembly -> ChModalAssembly :=
  ltac:(gen_setter eta_ChModalAssembly modal_Cq).

End State.

Unset Primitive Projections.

(* ========================================================================== *)
(*  Part IV.  The member functions                                             *)
(* ========================================================================== *)

(** What receives or owns the assembly: the member functions of the parent
    class ChAssembly (they act on the base-class sub-object), the damping
    model, whose ComputeR is handed the assembly, and the custom-force
    callbacks. *)
Class Surroundings (D : Type) {SD : Scalar D} {C : Collaborators D} : Type := {
  ChAssembly_SetupInitial : ChAssembly -> ChAssembly;
  ChAssembly_Setup : ChAssembly -> ChAssembly;
  ChAssembly_Update : bool -> ChAssembly -> ChAssembly;
  ChAssembly_IntStateGather :
    ChAssembly -> Z -> mat D -> Z -> mat D -> D -> mat D * mat D * D;
  ChAssembly_IntStateGatherAcceleration : ChAssembly -> Z -> mat D -> mat D;
  ChAssembly_IntStateIncrement :
    ChAssembly -> Z -> mat D -> mat D -> Z -> mat D -> mat D;
  ChAssembly_IntStateGetIncrement :
    ChAssembly -> Z -> mat D -> mat D -> Z -> mat D -> mat D;
  ChAssembly_KRMmatricesLoad : D -> D -> D -> ChAssembly -> ChAssembly;
  ChAssembly_ConstraintsLoadJacobians : ChAssembly -> ChAssembly;
  ChAssembly_InjectVariables : ChAssembly -> Descriptor -> Descriptor;
  ChAssembly_InjectKRMmatrices : ChAssembly -> Descriptor -> Descriptor;
  ChAssembly_InjectConstraints : ChAssembly -> Descriptor -> Descriptor;

  (* ChModalDamping::ComputeR(assembly, modal_M, modal_K, Psi, modal_R):
     the last argument is written *)
  ComputeR :
    ChModalDamping -> ChModalAssembly -> mat D -> mat D -> mat D -> mat D -> mat D;

  (* callback->evaluate(computed_custom_F, assembly): the first is written *)
  evaluate_modal : CustomForceModalCallback -> mat D -> ChModalAssembly -> mat D;
  evaluate_full : CustomForceFullCallback -> mat D -> ChModalAssembly -> mat D
}.

Arguments Surroundings D {SD C}.

Section Members.

Context {D : Type} {SD : Scalar D} {C : Collaborators D} {E : Surroundings D}.



(** Apply a change to the base-class sub-object. *)
Definition on_base (f : ChAssembly -> ChAssembly) (s : ChModalAssembly) : ChModalAssembly :=
  set_base (f (base s)) s.

(** Integer division of C++ on [int]. *)
Definition idiv (a b : Z) : Z := Z.quot a b.

(* -------------------------------------------------------------------------- *)
(*  util_sparse_assembly_2x2symm                                               *)
(* -------------------------------------------------------------------------- *)

(** HCQ = [ H  Cq' ; Cq  0 ]: the entries of H, then those of Cq below and of
    its transpose to the right. *)
Definition util_sparse_assembly_2x2symm (H Cq : mat D) : mat D :=
  let n_v := mrows H in
  let n_c := mrows Cq in
  let HCQ := mzero (n_v + n_c) (n_v + n_c) in
  let HCQ := set_block HCQ 0 0 (mrows H) (mcols H) H in
  let HCQ := set_block HCQ n_v 0 (mrows Cq) (mcols Cq) Cq in
  set_block HCQ 0 n_v (mcols Cq) (mrows Cq) (mtranspose Cq).

(* -------------------------------------------------------------------------- *)
(*  SetupInitial, Setup                                                        *)
(* -------------------------------------------------------------------------- *)

Definition SetupInitial (s : ChModalAssembly) : ChModalAssembly :=
  let s := on_base ChAssembly_SetupInitial s in
  let s := set_internal_bodylist (map item_SetupInitial (internal_bodylist s)) s in
  let s := set_internal_linklist (map item_SetupInitial (internal_linklist s)) s in
  let s := set_internal_meshlist (map item_SetupInitial (internal_meshlist s)) s in
  set_internal_otherphysicslist
    (map item_SetupInitial (internal_otherphysicslist s)) s.

(** The three offsets an internal item receives: behind the boundary items
    and behind the internal items counted so far. *)
Definition assign_offsets (s : ChModalAssembly) (item : Item) : Item :=
  let item :=
    SetOffset_x (u32 (offset_x (base s) + n_boundary_coords s + n_internal_coords s))
                item in
  let item :=
    SetOffset_w (u32 (offset_w (base s) + n_boundary_coords_w s + n_internal_coords_w s))
                item in
  SetOffset_L (u32 (offset_L (base s) + n_boundary_doc_w s + n_internal_doc_w s))
              item.

Definition Setup_internal_body (body : Item) (s : ChModalAssembly) : Item * ChModalAssembly :=
  if GetBodyFixed body then (body, s)
  else if GetSleeping body then (body, s)
  else
    let s := set_n_internal_bodies (n_internal_bodies s + 1) s in
    let body := assign_offsets s body in
    let body := item_Setup body in
    let s := set_n_internal_coords (n_internal_coords s + GetDOF body) s in
    let s := set_n_internal_coords_w (n_internal_coords_w s + GetDOF_w body) s in
    let s := set_n_internal_doc_w (n_internal_doc_w s + GetDOC body) s in
    (body, s).

(** The common tail of the link, mesh and other-item loops. *)
Definition Setup_internal_count (item : Item) (s : ChModalAssembly) : Item * ChModalAssembly :=
  let item := assign_offsets s item in
  let item := item_Setup item in
  let s := set_n_internal_coords (n_internal_coords s + GetDOF item) s in
  let s := set_n_internal_coords_w (n_internal_coords_w s + GetDOF_w item) s in
  let s := set_n_internal_doc_w (n_internal_doc_w s + GetDOC item) s in
  let s := set_n_internal_doc_w_C (n_internal_doc_w_C s + GetDOC_c item) s in
  let s := set_n_internal_doc_w_D (n_internal_doc_w_D s + GetDOC_d item) s in
  (item, s).

Definition Setup_internal_link (link : Item) (s : ChModalAssembly) : Item * ChModalAssembly :=
  if IsActive link
  then Setup_internal_count link (set_n_internal_links (n_internal_links s + 1) s)
  else (link, s).

Definition Setup_internal_mesh (mesh : Item) (s : ChModalAssembly) : Item * ChModalAssembly :=
  Setup_internal_count mesh (set_n_internal_meshes (n_internal_meshes s + 1) s).

Definition Setup_internal_other (item : Item) (s : ChModalAssembly) : Item * ChModalAssembly :=
  Setup_internal_count item
    (set_n_internal_physicsitems (n_internal_physicsitems s + 1) s).

(** The boundary statistics are the parent's counts after its own Setup. *)
Definition Setup_boundary (s : ChModalAssembly) : ChModalAssembly :=
  let s := on_base ChAssembly_Setup s in
  let a := base s in
  let s := set_n_boundary_bodies (nbodies a) s in
  let s := set_n_boundary_links (nlinks a) s in
  let s := set_n_boundary_meshes (nmeshes a) s in
  let s := set_n_boundary_physicsitems (nphysicsitems a) s in
  let s := set_n_boundary_coords (ncoords a) s in
  let s := set_n_boundary_coords_w (ncoords_w a) s in
  let s := set_n_boundary_doc (ndoc a) s in
  let s := set_n_boundary_doc_w (ndoc_w a) s in
  let s := set_n_boundary_doc_w_C (ndoc_w_C a) s in
  let s := set_n_boundary_doc_w_D (ndoc_w_D a) s in
  let s := set_n_boundary_sysvars (nsysvars a) s in
  let s := set_n_boundary_sysvars_w (nsysvars_w a) s in
  set_n_boundary_dof (ndof a) s.

(** The pass over the internal items, in the order of the source: the
    counters are reset, then the bodies, the links, the meshes and the other
    items are placed and counted, then the derived counts follow. *)
Definition Setup_internal_reset (s : ChModalAssembly) : ChModalAssembly :=
  let s := set_n_internal_bodies 0 s in
  let s := set_n_internal_links 0 s in
  let s := set_n_internal_meshes 0 s in
  let s := set_n_internal_physicsitems 0 s in
  let s := set_n_internal_coords 0 s in
  let s := set_n_internal_coords_w 0 s in
  let s := set_n_internal_doc 0 s in
  let s := set_n_internal_doc_w 0 s in
  let s := set_n_internal_doc_w_C 0 s in
  set_n_internal_doc_w_D 0 s.

Definition Setup_internal_bodies (s : ChModalAssembly) : ChModalAssembly :=
  let r := for_each Setup_internal_body (internal_bodylist s) s in
  set_internal_bodylist (fst r) (snd r).

Definition Setup_internal_links (s : ChModalAssembly) : ChModalAssembly :=
  let r := for_each Setup_internal_link (internal_linklist s) s in
  set_internal_linklist (fst r) (snd r).

Definition Setup_internal_meshes (s : ChModalAssembly) : ChModalAssembly :=
  let r := for_each Setup_internal_mesh (internal_meshlist s) s in
  set_internal_meshlist (fst r) (snd r).

Definition Setup_internal_others (s : ChModalAssembly) : ChModalAssembly :=
  let r := for_each Setup_internal_other (internal_otherphysicslist s) s in
  set_internal_otherphysicslist (fst r) (snd r).

Definition Setup_internal_finish (s : ChModalAssembly) : ChModalAssembly :=
  let s := set_n_internal_doc (n_internal_doc_w s + n_internal_bodies s) s in
  let s := set_n_internal_sysvars (n_internal_coords s + n_internal_doc s) s in
  let s := set_n_internal_sysvars_w (n_internal_coords_w s + n_internal_doc_w s) s in
  let s := set_n_internal_dof (n_internal_coords_w s - n_internal_doc_w s) s in
  set_custom_F_full (vzero (idx (n_boundary_coords_w s + n_internal_coords_w s))) s.

Definition Setup_internal (s : ChModalAssembly) : ChModalAssembly :=
  Setup_internal_finish
    (Setup_internal_others
       (Setup_internal_meshes
          (Setup_internal_links
             (Setup_internal_bodies (Setup_internal_reset s))))).

(** The statistics of the entire assembly, in full mode. *)
Definition Setup_totals_full (s : ChModalAssembly) : ChModalAssembly :=
  let s := on_base (set_ncoords (n_boundary_coords s + n_internal_coords s)) s in
  let s := on_base (set_ncoords_w (n_boundary_coords_w s + n_internal_coords_w s)) s in
  let s := on_base (set_ndoc (n_boundary_doc s + n_internal_doc s)) s in
  let s := on_base (set_ndoc_w (n_boundary_doc_w s + n_internal_doc_w s)) s in
  let s := on_base (set_ndoc_w_C (n_boundary_doc_w_C s + n_internal_doc_w_C s)) s in
  let s := on_base (set_ndoc_w_D (n_boundary_doc_w_D s + n_internal_doc_w_D s)) s in
  let s := on_base (set_nsysvars (n_boundary_sysvars s + n_internal_sysvars s)) s in
  let s := on_base (set_nsysvars_w (n_boundary_sysvars_w s + n_internal_sysvars_w s)) s in
  let s := on_base (set_ndof (n_boundary_dof s + n_internal_dof s)) s in
  let s := on_base (set_nbodies (nbodies (base s) + n_internal_bodies s)) s in
  let s := on_base (set_nlinks (nlinks (base s) + n_internal_links s)) s in
  let s := on_base (set_nmeshes (nmeshes (base s) + n_internal_meshes s)) s in
  on_base (set_nphysicsitems (nphysicsitems (base s) + n_internal_physicsitems s)) s.

(** The statistics of the entire assembly, in modal mode. *)
Definition Setup_totals_modal (s : ChModalAssembly) : ChModalAssembly :=
  let s := on_base (set_ncoords (n_boundary_coords s + n_modes_coords_w s)) s in
  let s := on_base (set_ncoords_w (n_boundary_coords_w s + n_modes_coords_w s)) s in
  let s := on_base (set_ndoc (n_boundary_doc s)) s in
  let s := on_base (set_ndoc_w (n_boundary_doc_w s)) s in
  let s := on_base (set_ndoc_w_C (n_boundary_doc_w_C s)) s in
  let s := on_base (set_ndoc_w_D (n_boundary_doc_w_D s)) s in
  let s := on_base (set_nsysvars (n_boundary_sysvars s + n_modes_coords_w s)) s in
  let s := on_base (set_nsysvars_w (n_boundary_sysvars_w s + n_modes_coords_w s)) s in
  let s := on_base (set_ndof (n_boundary_dof s + n_modes_coords_w s)) s in
  set_custom_F_modal (vzero (idx (n_boundary_coords_w s + n_modes_coords_w s))) s.

Definition Setup_totals (s : ChModalAssembly) : ChModalAssembly :=
  if negb (is_modal s) then Setup_totals_full s else Setup_totals_modal s.

(** ChModalAssembly::Setup: count all items, set statistics and offsets. *)
Definition Setup (s : ChModalAssembly) : ChModalAssembly :=
  Setup_totals (Setup_internal (Setup_boundary s)).


(* -------------------------------------------------------------------------- *)
(*  The integrator protocol                                                    *)
(* -------------------------------------------------------------------------- *)

(** One internal item's share of a gather; inactive bodies and links are
    skipped where the source tests IsActive. *)
Definition gather_item (test_active : bool) (displ_x displ_v : Z)
    (xvT : mat D * mat D * D) (item : Item) : mat D * mat D * D :=
  let '(x, v, T) := xvT in
  if negb test_active || IsActive item
  then item_IntStateGather item (u32 (displ_x + GetOffset_x item)) x
                           (u32 (displ_v + GetOffset_w item)) v T
  else (x, v, T).

(** ChModalAssembly::IntStateGather(off_x, x, off_v, v, T); [x], [v] and [T]
    are written. *)
Definition IntStateGather (s : ChModalAssembly)
    (off_x : Z) (x : mat D) (off_v : Z) (v : mat D) (T : D)
    : mat D * mat D * D :=
  let xvT := ChAssembly_IntStateGather (base s) off_x x off_v v T in
  let displ_x := u32 (off_x - offset_x (base s)) in
  let displ_v := u32 (off_v - offset_w (base s)) in
  if negb (is_modal s) then
    let xvT := fold_left (gather_item true displ_x displ_v) (internal_bodylist s) xvT in
    let xvT := fold_left (gather_item true displ_x displ_v) (internal_linklist s) xvT in
    let xvT := fold_left (gather_item false displ_x displ_v) (internal_meshlist s) xvT in
    fold_left (gather_item false displ_x displ_v) (internal_otherphysicslist s) xvT
  else
    let x := set_segment (fst3 xvT) (idx (u32 (off_x + n_boundary_coords s)))
                         (idx (n_modes_coords_w s)) (modal_q s) in
    let v := set_segment (snd3 xvT) (idx (u32 (off_v + n_boundary_coords_w s)))
                         (idx (n_modes_coords_w s)) (modal_q_dt s) in
    (x, v, ChTime (base s)).

Definition gather_acceleration_item (test_active : bool) (displ_a : Z)
    (a : mat D) (item : Item) : mat D :=
  if negb test_active || IsActive item
  then item_IntStateGatherAcceleration item (u32 (displ_a + GetOffset_w item)) a
  else a.

(** ChModalAssembly::IntStateGatherAcceleration(off_a, a). *)
Definition IntStateGatherAcceleration (s : ChModalAssembly) (off_a : Z) (a : mat D)
    : mat D :=
  let a := ChAssembly_IntStateGatherAcceleration (base s) off_a a in
  let displ_a := u32 (off_a - offset_w (base s)) in
  if negb (is_modal s) then
    let a := fold_left (gather_acceleration_item true displ_a) (internal_bodylist s) a in
    let a := fold_left (gather_acceleration_item true displ_a) (internal_linklist s) a in
    let a := fold_left (gather_acceleration_item false displ_a) (internal_meshlist s) a in
    fold_left (gather_acceleration_item false displ_a) (internal_otherphysicslist s) a
  else
    set_segment a (idx (u32 (off_a + n_boundary_coords_w s)))
                (idx (n_modes_coords_w s)) (modal_q_dtdt s).

Definition increment_item (test_active : bool) (displ_x displ_v : Z)
    (x Dv : mat D) (x_new : mat D) (item : Item) : mat D :=
  if negb test_active || IsActive item
  then item_IntStateIncrement item (u32 (displ_x + GetOffset_x item)) x_new x
                              (u32 (displ_v + GetOffset_w item)) Dv
  else x_new.

(** ChModalAssembly::IntStateIncrement(off_x, x_new, x, off_v, Dv); [x_new]
    is written. *)
Definition IntStateIncrement (s : ChModalAssembly)
    (off_x : Z) (x_new x : mat D) (off_v : Z) (Dv : mat D) : mat D :=
  let x_new := ChAssembly_IntStateIncrement (base s) off_x x_new x off_v Dv in
  let displ_x := u32 (off_x - offset_x (base s)) in
  let displ_v := u32 (off_v - offset_w (base s)) in
  if negb (is_modal s) then
    let x_new := fold_left (increment_item true displ_x displ_v x Dv)
                           (internal_bodylist s) x_new in
    let x_new := fold_left (increment_item true displ_x displ_v x Dv)
                           (internal_linklist s) x_new in
    let x_new := fold_left (increment_item false displ_x displ_v x Dv)
                           (internal_meshlist s) x_new in
    fold_left (increment_item false displ_x displ_v x Dv)
              (internal_otherphysicslist s) x_new
  else
    set_segment x_new (idx (u32 (off_x + n_boundary_coords s)))
      (idx (n_modes_coords_w s))
      (madd (segment x (idx (u32 (off_x + n_boundary_coords s)))
                     (idx (n_modes_coords_w s)))
            (segment Dv (idx (u32 (off_v + n_boundary_coords_w s)))
                     (idx (n_modes_coords_w s)))).

Definition get_increment_item (test_active : bool) (displ_x displ_v : Z)
    (x_new x : mat D) (Dv : mat D) (item : Item) : mat D :=
  if negb test_active || IsActive item
  then item_IntStateGetIncrement item (u32 (displ_x + GetOffset_x item)) x_new x
                                 (u32 (displ_v + GetOffset_w item)) Dv
  else Dv.

(** ChModalAssembly::IntStateGetIncrement(off_x, x_new, x, off_v, Dv); [Dv]
    is written. *)
Definition IntStateGetIncrement (s : ChModalAssembly)
    (off_x : Z) (x_new x : mat D) (off_v : Z) (Dv : mat D) : mat D :=
  let Dv := ChAssembly_IntStateGetIncrement (base s) off_x x_new x off_v Dv in
  let displ_x := u32 (off_x - offset_x (base s)) in
  let displ_v := u32 (off_v - offset_w (base s)) in
  if negb (is_modal s) then
    let Dv := fold_left (get_increment_item true displ_x displ_v x_new x)
                        (internal_bodylist s) Dv in
    let Dv := fold_left (get_increment_item true displ_x displ_v x_new x)
                        (internal_linklist s) Dv in
    let Dv := fold_left (get_increment_item false displ_x displ_v x_new x)
                        (internal_meshlist s) Dv in
    fold_left (get_increment_item false displ_x displ_v x_new x)
              (internal_otherphysicslist s) Dv
  else
    set_segment Dv (idx (u32 (off_v + n_boundary_coords_w s)))
      (idx (n_modes_coords_w s))
      (msub (segment x_new (idx (u32 (off_x + n_boundary_coords s)))
                     (idx (n_modes_coords_w s)))
            (segment x (idx (u32 (off_x + n_boundary_coords s)))
                     (idx (n_modes_coords_w s)))).

(* -------------------------------------------------------------------------- *)
(*  SetInternalStateWithModes                                                  *)
(* -------------------------------------------------------------------------- *)

(** The reduced increment [delta_qB; delta_eta] with respect to the old
    snapshot: the current reduced state against [qB_old; 0]. *)
Definition reduced_increment (s : ChModalAssembly) (x_mod : mat D) : mat D :=
  let bou_mod_coords := n_boundary_coords s + n_modes_coords_w s in
  let bou_mod_coords_w := n_boundary_coords_w s + n_modes_coords_w s in
  let x0_mod := vzero (idx bou_mod_coords) in
  let x0_mod :=
    set_segment x0_mod 0 (idx (n_boundary_coords s))
      (segment (full_assembly_x_old s) 0 (idx (n_boundary_coords s))) in
  IntStateGetIncrement s 0 x_mod x0_mod 0 (vzero (idx bou_mod_coords_w)).

(** [P_I2 * Psi_S * P_B2' * w_B + P_I2 * Psi_D * w_eta], the products taken
    from the left as Eigen does. *)
Definition recover_internal (s : ChModalAssembly) (w : mat D) : mat D :=
  let nB := idx (n_boundary_coords_w s) in
  let nM := idx (n_modes_coords_w s) in
  madd (mmul (mmul (mmul (P_I2 s) (Psi_S s)) (mtranspose (P_B2 s))) (segment w 0 nB))
       (mmul (mmul (P_I2 s) (Psi_D s)) (segment w nB nM)).

(** The full vector [w_B; w_I] recovered from the reduced [w_B; w_eta]. *)
Definition recover_full (s : ChModalAssembly) (w : mat D) : mat D :=
  let nB := idx (n_boundary_coords_w s) in
  let nI := idx (n_internal_coords_w s) in
  let full := vzero (idx (n_boundary_coords_w s + n_internal_coords_w s)) in
  let full := set_segment full 0 nB (segment w 0 nB) in
  set_segment full nB nI (recover_internal s w).

(** The scatter of one internal item; an inactive body or link is only
    updated. *)
Definition scatter_item (test_active : bool) (displ_x displ_v : Z)
    (x v : mat D) (T : D) (full_update : bool) (item : Item) : Item :=
  if negb test_active || IsActive item
  then item_IntStateScatter (u32 (displ_x + GetOffset_x item)) x
                            (u32 (displ_v + GetOffset_w item)) v T full_update item
  else item_Update T full_update item.

(** The reduced state snapshot [x_mod; v_mod]: IntStateGather at offset 0
    into zeroed vectors.  The time argument fooT of the source is not
    initialised and not read back. *)
Definition gather_reduced (s : ChModalAssembly) : mat D * mat D :=
  let bou_mod_coords := n_boundary_coords s + n_modes_coords_w s in
  let bou_mod_coords_w := n_boundary_coords_w s + n_modes_coords_w s in
  let xvT :=
    IntStateGather s 0 (vzero (idx bou_mod_coords)) 0 (vzero (idx bou_mod_coords_w)) d0 in
  (fst3 xvT, snd3 xvT).

(** The body of SetInternalStateWithModes behind its two guards. *)
Definition SetInternalStateWithModes_recover (full_update : bool) (s : ChModalAssembly)
    : ChModalAssembly :=
  let bou_int_coords := n_boundary_coords s + n_internal_coords s in
  let x_mod := fst (gather_reduced s) in
  let v_mod := snd (gather_reduced s) in
  let assembly_Dx_reduced := reduced_increment s x_mod in
  let assembly_Dx := recover_full s assembly_Dx_reduced in
  let assembly_v := recover_full s v_mod in
  (* needs_temporary_bou_int *)
  let s := set_is_modal false s in
  let assembly_x_new :=
    IntStateIncrement s 0 (vzero (idx bou_int_coords)) (full_assembly_x_old s)
                      0 assembly_Dx in
  let displ_x := u32 (0 - offset_x (base s)) in
  let displ_v := u32 (0 - offset_w (base s)) in
  let T := ChTime (base s) in
  let s := set_internal_bodylist
             (map (scatter_item true displ_x displ_v assembly_x_new assembly_v T full_update)
                  (internal_bodylist s)) s in
  let s := set_internal_meshlist
             (map (scatter_item false displ_x displ_v assembly_x_new assembly_v T full_update)
                  (internal_meshlist s)) s in
  let s := set_internal_linklist
             (map (scatter_item true displ_x displ_v assembly_x_new assembly_v T full_update)
                  (internal_linklist s)) s in
  let s := set_internal_otherphysicslist
             (map (scatter_item false displ_x displ_v assembly_x_new assembly_v T full_update)
                  (internal_otherphysicslist s)) s in
  let s := set_is_modal true s in
  set_full_assembly_x_old assembly_x_new s.

(** ChModalAssembly::SetInternalStateWithModes(full_update).  The
    rigid-body-mode check of the source only logs a norm. *)
Definition SetInternalStateWithModes (full_update : bool) (s : ChModalAssembly)
    : ChModalAssembly :=
  if negb (is_modal s) then s else
  let bou_int_coords_w := n_boundary_coords_w s + n_internal_coords_w s in
  let bou_mod_coords_w := n_boundary_coords_w s + n_modes_coords_w s in
  if negb (Z.of_nat (mrows (Psi s)) =? bou_int_coords_w)
     || negb (Z.of_nat (mcols (Psi s)) =? bou_mod_coords_w)
  then s else
  SetInternalStateWithModes_recover full_update s.

(* -------------------------------------------------------------------------- *)
(*  ComputeMassCenter, CpmputeSelectionMatrix, UpdateFloatingFrameOfReference  *)
(* -------------------------------------------------------------------------- *)

(** Nodes and elements of the meshes of a list, in order (the temporary mesh
    mmesh_bou_int of the source). *)
Definition collect_mesh (items : list Item) : list Node * list Element :=
  fold_left
    (fun (acc : list Node * list Element) item =>
       if is_ChMesh item
       then (fst acc ++ GetNodes item, snd acc ++ GetElements item)
       else acc)
    items ([], []).

Definition add_body_mass (acc : D * mat D) (body : Item) : D * mat D :=
  if IsActive body
  then (dadd (fst acc) (GetMass body),
        madd (snd acc) (mscale_l (GetMass body) (GetPos body)))
  else acc.

(** ChModalAssembly::ComputeMassCenter. *)
Definition ComputeMassCenter (s : ChModalAssembly) : ChModalAssembly :=
  let bou := collect_mesh (meshlist (base s)) in
  let int := collect_mesh (internal_meshlist s) in
  let acc := (d0, vzero 3) in
  let acc := fold_left add_body_mass (bodylist (base s)) acc in
  let acc := fold_left add_body_mass (internal_bodylist s) acc in
  let mmesh := ComputeMassProperties (fst bou ++ fst int) (snd bou ++ snd int) in
  let mmesh_mass := fst3 mmesh in
  let mmesh_com := snd3 mmesh in
  let mass_total := dadd (fst acc) mmesh_mass in
  let mass_weighted_radius := madd (snd acc) (mscale_l mmesh_mass mmesh_com) in
  if dnonzero mass_total
  then set_com_x (mdiv_r mass_weighted_radius mass_total) s
  else set_com_x (segment (full_assembly_x_old s) 0 3) s.

(** The positions of the boundary bodies and nodes, one column each. *)
Definition put_body_pos (acc : mat D * Z) (body : Item) : mat D * Z :=
  if IsActive body
  then (set_col (fst acc) (idx (snd acc)) (GetPos body), u32 (snd acc + 1))
  else acc.

Definition put_node_pos (acc : mat D * Z) (node : Node) : mat D * Z :=
  let acc :=
    if is_ChNodeFEAxyz node
    then (set_col (fst acc) (idx (snd acc)) (node_GetPos node), u32 (snd acc + 1))
    else acc in
  if is_ChNodeFEAxyzrot node
  then (set_col (fst acc) (idx (snd acc)) (node_GetPos node), u32 (snd acc + 1))
  else acc.

Definition put_mesh_pos (acc : mat D * Z) (item : Item) : mat D * Z :=
  if is_ChMesh item then fold_left put_node_pos (GetNodes item) acc else acc.

(** ChModalAssembly::CpmputeSelectionMatrix (the name is the source's).  The
    branch under [test_second_method = false] is never taken. *)
Definition CpmputeSelectionMatrix (s : ChModalAssembly) : ChModalAssembly :=
  let n_bou :=
    fold_left (fun n item => if is_ChMesh item then u32 (n + GetNnodes item) else n)
              (meshlist (base s)) (u32 (n_boundary_bodies s)) in
  let pos_bou := mzero 3 (idx n_bou) in
  let acc := fold_left put_body_pos (bodylist (base s)) (pos_bou, 0) in
  let pos_bou := fst (fold_left put_mesh_pos (meshlist (base s)) acc) in
  let A := mzero (idx (n_bou + 1)) (idx n_bou) in
  let A := set_topRows A (idx n_bou) (mmul (mtranspose pos_bou) pos_bou) in
  let A := set_bottomRows A 1 (mconst 1 (mcols A) d1) in
  let v := vzero (idx (n_bou + 1)) in
  let v := set_segment v 0 (idx n_bou) (mmul (mtranspose pos_bou) (com_x s)) in
  let v := set_segment v (mrows v - 1) 1 (mconst 1 1 d1) in
  let alpha := colPivHouseholderQr_solve A v in
  let S0 := mzero 6 (idx (u32 (6 * n_bou))) in
  let S1 :=
    for_int 0 n_bou
      (fun i S0 =>
         let S0 := set_block_diagonal S0 0 (idx (6 * i)) 3 (coef alpha (idx i) 0) in
         let S0 := set_block_diagonal S0 3 (idx (6 * i + 3)) 3 (coef alpha (idx i) 0) in
         (i, S0))
      S0 in
  set_S_sel S1 s.

(** The boundary kinematics stacked six by six. *)
Definition put_body_kin (acc : mat D * mat D * mat D * Z) (body : Item)
    : mat D * mat D * mat D * Z :=
  let '(pos_bou, vel_bou, acc_bou, i_bou) := acc in
  if IsActive body then
    let pos_bou := set_segment pos_bou (idx (u32 (6 * i_bou))) 3 (GetPos body) in
    let pos_bou := set_segment pos_bou (idx (u32 (6 * i_bou + 3))) 3 (Q_to_Rotv (GetRot body)) in
    let vel_bou := set_segment vel_bou (idx (u32 (6 * i_bou))) 3 (GetPos_dt body) in
    let vel_bou := set_segment vel_bou (idx (u32 (6 * i_bou + 3))) 3 (GetWvel_loc body) in
    let acc_bou := set_segment acc_bou (idx (u32 (6 * i_bou))) 3 (GetPos_dtdt body) in
    let acc_bou := set_segment acc_bou (idx (u32 (6 * i_bou + 3))) 3 (GetWacc_loc body) in
    (pos_bou, vel_bou, acc_bou, u32 (i_bou + 1))
  else acc.

Definition put_node_kin (acc : mat D * mat D * mat D * Z) (node : Node)
    : mat D * mat D * mat D * Z :=
  let acc :=
    let '(pos_bou, vel_bou, acc_bou, i_bou) := acc in
    if is_ChNodeFEAxyz node then
      let pos_bou := set_segment pos_bou (idx (u32 (6 * i_bou))) 3 (node_GetPos node) in
      let vel_bou := set_segment vel_bou (idx (u32 (6 * i_bou))) 3 (node_GetPos_dt node) in
      let acc_bou := set_segment acc_bou (idx (u32 (6 * i_bou))) 3 (node_GetPos_dtdt node) in
      (pos_bou, vel_bou, acc_bou, u32 (i_bou + 1))
    else acc in
  let '(pos_bou, vel_bou, acc_bou, i_bou) := acc in
  if is_ChNodeFEAxyzrot node then
    let pos_bou := set_segment pos_bou (idx (u32 (6 * i_bou))) 3 (node_GetPos node) in
    let pos_bou :=
      set_segment pos_bou (idx (u32 (6 * i_bou + 3))) 3 (Q_to_Rotv (node_GetRot node)) in
    let vel_bou := set_segment vel_bou (idx (u32 (6 * i_bou))) 3 (node_GetPos_dt node) in
    let vel_bou := set_segment vel_bou (idx (u32 (6 * i_bou + 3))) 3 (node_GetWvel_loc node) in
    let acc_bou := set_segment acc_bou (idx (u32 (6 * i_bou))) 3 (node_GetPos_dtdt node) in
    let acc_bou := set_segment acc_bou (idx (u32 (6 * i_bou + 3))) 3 (node_GetWacc_loc node) in
    (pos_bou, vel_bou, acc_bou, u32 (i_bou + 1))
  else acc.

Definition put_mesh_kin (acc : mat D * mat D * mat D * Z) (item : Item)
    : mat D * mat D * mat D * Z :=
  if is_ChMesh item then fold_left put_node_kin (GetNodes item) acc else acc.

(** ChModalAssembly::UpdateFloatingFrameOfReference. *)
Definition UpdateFloatingFrameOfReference (s : ChModalAssembly) : ChModalAssembly :=
  let n := mcols (S_sel s) in
  let acc := (vzero n, vzero n, vzero n, 0) in
  let acc := fold_left put_body_kin (bodylist (base s)) acc in
  let kin := fst (fold_left put_mesh_kin (meshlist (base s)) acc) in
  let pos_bou := fst3 kin in
  let vel_bou := snd3 kin in
  let acc_bou := thd3 kin in
  let pos_F := mmul (S_sel s) pos_bou in
  let F := frame_SetPos (head pos_F 3) (floating_frame_F s) in
  let F := frame_SetRot (Q_from_Rotv (tail pos_F 3)) F in
  let vel_F := mmul (S_sel s) vel_bou in
  let F := frame_SetPos_dt (head vel_F 3) F in
  let F := frame_SetWvel_loc (tail vel_F 3) F in
  let acc_F := mmul (S_sel s) acc_bou in
  let F := frame_SetPos_dtdt (head acc_F 3) F in
  let F := frame_SetWacc_loc (tail acc_F 3) F in
  let s := set_floating_frame_F F s in
  let s := set_R_F (frame_GetA (floating_frame_F s)) s in
  set_wloc_F (frame_GetWvel_loc (floating_frame_F s)) s.

(* -------------------------------------------------------------------------- *)
(*  UpdateTransformationMatrix                                                 *)
(* -------------------------------------------------------------------------- *)

(** The rigid-body columns of one node: identity, the lever arm through the
    frame rotation, and the relative rotation.  [x0] is where the node's
    seven position coordinates start in full_assembly_x_old. *)
Definition rigid_body_rows (s : ChModalAssembly) (P : mat D) (i x0 : Z) : mat D :=
  let P := set_block P (idx (6 * i)) 0 3 3 (ChMatrix33_of_scalar d1) in
  let P :=
    set_block P (idx (6 * i)) 3 3 3
      (mmul (mopp (ChStarMatrix33
                     (msub (segment (full_assembly_x_old s) (idx x0) 3)
                           (frame_GetPos (floating_frame_F s)))))
            (R_F s)) in
  let quat := segment (full_assembly_x_old s) (idx (x0 + 3)) 4 in
  set_block P (idx (6 * i + 3)) 3 3 3
    (mmul (mtranspose (ChMatrix33_of_quat quat)) (R_F s)).

(** ChModalAssembly::UpdateTransformationMatrix: P_B1, P_B2, P_I1, P_I2, P_W
    and Y.  Every one of the four loops advances its index in the body as
    well as in the header. *)
Definition UpdateTransformationMatrix (s : ChModalAssembly) : ChModalAssembly :=
  let nBw := n_boundary_coords_w s in
  let nIw := n_internal_coords_w s in
  let nM := n_modes_coords_w s in
  let s :=
    set_P_B1
      (for_int 0 (idiv nBw 6)
         (fun i_bou P => (i_bou + 1, rigid_body_rows s P i_bou (7 * i_bou)))
         (mzero (idx nBw) 6)) s in
  let s :=
    set_P_B2
      (for_int 0 (idiv nBw 6)
         (fun i_bou P =>
            (i_bou + 1, set_block P (idx (6 * i_bou)) (idx (6 * i_bou)) 3 3 (R_F s)))
         (midentity (idx nBw) (idx nBw))) s in
  let s :=
    set_P_I1
      (for_int 0 (idiv nIw 6)
         (fun i_int P =>
            (i_int + 1,
             rigid_body_rows s P i_int (n_boundary_coords s + 7 * i_int)))
         (mzero (idx nIw) 6)) s in
  let s :=
    set_P_I2
      (for_int 0 (idiv nIw 6)
         (fun i_int P =>
            (i_int + 1, set_block P (idx (6 * i_int)) (idx (6 * i_int)) 3 3 (R_F s)))
         (midentity (idx nIw) (idx nIw))) s in
  let s :=
    set_P_W
      (set_topLeftCorner (midentity (idx (nBw + nM)) (idx (nBw + nM)))
                         (idx nBw) (idx nBw) (P_B2 s)) s in
  let I_BB := midentity (idx nBw) (idx nBw) in
  set_Y
    (set_topLeftCorner (midentity (idx (nBw + nM)) (idx (nBw + nM)))
       (idx nBw) (idx nBw)
       (mmul (mtranspose (P_B2 s)) (msub I_BB (mmul (P_B1 s) (S_sel s))))) s.

(* -------------------------------------------------------------------------- *)
(*  Update                                                                     *)
(* -------------------------------------------------------------------------- *)

Definition run_full_callback (s : ChModalAssembly) : ChModalAssembly :=
  match m_custom_F_full_callback s with
  | Some cb => set_custom_F_full (evaluate_full cb (custom_F_full s) s) s
  | None => s
  end.

Definition run_modal_callback (s : ChModalAssembly) : ChModalAssembly :=
  match m_custom_F_modal_callback s with
  | Some cb => set_custom_F_modal (evaluate_modal cb (custom_F_modal s) s) s
  | None => s
  end.

(** ChModalAssembly::Update(update_assets). *)
Definition Update (update_assets : bool) (s : ChModalAssembly) : ChModalAssembly :=
  let s := on_base (ChAssembly_Update update_assets) s in
  if negb (is_modal s) then
    let T := ChTime (base s) in
    let s := set_internal_bodylist
               (map (item_Update T update_assets) (internal_bodylist s)) s in
    let s := set_internal_otherphysicslist
               (map (item_Update T update_assets) (internal_otherphysicslist s)) s in
    let s := set_internal_linklist
               (map (item_Update T update_assets) (internal_linklist s)) s in
    let s := set_internal_meshlist
               (map (item_Update T update_assets) (internal_meshlist s)) s in
    run_full_callback s
  else
    let s := if internal_nodes_update s
             then SetInternalStateWithModes update_assets s
             else s in
    let s := run_modal_callback s in
    let s := run_full_callback s in
    let s := ComputeMassCenter s in
    let s := UpdateFloatingFrameOfReference s in
    UpdateTransformationMatrix s.

(* -------------------------------------------------------------------------- *)
(*  The per-step corrections: ComputeInertialKRMmatrix, ComputeStiffnessMatrix,*)
(*  ComputeDampingMatrix, ComputeModalKRMmatrix                                *)
(* -------------------------------------------------------------------------- *)

Local Infix "*m" := mmul (at level 40, left associativity).
Local Infix "+m" := madd (at level 50, left associativity).
Local Infix "-m" := msub (at level 50, left associativity).
Local Notation "A ^T" := (mtranspose A) (at level 1, format "A ^T").

(** The first loop of ComputeInertialKRMmatrix: V, O_B and O_F are zeroed in
    place and filled node by node. *)
Definition inertial_velocity_blocks (s : ChModalAssembly) (v_mod : mat D)
    : mat D * mat D * mat D :=
  for_int 0 (idiv (n_boundary_coords_w s) 6)
    (fun i_bou (m : mat D * mat D * mat D) =>
       let '(V', O_B', O_F') := m in
       let V' := set_block V' (idx (6 * i_bou)) 3 3 3
                   (ChStarMatrix33 ((R_F s)^T *m segment v_mod (idx (6 * i_bou)) 3)) in
       let O_B' := set_block O_B' (idx (6 * i_bou + 3)) (idx (6 * i_bou + 3)) 3 3
                     (ChStarMatrix33 (segment v_mod (idx (6 * i_bou + 3)) 3)) in
       let O_F' := set_block O_F' (idx (6 * i_bou)) (idx (6 * i_bou)) 3 3
                     (ChStarMatrix33 (wloc_F s)) in
       (i_bou, (V', O_B', O_F')))
    (mzero_like (V s), mzero_like (O_B s), mzero_like (O_F s)).

(** The second loop of ComputeInertialKRMmatrix: V_acc, V_rmom, O_thetamom,
    V_F1, V_F2 and V_F3 are zeroed in place and filled node by node. *)
Definition inertial_momentum_blocks (s : ChModalAssembly)
    (a_mod momen centr momen_F coriolis : mat D)
    : (mat D * mat D * mat D) * (mat D * mat D * mat D) :=
  for_int 0 (idiv (n_boundary_coords_w s) 6)
    (fun i_bou (m : (mat D * mat D * mat D) * (mat D * mat D * mat D)) =>
       let '((V_acc', V_rmom', O_thetamom'), (V_F1', V_F2', V_F3')) := m in
       let V_acc' := set_block V_acc' (idx (6 * i_bou)) 3 3 3
                       (ChStarMatrix33 ((R_F s)^T *m segment a_mod (idx (6 * i_bou)) 3)) in
       let V_rmom' := set_block V_rmom' (idx (6 * i_bou)) 3 3 3
                        (ChStarMatrix33 (segment momen (idx (6 * i_bou)) 3)) in
       let O_thetamom' :=
         set_block O_thetamom' (idx (6 * i_bou + 3)) (idx (6 * i_bou + 3)) 3 3
           (ChStarMatrix33 (segment momen (idx (6 * i_bou + 3)) 3)) in
       let V_F1' := set_block V_F1' (idx (6 * i_bou)) 3 3 3
                      (ChStarMatrix33 (segment centr (idx (6 * i_bou)) 3)) in
       let V_F2' := set_block V_F2' (idx (6 * i_bou)) 3 3 3
                      (ChStarMatrix33 (segment momen_F (idx (6 * i_bou)) 3)) in
       let V_F3' := set_block V_F3' (idx (6 * i_bou)) 3 3 3
                      (ChStarMatrix33 (segment coriolis (idx (6 * i_bou)) 3)) in
       (i_bou, ((V_acc', V_rmom', O_thetamom'), (V_F1', V_F2', V_F3'))))
    ((mzero_like (V_acc s), mzero_like (V_rmom s), mzero_like (O_thetamom s)),
     (mzero_like (V_F1 s), mzero_like (V_F2 s), mzero_like (V_F3 s))).

(** ChModalAssembly::ComputeInertialKRMmatrix. *)
Definition ComputeInertialKRMmatrix (s : ChModalAssembly) : ChModalAssembly :=
  let bou_mod_coords_w := n_boundary_coords_w s + n_modes_coords_w s in
  let v_mod := snd (gather_reduced s) in
  let a_mod := IntStateGatherAcceleration s 0 (vzero (idx bou_mod_coords_w)) in
  (* update matrices *)
  let blocks := inertial_velocity_blocks s v_mod in
  let s := set_V (fst3 blocks) s in
  let s := set_O_B (snd3 blocks) s in
  let s := set_O_F (thd3 blocks) s in
  (* update matrices *)
  let momen := M_red s *m ((P_W s)^T *m v_mod) in
  let centr := M_red s *m ((P_W s)^T *m a_mod) in
  let momen_F := O_F s *m momen in
  let coriolis := M_red s *m (V s *m (U s *m v_mod)) in
  let blocks := inertial_momentum_blocks s a_mod momen centr momen_F coriolis in
  let s := set_V_acc (fst3 (fst blocks)) s in
  let s := set_V_rmom (snd3 (fst blocks)) s in
  let s := set_O_thetamom (thd3 (fst blocks)) s in
  let s := set_V_F1 (fst3 (snd blocks)) s in
  let s := set_V_F2 (snd3 (snd blocks)) s in
  let s := set_V_F3 (thd3 (snd blocks)) s in
  (* inertial mass matrix *)
  let s := set_M_sup (P_W s *m M_red s *m (P_W s)^T) s in
  (* inertial damping matrix *)
  let Ri_1 := P_W s *m (M_red s *m V s -m V_rmom s) *m U s in
  let s :=
    set_Ri_sup
      (P_W s *m (O_F s *m M_red s -m M_red s *m O_F s) *m (P_W s)^T
       +m Ri_1 -m Ri_1^T +m O_B s *m M_red s *m (P_W s)^T -m O_thetamom s) s in
  (* inertial stiffness matrix *)
  let s :=
    set_Ki_sup
      (P_W s *m (O_F s *m M_red s -m M_red s *m O_F s) *m V s *m U s
       -m (U s)^T *m (V s)^T *m M_red s *m V s *m U s
       +m O_B s *m M_red s *m V s *m U s
       -m P_W s *m (V_F1 s +m V_F2 s +m V_F3 s) *m U s
       +m P_W s *m M_red s *m V_acc s *m U s
       +m (U s)^T *m (V_rmom s)^T *m V s *m U s) s in
  (* quadratic velocity term *)
  let mat_F := P_W s *m O_F s *m M_red s *m (P_W s)^T in
  let mat_B := O_B s *m M_red s *m (P_W s)^T in
  let mat_M := P_W s *m M_red s *m V s *m U s in
  set_g_quad ((mat_F +m mat_B +m mat_M -m mat_M^T) *m v_mod) s.

(** ChModalAssembly::ComputeStiffnessMatrix. *)
Definition ComputeStiffnessMatrix (s : ChModalAssembly) : ChModalAssembly :=
  let nBw := n_boundary_coords_w s in
  let nM := n_modes_coords_w s in
  let x_mod := fst (gather_reduced s) in
  let F := floating_frame_F s in
  let F0 := floating_frame_F0 s in
  let n := idiv nBw 6 in
  let displ_loc := vzero (idx (nBw + nM)) in
  let displ_loc :=
    set_segment displ_loc (mrows displ_loc - idx nM) (idx nM) (modal_q s) in
  let displ_loc :=
    for_int 0 n
      (fun i_bou displ_loc =>
         let r_B := segment x_mod (idx (7 * i_bou)) 3 in
         let r_BF0 :=
           (frame_GetA F0)^T
           *m (segment (modes_assembly_x0 s) (idx (7 * i_bou)) 3 -m frame_GetPos F0) in
         let displ_loc :=
           set_segment displ_loc (idx (6 * i_bou)) 3
             ((R_F s)^T *m (r_B -m frame_GetPos F) -m r_BF0) in
         let quat_bou := segment x_mod (idx (7 * i_bou + 3)) 4 in
         let R_B := ChMatrix33_of_quat quat_bou in
         let displ_loc :=
           set_segment displ_loc (idx (6 * i_bou + 3)) 3
             (Q_to_Rotv quat_bou -m R_B^T *m (R_F s *m Q_to_Rotv (frame_GetRot F))) in
         (i_bou, displ_loc))
      displ_loc in
  (* local internal forces of reduced superelement *)
  let s := set_g_loc (K_red s *m displ_loc) s in
  (* material stiffness matrix of reduced superelement *)
  let s := set_Km_sup ((Y s)^T *m K_red s *m Y s) s in
  let Xi :=
    for_int 0 n
      (fun i_bou (m : (mat D * mat D) * (mat D * mat D)) =>
         let '((Xi_F1, Xi_F3), (Xi_H, Xi_V)) := m in
         let F_loc := segment (g_loc s) (idx (6 * i_bou)) 3 in
         let M_loc := segment (g_loc s) (idx (6 * i_bou + 3)) 3 in
         let r_B := segment x_mod (idx (7 * i_bou)) 3 in
         let quat_bou := segment x_mod (idx (7 * i_bou + 3)) 4 in
         let R_B := ChMatrix33_of_quat quat_bou in
         let Xi_F1 := Xi_F1 +m R_F s *m ChStarMatrix33 F_loc in
         let Xi_F3 :=
           Xi_F3 +m (ChStarMatrix33 F_loc *m (R_F s)^T
                     *m ChStarMatrix33 (r_B -m frame_GetPos F) *m R_F s
                     -m ChStarMatrix33 ((R_F s)^T *m (R_B *m M_loc))) in
         let Xi_H := set_block Xi_H 3 (idx (6 * i_bou)) 3 3
                       (ChStarMatrix33 F_loc *m (R_F s)^T) in
         let Xi_H := set_block Xi_H 3 (idx (6 * i_bou + 3)) 3 3
                       ((R_F s)^T *m (R_B *m ChStarMatrix33 M_loc)) in
         let Xi_V := set_block Xi_V (idx (6 * i_bou)) 3 3 3
                       (mopp (R_F s) *m ChStarMatrix33 F_loc) in
         (i_bou, ((Xi_F1, Xi_F3), (Xi_H, Xi_V))))
      ((mzero 3 3, mzero 3 3), (mzero 6 (idx nBw), mzero (idx nBw) 6)) in
  let Xi_F1 := fst (fst Xi) in
  let Xi_F3 := snd (fst Xi) in
  let Xi_H := fst (snd Xi) in
  let Xi_V := snd (snd Xi) in
  let Xi_F2 := Xi_F1^T in
  let Xi_F := comma_init (mzero 6 6) [ChMatrix33_of_scalar d0; Xi_F1; Xi_F2; Xi_F3] in
  (* geometrical stiffness matrix of reduced superelement *)
  set_Kg_sup
    (set_topLeftCorner (mzero_like (Kg_sup s)) (idx nBw) (idx nBw)
       ((S_sel s)^T *m Xi_F *m S_sel s +m (S_sel s)^T *m Xi_H +m Xi_V *m S_sel s)) s.

(** ChModalAssembly::ComputeDampingMatrix. *)
Definition ComputeDampingMatrix (s : ChModalAssembly) : ChModalAssembly :=
  set_Rm_sup ((Y s)^T *m R_red s *m Y s) s.

(** ChModalAssembly::ComputeModalKRMmatrix. *)
Definition ComputeModalKRMmatrix (s : ChModalAssembly) : ChModalAssembly :=
  let s := set_modal_M (M_sup s) s in
  let s := set_modal_K (Km_sup s +m Kg_sup s +m Ki_sup s) s in
  let s := set_modal_R (Rm_sup s +m Ri_sup s) s in
  set_modal_Cq (Cq_red s *m (P_W s)^T) s.

(* -------------------------------------------------------------------------- *)
(*  Descriptor injection, KRMmatricesLoad, ConstraintsLoadJacobians            *)
(* -------------------------------------------------------------------------- *)

Definition inject_all (inject : Item -> Descriptor -> Descriptor)
    (items : list Item) (d : Descriptor) : Descriptor :=
  fold_left (fun d item => inject item d) items d.

(** ChModalAssembly::InjectVariables.  A null modal_variables inserts
    nothing. *)
Definition InjectVariables (s : ChModalAssembly) (d : Descriptor) : Descriptor :=
  let d := ChAssembly_InjectVariables (base s) d in
  if negb (is_modal s) then
    let d := inject_all item_InjectVariables (internal_bodylist s) d in
    let d := inject_all item_InjectVariables (internal_linklist s) d in
    let d := inject_all item_InjectVariables (internal_meshlist s) d in
    inject_all item_InjectVariables (internal_otherphysicslist s) d
  else
    match modal_variables s with
    | Some mv => InsertVariables mv d
    | None => d
    end.

(** ChModalAssembly::InjectConstraints. *)
Definition InjectConstraints (s : ChModalAssembly) (d : Descriptor) : Descriptor :=
  let d := ChAssembly_InjectConstraints (base s) d in
  if negb (is_modal s) then
    let d := inject_all item_InjectConstraints (internal_bodylist s) d in
    let d := inject_all item_InjectConstraints (internal_linklist s) d in
    let d := inject_all item_InjectConstraints (internal_meshlist s) d in
    inject_all item_InjectConstraints (internal_otherphysicslist s) d
  else d.

(** ChModalAssembly::InjectKRMmatrices. *)
Definition InjectKRMmatrices (s : ChModalAssembly) (d : Descriptor) : Descriptor :=
  if negb (is_modal s) then
    let d := ChAssembly_InjectKRMmatrices (base s) d in
    let d := inject_all item_InjectKRMmatrices (internal_bodylist s) d in
    let d := inject_all item_InjectKRMmatrices (internal_linklist s) d in
    let d := inject_all item_InjectKRMmatrices (internal_meshlist s) d in
    inject_all item_InjectKRMmatrices (internal_otherphysicslist s) d
  else InsertKblock (Kblock_variables (modal_Hblock s)) (Get_K (modal_Hblock s)) d.

(** ChModalAssembly::ConstraintsLoadJacobians. *)
Definition ConstraintsLoadJacobians (s : ChModalAssembly) : ChModalAssembly :=
  let s := on_base ChAssembly_ConstraintsLoadJacobians s in
  if negb (is_modal s) then
    let s := set_internal_bodylist
               (map item_ConstraintsLoadJacobians (internal_bodylist s)) s in
    let s := set_internal_linklist
               (map item_ConstraintsLoadJacobians (internal_linklist s)) s in
    let s := set_internal_meshlist
               (map item_ConstraintsLoadJacobians (internal_meshlist s)) s in
    set_internal_otherphysicslist
      (map item_ConstraintsLoadJacobians (internal_otherphysicslist s)) s
  else s.

(** The last statement of the modal branch of KRMmatricesLoad:
    modal_Hblock.Get_K() = modal_K * Kfactor + modal_R * Rfactor
    + modal_M * Mfactor. *)
Definition load_modal_Hblock (Kfactor Rfactor Mfactor : D) (s : ChModalAssembly)
    : ChModalAssembly :=
  set_modal_Hblock
    (Build_ChKblockGeneric
       (Kblock_variables (modal_Hblock s))
       (mscale_r (modal_K s) Kfactor +m mscale_r (modal_R s) Rfactor
        +m mscale_r (modal_M s) Mfactor)) s.

(** The modal branch of KRMmatricesLoad. *)
Definition KRMmatricesLoad_modal (Kfactor Rfactor Mfactor : D) (s : ChModalAssembly)
    : ChModalAssembly :=
  let s := ComputeInertialKRMmatrix s in
  let s := ComputeStiffnessMatrix s in
  let s := ComputeDampingMatrix s in
  let s := ComputeModalKRMmatrix s in
  load_modal_Hblock Kfactor Rfactor Mfactor s.

(** ChModalAssembly::KRMmatricesLoad(Kfactor, Rfactor, Mfactor). *)
Definition KRMmatricesLoad (Kfactor Rfactor Mfactor : D) (s : ChModalAssembly)
    : ChModalAssembly :=
  if negb (is_modal s) then
    let s := on_base (ChAssembly_KRMmatricesLoad Kfactor Rfactor Mfactor) s in
    let s := set_internal_bodylist
               (map (item_KRMmatricesLoad Kfactor Rfactor Mfactor) (internal_bodylist s)) s in
    let s := set_internal_linklist
               (map (item_KRMmatricesLoad Kfactor Rfactor Mfactor) (internal_linklist s)) s in
    let s := set_internal_meshlist
               (map (item_KRMmatricesLoad Kfactor Rfactor Mfactor) (internal_meshlist s)) s in
    set_internal_otherphysicslist
      (map (item_KRMmatricesLoad Kfactor Rfactor Mfactor) (internal_otherphysicslist s)) s
  else KRMmatricesLoad_modal Kfactor Rfactor Mfactor s.

(* -------------------------------------------------------------------------- *)
(*  The matrices that the per-step build writes                                *)
(* -------------------------------------------------------------------------- *)

(** The members written by ComputeInertialKRMmatrix, ComputeStiffnessMatrix,
    ComputeDampingMatrix and ComputeModalKRMmatrix, and the matrix of the
    modal block. *)
Record KRM_cache : Type := {
  cache_V : mat D;
  cache_O_B : mat D;
  cache_O_F : mat D;
  cache_V_acc : mat D;
  cache_V_rmom : mat D;
  cache_O_thetamom : mat D;
  cache_V_F1 : mat D;
  cache_V_F2 : mat D;
  cache_V_F3 : mat D;
  cache_M_sup : mat D;
  cache_Ri_sup : mat D;
  cache_Ki_sup : mat D;
  cache_g_quad : mat D;
  cache_g_loc : mat D;
  cache_Km_sup : mat D;
  cache_Kg_sup : mat D;
  cache_Rm_sup : mat D;
  cache_modal_M : mat D;
  cache_modal_K : mat D;
  cache_modal_R : mat D;
  cache_modal_Cq : mat D;
  cache_Hblock_K : mat D
}.

(** The written members as they stand in a state. *)
Definition KRM_cache_of (s : ChModalAssembly) : KRM_cache :=
  {| cache_V := V s;
     cache_O_B := O_B s;
     cache_O_F := O_F s;
     cache_V_acc := V_acc s;
     cache_V_rmom := V_rmom s;
     cache_O_thetamom := O_thetamom s;
     cache_V_F1 := V_F1 s;
     cache_V_F2 := V_F2 s;
     cache_V_F3 := V_F3 s;
     cache_M_sup := M_sup s;
     cache_Ri_sup := Ri_sup s;
     cache_Ki_sup := Ki_sup s;
     cache_g_quad := g_quad s;
     cache_g_loc := g_loc s;
     cache_Km_sup := Km_sup s;
     cache_Kg_sup := Kg_sup s;
     cache_Rm_sup := Rm_sup s;
     cache_modal_M := modal_M s;
     cache_modal_K := modal_K s;
     cache_modal_R := modal_R s;
     cache_modal_Cq := modal_Cq s;
     cache_Hblock_K := Get_K (modal_Hblock s) |}.

(** A state with the written members replaced. *)
Definition KRM_cache_write (c : KRM_cache) (s : ChModalAssembly) : ChModalAssembly :=
  let s := set_V (cache_V c) s in
  let s := set_O_B (cache_O_B c) s in
  let s := set_O_F (cache_O_F c) s in
  let s := set_V_acc (cache_V_acc c) s in
  let s := set_V_rmom (cache_V_rmom c) s in
  let s := set_O_thetamom (cache_O_thetamom c) s in
  let s := set_V_F1 (cache_V_F1 c) s in
  let s := set_V_F2 (cache_V_F2 c) s in
  let s := set_V_F3 (cache_V_F3 c) s in
  let s := set_M_sup (cache_M_sup c) s in
  let s := set_Ri_sup (cache_Ri_sup c) s in
  let s := set_Ki_sup (cache_Ki_sup c) s in
  let s := set_g_quad (cache_g_quad c) s in
  let s := set_g_loc (cache_g_loc c) s in
  let s := set_Km_sup (cache_Km_sup c) s in
  let s := set_Kg_sup (cache_Kg_sup c) s in
  let s := set_Rm_sup (cache_Rm_sup c) s in
  let s := set_modal_M (cache_modal_M c) s in
  let s := set_modal_K (cache_modal_K c) s in
  let s := set_modal_R (cache_modal_R c) s in
  let s := set_modal_Cq (cache_modal_Cq c) s in
  set_modal_Hblock
    (Build_ChKblockGeneric (Kblock_variables (modal_Hblock s)) (cache_Hblock_K c)) s.

(** What ComputeInertialKRMmatrix reads of the written members: the sizes of
    those that it or ComputeStiffnessMatrix zeroes in place with setZero(). *)
Definition KRM_cache_sizes (c : KRM_cache) : KRM_cache :=
  {| cache_V := mzero_like (cache_V c);
     cache_O_B := mzero_like (cache_O_B c);
     cache_O_F := mzero_like (cache_O_F c);
     cache_V_acc := mzero_like (cache_V_acc c);
     cache_V_rmom := mzero_like (cache_V_rmom c);
     cache_O_thetamom := mzero_like (cache_O_thetamom c);
     cache_V_F1 := mzero_like (cache_V_F1 c);
     cache_V_F2 := mzero_like (cache_V_F2 c);
     cache_V_F3 := mzero_like (cache_V_F3 c);
     cache_M_sup := mzero 0 0;
     cache_Ri_sup := mzero 0 0;
     cache_Ki_sup := mzero 0 0;
     cache_g_quad := mzero 0 0;
     cache_g_loc := mzero 0 0;
     cache_Km_sup := mzero 0 0;
     cache_Kg_sup := mzero_like (cache_Kg_sup c);
     cache_Rm_sup := mzero 0 0;
     cache_modal_M := mzero 0 0;
     cache_modal_K := mzero 0 0;
     cache_modal_R := mzero 0 0;
     cache_modal_Cq := mzero 0 0;
     cache_Hblock_K := mzero 0 0 |}.

(** What ComputeStiffnessMatrix and the later steps read: the members written
    by ComputeInertialKRMmatrix, and the size of Kg_sup. *)
Definition KRM_cache_inertial (c : KRM_cache) : KRM_cache :=
  {| cache_V := cache_V c;
     cache_O_B := cache_O_B c;
     cache_O_F := cache_O_F c;
     cache_V_acc := cache_V_acc c;
     cache_V_rmom := cache_V_rmom c;
     cache_O_thetamom := cache_O_thetamom c;
     cache_V_F1 := cache_V_F1 c;
     cache_V_F2 := cache_V_F2 c;
     cache_V_F3 := cache_V_F3 c;
     cache_M_sup := cache_M_sup c;
     cache_Ri_sup := cache_Ri_sup c;
     cache_Ki_sup := cache_Ki_sup c;
     cache_g_quad := cache_g_quad c;
     cache_g_loc := mzero 0 0;
     cache_Km_sup := mzero 0 0;
     cache_Kg_sup := mzero_like (cache_Kg_sup c);
     cache_Rm_sup := mzero 0 0;
     cache_modal_M := mzero 0 0;
     cache_modal_K := mzero 0 0;
     cache_modal_R := mzero 0 0;
     cache_modal_Cq := mzero 0 0;
     cache_Hblock_K := mzero 0 0 |}.

(** What ComputeDampingMatrix and the later steps read. *)
Definition KRM_cache_stiffness (c : KRM_cache) : KRM_cache :=
  {| cache_V := cache_V c;
     cache_O_B := cache_O_B c;
     cache_O_F := cache_O_F c;
     cache_V_acc := cache_V_acc c;
     cache_V_rmom := cache_V_rmom c;
     cache_O_thetamom := cache_O_thetamom c;
     cache_V_F1 := cache_V_F1 c;
     cache_V_F2 := cache_V_F2 c;
     cache_V_F3 := cache_V_F3 c;
     cache_M_sup := cache_M_sup c;
     cache_Ri_sup := cache_Ri_sup c;
     cache_Ki_sup := cache_Ki_sup c;
     cache_g_quad := cache_g_quad c;
     cache_g_loc := cache_g_loc c;
     cache_Km_sup := cache_Km_sup c;
     cache_Kg_sup := cache_Kg_sup c;
     cache_Rm_sup := mzero 0 0;
     cache_modal_M := mzero 0 0;
     cache_modal_K := mzero 0 0;
     cache_modal_R := mzero 0 0;
     cache_modal_Cq := mzero 0 0;
     cache_Hblock_K := mzero 0 0 |}.

(** What ComputeModalKRMmatrix and the load of the modal block read. *)
Definition KRM_cache_damping (c : KRM_cache) : KRM_cache :=
  {| cache_V := cache_V c;
     cache_O_B := cache_O_B c;
     cache_O_F := cache_O_F c;
     cache_V_acc := cache_V_acc c;
     cache_V_rmom := cache_V_rmom c;
     cache_O_thetamom := cache_O_thetamom c;
     cache_V_F1 := cache_V_F1 c;
     cache_V_F2 := cache_V_F2 c;
     cache_V_F3 := cache_V_F3 c;
     cache_M_sup := cache_M_sup c;
     cache_Ri_sup := cache_Ri_sup c;
     cache_Ki_sup := cache_Ki_sup c;
     cache_g_quad := cache_g_quad c;
     cache_g_loc := cache_g_loc c;
     cache_Km_sup := cache_Km_sup c;
     cache_Kg_sup := cache_Kg_sup c;
     cache_Rm_sup := cache_Rm_sup c;
     cache_modal_M := mzero 0 0;
     cache_modal_K := mzero 0 0;
     cache_modal_R := mzero 0 0;
     cache_modal_Cq := mzero 0 0;
     cache_Hblock_K := mzero 0 0 |}.

(** What the load of the modal block reads. *)
Definition KRM_cache_modal (c : KRM_cache) : KRM_cache :=
  {| cache_V := cache_V c;
     cache_O_B := cache_O_B c;
     cache_O_F := cache_O_F c;
     cache_V_acc := cache_V_acc c;
     cache_V_rmom := cache_V_rmom c;
     cache_O_thetamom := cache_O_thetamom c;
     cache_V_F1 := cache_V_F1 c;
     cache_V_F2 := cache_V_F2 c;
     cache_V_F3 := cache_V_F3 c;
     cache_M_sup := cache_M_sup c;
     cache_Ri_sup := cache_Ri_sup c;
     cache_Ki_sup := cache_Ki_sup c;
     cache_g_quad := cache_g_quad c;
     cache_g_loc := cache_g_loc c;
     cache_Km_sup := cache_Km_sup c;
     cache_Kg_sup := cache_Kg_sup c;
     cache_Rm_sup := cache_Rm_sup c;
     cache_modal_M := cache_modal_M c;
     cache_modal_K := cache_modal_K c;
     cache_modal_R := cache_modal_R c;
     cache_modal_Cq := cache_modal_Cq c;
     cache_Hblock_K := mzero 0 0 |}.

(** What a step leaves in the written members when it starts from the
    members [c] over the state [s]. *)
Definition KRM_step (f : ChModalAssembly -> ChModalAssembly) (c : KRM_cache)
    (s : ChModalAssembly) : KRM_cache :=
  KRM_cache_of (f (KRM_cache_write c s)).

(** The five steps of the modal branch of KRMmatricesLoad, on the written
    members. *)
Definition KRM_build (Kfactor Rfactor Mfactor : D) (c : KRM_cache)
    (s : ChModalAssembly) : KRM_cache :=
  let c := KRM_step ComputeInertialKRMmatrix c s in
  let c := KRM_step ComputeStiffnessMatrix c s in
  let c := KRM_step ComputeDampingMatrix c s in
  let c := KRM_step ComputeModalKRMmatrix c s in
  KRM_step (load_modal_Hblock Kfactor Rfactor Mfactor) c s.

(* -------------------------------------------------------------------------- *)
(*  GetSubassembly...Matrix                                                    *)
(* -------------------------------------------------------------------------- *)

(** The temporary descriptor after the three injections.  The descriptor
    holds references to the items, so it sees what is loaded into them after
    the injection: the model injects from the state as it is when
    ConvertToMatrixForm reads it. *)
Definition temp_descriptor (s : ChModalAssembly) : Descriptor :=
  InjectConstraints s (InjectKRMmatrices s (InjectVariables s empty_descriptor)).

Definition refresh (s : ChModalAssembly) : ChModalAssembly :=
  Update true (Setup (SetupInitial s)).

(** ChModalAssembly::GetSubassemblyMassMatrix(M): the assembly is changed and
    the matrix is returned. *)
Definition GetSubassemblyMassMatrix (s : ChModalAssembly) : ChModalAssembly * mat D :=
  let s := refresh s in
  let s := KRMmatricesLoad d0 d0 d1 s in
  (s, ConvertToMatrixForm_H (SetMassFactor d1 (temp_descriptor s))).

(** ChModalAssembly::GetSubassemblyStiffnessMatrix(K). *)
Definition GetSubassemblyStiffnessMatrix (s : ChModalAssembly) : ChModalAssembly * mat D :=
  let s := refresh s in
  let s := KRMmatricesLoad d1 d0 d0 s in
  (s, ConvertToMatrixForm_H (SetMassFactor d0 (temp_descriptor s))).

(** ChModalAssembly::GetSubassemblyDampingMatrix(R). *)
Definition GetSubassemblyDampingMatrix (s : ChModalAssembly) : ChModalAssembly * mat D :=
  let s := refresh s in
  let s := KRMmatricesLoad d0 d1 d0 s in
  (s, ConvertToMatrixForm_H (SetMassFactor d0 (temp_descriptor s))).

(** ChModalAssembly::GetSubassemblyConstraintJacobianMatrix(Cq). *)
Definition GetSubassemblyConstraintJacobianMatrix (s : ChModalAssembly)
    : ChModalAssembly * mat D :=
  let s := refresh s in
  let s := ConstraintsLoadJacobians s in
  (s, ConvertToMatrixForm_Cq (temp_descriptor s)).

(* -------------------------------------------------------------------------- *)
(*  ComputeLocalFullKRMmatrix                                                  *)
(* -------------------------------------------------------------------------- *)

(** The operator P_BI of ComputeLocalFullKRMmatrix: the identity with R_F
    written on translational 3x3 blocks by the two loops of the source.  Each
    loop advances its index in the body as well as in the header. *)
Definition P_BI (s : ChModalAssembly) : mat D :=
  let nBw := n_boundary_coords_w s in
  let nIw := n_internal_coords_w s in
  let P := midentity (idx (nBw + nIw)) (idx (nBw + nIw)) in
  let P :=
    for_int 0 (idiv nBw 6)
      (fun i_bou P =>
         (i_bou + 1, set_block P (idx (6 * i_bou)) (idx (6 * i_bou)) 3 3 (R_F s)))
      P in
  for_int 0 (idiv nIw 6)
    (fun i_int P =>
       (i_int + 1,
        set_block P (idx (nBw + 6 * i_int)) (idx (nBw + 6 * i_int)) 3 3 (R_F s)))
    P.

(** ChModalAssembly::ComputeLocalFullKRMmatrix. *)
Definition ComputeLocalFullKRMmatrix (s : ChModalAssembly) : ChModalAssembly :=
  let r := GetSubassemblyMassMatrix s in
  let full_M := snd r in
  let r := GetSubassemblyStiffnessMatrix (fst r) in
  let full_K := snd r in
  let r := GetSubassemblyDampingMatrix (fst r) in
  let full_R := snd r in
  let r := GetSubassemblyConstraintJacobianMatrix (fst r) in
  let full_Cq := snd r in
  let s := fst r in
  let P_BI_sp := P_BI s in
  let s := set_full_M_loc (P_BI_sp^T *m full_M *m P_BI_sp) s in
  let s := set_full_K_loc (P_BI_sp^T *m full_K *m P_BI_sp) s in
  let s := set_full_R_loc (P_BI_sp^T *m full_R *m P_BI_sp) s in
  set_full_Cq_loc (full_Cq *m P_BI_sp) s.

(* -------------------------------------------------------------------------- *)
(*  SetupModalData                                                             *)
(* -------------------------------------------------------------------------- *)

Definition variables_active (v : Variables + ChVariablesGenericDiagonalMass D) : bool :=
  match v with
  | inl v => var_IsActive v
  | inr mv => vars_IsActive mv
  end.

(** The tail of SetupModalData: a fresh set of modal variables, the block
    that couples them with the active boundary variables, and zeroed modal
    vectors. *)
Definition SetupModalData_variables (s : ChModalAssembly) : ChModalAssembly :=
  let n := n_modes_coords_w s in
  let fresh := new_ChVariablesGenericDiagonalMass n in
  let fresh :=
    Build_ChVariablesGenericDiagonalMass
      (Get_ndof fresh) (mzero_like (GetMassDiagonal fresh))
      (Get_qb fresh) (Get_fb fresh) (vars_IsActive fresh) in
  let s := set_modal_variables (Some fresh) s in
  let d := inject_all item_InjectVariables (bodylist (base s)) empty_descriptor in
  let d := inject_all item_InjectVariables (linklist (base s)) d in
  let d := inject_all item_InjectVariables (meshlist (base s)) d in
  let d := inject_all item_InjectVariables (otherphysicslist (base s)) d in
  let mvars := map inl (GetVariablesList d) ++ [inr fresh] in
  let mvars_active := filter variables_active mvars in
  let s :=
    set_modal_Hblock
      (Build_ChKblockGeneric mvars_active
         (SetVariables_K mvars_active (Get_K (modal_Hblock s)))) s in
  let s := set_modal_q (vzero (idx n)) s in
  let s := set_modal_q_dt (vzero (idx n)) s in
  let s := set_modal_q_dtdt (vzero (idx n)) s in
  let s := set_custom_F_modal (vzero (idx n)) s in
  set_custom_F_full (vzero (idx (n_boundary_coords_w s + n_internal_coords_w s))) s.

(** ChModalAssembly::SetupModalData(nmodes_reduction). *)
Definition SetupModalData (nmodes_reduction : Z) (s : ChModalAssembly)
    : ChModalAssembly :=
  let s := set_n_modes_coords_w nmodes_reduction s in
  let s := Setup s in
  let nBw := idx (n_boundary_coords_w s) in
  let nIw := idx (n_internal_coords_w s) in
  let nBM := idx (n_boundary_coords_w s + n_modes_coords_w s) in
  let n6M := idx (6 + n_modes_coords_w s) in
  let nM := idx (n_modes_coords_w s) in
  (* Initialize matrices *)
  let s := set_P_B1 (mzero nBw 6) s in
  let s := set_P_B2 (mzero nBw nBw) s in
  let s := set_P_I1 (mzero nIw 6) s in
  let s := set_P_I2 (mzero nIw nIw) s in
  let s := set_P_W (mzero nBM nBM) s in
  let s := set_Y (mzero nBM nBM) s in
  let s := set_O_B (mzero nBM nBM) s in
  let s := set_V (mzero nBM n6M) s in
  let s := set_O_F (mzero nBM nBM) s in
  let s := set_V_acc (mzero nBM n6M) s in
  let s := set_V_rmom (mzero nBM n6M) s in
  let s := set_O_thetamom (mzero nBM nBM) s in
  let s := set_V_F1 (mzero nBM n6M) s in
  let s := set_V_F2 (mzero nBM n6M) s in
  let s := set_V_F3 (mzero nBM n6M) s in
  let s := set_M_red (mzero nBM nBM) s in
  let s := set_K_red (mzero nBM nBM) s in
  let s := set_R_red (mzero nBM nBM) s in
  let s := set_Cq_red (mzero (idx (n_boundary_doc_w s)) nBM) s in
  let s := set_Km_sup (mzero nBM nBM) s in
  let s := set_Kg_sup (mzero nBM nBM) s in
  let s := set_Rm_sup (mzero nBM nBM) s in
  let s := set_M_sup (mzero nBM nBM) s in
  let s := set_Ri_sup (mzero nBM nBM) s in
  let s := set_Ki_sup (mzero nBM nBM) s in
  (* Extend the selection matrix S to U *)
  let U0 := mzero n6M nBM in
  let U0 := set_topLeftCorner U0 6 nBw (S_sel s) in
  let s := set_U (set_bottomRightCorner U0 nM nM (midentity nM nM)) s in
  let stale :=
    match modal_variables s with
    | None => true
    | Some mv => negb (Get_ndof mv =? n_modes_coords_w s)
    end in
  if stale then SetupModalData_variables s else s.

(* -------------------------------------------------------------------------- *)
(*  ComputeModesExternalData                                                   *)
(* -------------------------------------------------------------------------- *)

(** The mode set of the eigen-solver: the three members that Solve fills. *)
Definition mode_set (s : ChModalAssembly) : cmat D * cmat D * mat D :=
  (modes_V s, modes_eig s, modes_freq s).

(** The head of ComputeModesExternalData: the assembly is set up and
    updated, and the state snapshot for the analysis is fetched. *)
Definition ComputeModes_snapshot (s : ChModalAssembly) : ChModalAssembly :=
  let s := refresh s in
  (* fetch the state snapshot for this analysis *)
  let xvT :=
    IntStateGather s 0 (vzero (idx (ncoords (base s)))) 0
                   (vzero (idx (ncoords_w (base s)))) d0 in
  let s := set_modes_assembly_x0 (fst3 xvT) s in
  Setup s.

(** The tail of ComputeModesExternalData: what Solve has written into
    modes_V, modes_eig and modes_freq stays, the damping ratios are zeroed. *)
Definition ComputeModes_store (modes : cmat D * cmat D * mat D) (s : ChModalAssembly)
    : ChModalAssembly :=
  let s := set_modes_V (fst3 modes) s in
  let s := set_modes_eig (snd3 modes) s in
  let s := set_modes_freq (thd3 modes) s in
  let s := set_modes_damping_ratio (vzero (mrows (modes_freq s))) s in
  Setup s.

(** ChModalAssembly::ComputeModesExternalData(full_M, full_K, full_Cq,
    n_modes_settings), with the value it returns.  The line that would clamp
    the number of modes is a comment in the source, and the three assert
    lines on the matrix sizes are checks of debug builds only. *)
Definition ComputeModesExternalData (full_M full_K full_Cq : mat D)
    (n_modes_settings : ChModalSolveUndamped) (s : ChModalAssembly)
    : ChModalAssembly * bool :=
  let s := ComputeModes_snapshot s in
  (* SOLVE EIGENVALUE *)
  let modes := Solve n_modes_settings full_M full_K full_Cq (mode_set s) in
  let s := ComputeModes_store modes s in
  (s, true).

(* -------------------------------------------------------------------------- *)
(*  DoModalReduction                                                           *)
(* -------------------------------------------------------------------------- *)

(** K_IIc = [ K_II  Cq_II' ; Cq_II  0 ] in the local frame. *)
Definition K_IIc_loc (s : ChModalAssembly) : mat D :=
  let nBw := idx (n_boundary_coords_w s) in
  let nIw := idx (n_internal_coords_w s) in
  let K_II_loc := block (full_K_loc s) nBw nBw nIw nIw in
  let Cq_II_loc :=
    block (full_Cq_loc s) (idx (n_boundary_doc_w s)) nBw (idx (n_internal_doc_w s)) nIw in
  util_sparse_assembly_2x2symm K_II_loc Cq_II_loc.

(** The right-hand side [top; bottom], the bottom part only when there are
    internal constraints. *)
Definition stack_rhs (s : ChModalAssembly) (top bottom : mat D) : mat D :=
  let rhs := vzero (idx (n_internal_coords_w s + n_internal_doc_w s)) in
  if negb (n_internal_doc_w s =? 0)
  then comma_init rhs [top; bottom]
  else comma_init rhs [top].

(** Matrix of static modes: column i is minus the head of the solution of
    K_IIc x = [K_IB(:,i); Cq_IB(:,i)]. *)
Definition static_modes (s : ChModalAssembly) : mat D :=
  let nBw := idx (n_boundary_coords_w s) in
  let nIw := idx (n_internal_coords_w s) in
  let Cq_IB_loc :=
    block (full_Cq_loc s) (idx (n_boundary_doc_w s)) 0 (idx (n_internal_doc_w s)) nBw in
  let K_IB_loc := block (full_K_loc s) nBw 0 nIw nBw in
  for_int 0 (n_boundary_coords_w s)
    (fun i Psi_S' =>
       let rhs := stack_rhs s (col K_IB_loc (idx i)) (col Cq_IB_loc (idx i)) in
       let x := SparseQR_solve (K_IIc_loc s) rhs in
       (i, set_col Psi_S' (idx i) (mopp (head x nIw))))
    (mzero nIw nBw).

(** Matrix of dynamic modes: column i is minus the head of the solution of
    K_IIc x = [(M_IB V_B + M_II V_I)(:,i); 0]. *)
Definition dynamic_modes (s : ChModalAssembly) : mat D :=
  let nBw := idx (n_boundary_coords_w s) in
  let nIw := idx (n_internal_coords_w s) in
  let nM := idx (n_modes_coords_w s) in
  let V_B := block (re (modes_V s)) 0 0 nBw nM in
  let V_I := block (re (modes_V s)) nBw 0 nIw nM in
  let M_II_loc := block (full_M_loc s) nBw nBw nIw nIw in
  let M_IB_loc := block (full_M_loc s) nBw 0 nIw nBw in
  let rhs_top := M_IB_loc *m V_B +m M_II_loc *m V_I in
  for_int 0 (n_modes_coords_w s)
    (fun i Psi_D' =>
       let rhs := stack_rhs s (col rhs_top (idx i)) (vzero (idx (n_internal_doc_w s))) in
       let x := SparseQR_solve (K_IIc_loc s) rhs in
       (i, set_col Psi_D' (idx i) (mopp (head x nIw))))
    (mzero nIw nM).

(** Reset to zero the masses of the boundary bodies and nodes. *)
Definition zero_node_mass (node : Node) : Node :=
  let node := if is_ChNodeFEAxyz node then node_SetMass d0 node else node in
  if is_ChNodeFEAxyzrot node
  then node_Inertia_setZero (node_SetMass d0 node)
  else node.

Definition zero_mesh_mass (item : Item) : Item :=
  if is_ChMesh item then SetNodes (map zero_node_mass (GetNodes item)) item else item.

Definition zero_boundary_mass (a : ChAssembly) : ChAssembly :=
  let a := set_bodylist (map (fun body => SetInertia VNULL (SetMass d0 body)) (bodylist a)) a in
  set_meshlist (map zero_mesh_mass (meshlist a)) a.

(** ChModalAssembly::DoModalReduction(damping_model).  The locals Psi_S_C,
    Psi_S_LambdaI, Psi_D_C and Psi_D_LambdaI of the source are written and
    never read. *)
Definition DoModalReduction (damping_model : ChModalDamping) (s : ChModalAssembly)
    : ChModalAssembly :=
  let nBw := idx (n_boundary_coords_w s) in
  let nM := idx (n_modes_coords_w s) in
  let s := set_Psi_S (static_modes s) s in
  let s := set_Psi_D (dynamic_modes s) s in
  (* Psi = [ I  0 ; Psi_S  Psi_D ] *)
  let Psi0 := mzero (idx (n_boundary_coords_w s + n_internal_coords_w s))
                    (idx (n_boundary_coords_w s + n_modes_coords_w s)) in
  let s := set_Psi (comma_init Psi0 [midentity nBw nBw; mzero nBw nM; Psi_S s; Psi_D s]) s in
  (* Modal reduction of the M K matrices *)
  let s := set_M_red ((Psi s)^T *m full_M_loc s *m Psi s) s in
  let s := set_K_red ((Psi s)^T *m full_K_loc s *m Psi s) s in
  let Cq_B_loc := topRows (full_Cq_loc s) (idx (n_boundary_doc_w s)) in
  let s := set_Cq_red (Cq_B_loc *m Psi s) s in
  (* Initialize the reduced damping matrix *)
  let s := set_R_red (mzero (mrows (M_red s)) (mcols (M_red s))) s in
  let s := on_base zero_boundary_mass s in
  (* Modal reduction of R damping matrix *)
  let s := set_R_red (ComputeR damping_model s (M_red s) (K_red s) (Psi s) (R_red s)) s in
  let s := set_R_red (mzero_like (R_red s)) s in
  (* Invalidate results of the initial eigenvalue analysis *)
  let s := set_modes_damping_ratio (mzero 0 1) s in
  let s := set_modes_eig (cresize 0 1) s in
  let s := set_modes_freq (mzero 0 1) s in
  set_modes_V (cresize 0 0) s.

(* -------------------------------------------------------------------------- *)
(*  SwitchModalReductionON                                                     *)
(* -------------------------------------------------------------------------- *)

(** Modelled from the spec: SetModalMode is defined in the class header,
    which is not among the sources; the spec gives the assembly "a binary
    mode flag is_modal (full vs. reduced)", and the call is taken to set
    it. *)
Definition SetModalMode (mmodal : bool) (s : ChModalAssembly) : ChModalAssembly :=
  set_is_modal mmodal s.

(** ChModalAssembly::SwitchModalReductionON(full_M, full_K, full_Cq,
    n_modes_settings, damping_model).  The three matrix arguments are not
    read by the body. *)
Definition SwitchModalReductionON_matrices (full_M full_K full_Cq : mat D)
    (n_modes_settings : ChModalSolveUndamped) (damping_model : ChModalDamping)
    (s : ChModalAssembly) : ChModalAssembly :=
  if is_modal s then s else
  let s := refresh s in
  (* fetch the initial state of assembly, full not reduced *)
  let xvT :=
    IntStateGather s 0 (vzero (idx (ncoords (base s)))) 0
                   (vzero (idx (ncoords_w (base s)))) d0 in
  let s := set_full_assembly_x_old (fst3 xvT) s in
  let s := ComputeMassCenter s in
  let s := CpmputeSelectionMatrix s in
  let s := UpdateFloatingFrameOfReference s in
  let s := set_floating_frame_F0 (floating_frame_F s) s in
  let s := ComputeLocalFullKRMmatrix s in
  (* compute eigenvalue and eigenvectors *)
  let s :=
    fst (ComputeModesExternalData (full_M_loc s) (full_K_loc s) (full_Cq_loc s)
                                  n_modes_settings s) in
  (* bound ChVariables etc. to the modal coordinates, set as modal mode *)
  let s := SetModalMode true s in
  let s := SetupModalData (Z.of_nat (ccols (modes_V s))) s in
  let s := UpdateTransformationMatrix s in
  (* do the Herting reduction *)
  let s := DoModalReduction damping_model s in
  (* compute the modal K R M matrices *)
  let s := ComputeInertialKRMmatrix s in
  let s := ComputeStiffnessMatrix s in
  let s := ComputeDampingMatrix s in
  ComputeModalKRMmatrix s.

(** ChModalAssembly::SwitchModalReductionON(n_modes_settings, damping_model). *)
Definition SwitchModalReductionON
    (n_modes_settings : ChModalSolveUndamped) (damping_model : ChModalDamping)
    (s : ChModalAssembly) : ChModalAssembly :=
  if is_modal s then s else
  let r := GetSubassemblyMassMatrix s in
  let full_M := snd r in
  let r := GetSubassemblyStiffnessMatrix (fst r) in
  let full_K := snd r in
  let r := GetSubassemblyConstraintJacobianMatrix (fst r) in
  let full_Cq := snd r in
  let s := fst r in
  SwitchModalReductionON_matrices full_M full_K full_Cq n_modes_settings damping_model s.

(* -------------------------------------------------------------------------- *)
(*  Views of the state                                                         *)
(* -------------------------------------------------------------------------- *)

(** A loop over one of the internal lists, as Setup runs it. *)
Definition internal_loop
    (body : Item -> ChModalAssembly -> Item * ChModalAssembly)
    (get : ChModalAssembly -> list Item)
    (set : list Item -> ChModalAssembly -> ChModalAssembly)
    (s : ChModalAssembly) : ChModalAssembly :=
  set (fst (for_each body (get s) s)) (snd (for_each body (get s) s)).


(** What Setup_boundary fixes: the parent sub-object and the boundary item
    counts. *)
Definition boundary_counts (s : ChModalAssembly) : ChAssembly * (Z * Z * Z * Z) :=
  (base s,
   (n_boundary_bodies s, n_boundary_links s, n_boundary_meshes s,
    n_boundary_physicsitems s)).


(** The four internal lists, and their lengths. *)
Definition internal_lists (s : ChModalAssembly)
    : list Item * list Item * list Item * list Item :=
  (internal_bodylist s, internal_linklist s, internal_meshlist s,
   internal_otherphysicslist s).

Definition internal_sizes (s : ChModalAssembly) : nat * nat * nat * nat :=
  (length (internal_bodylist s), length (internal_linklist s),
   length (internal_meshlist s), length (internal_otherphysicslist s)).

(** The derived internal statistics and the custom force of the full
    system, as the end of the internal pass of Setup leaves them. *)
Definition internal_derived (s : ChModalAssembly) : Prop :=
  n_internal_doc s = n_internal_doc_w s + n_internal_bodies s /\
  n_internal_sysvars s = n_internal_coords s + n_internal_doc s /\
  n_internal_sysvars_w s = n_internal_coords_w s + n_internal_doc_w s /\
  n_internal_dof s = n_internal_coords_w s - n_internal_doc_w s /\
  custom_F_full s = vzero (idx (n_boundary_coords_w s + n_internal_coords_w s)).

(** The internal bodies that Setup counts: neither fixed nor sleeping. *)
Definition counted_body (body : Item) : bool :=
  negb (GetBodyFixed body) && negb (GetSleeping body).

(** The four counts of internal items. *)
Definition item_counts (s : ChModalAssembly) : Z * Z * Z * Z :=
  (n_internal_bodies s, n_internal_links s, n_internal_meshes s,
   n_internal_physicsitems s).

End Members.

(* ========================================================================== *)
(*  Part IV, continued.  More member functions, and views of the state         *)
(* ========================================================================== *)

From Stdlib Require String DecimalString.

(** The text of the exception that SetFullStateWithModeOverlay throws;
    std::to_string writes an integer in decimal. *)
Module ChException.
Import Stdlib.Strings.String.

Definition to_string (z : Z) : string :=
  DecimalString.NilEmpty.string_of_int (Z.to_int z).

Definition mode_beyond (n_mode cols : Z) : string :=
  ("Error: mode " ++ to_string n_mode ++ " is beyond the " ++ to_string cols
   ++ " computed eigenvectors.")%string.

End ChException.

(** How a member function that may throw ends. *)
Inductive outcome : Type :=
  | Returned
  | Thrown (what : String.string).

(** More of the classes around ChModalAssembly: the scatter functions of
    the parent class and of the sub-items, and sin and cos of <cmath>. *)
Class StateCollaborators (D : Type) {SD : Scalar D} {C : Collaborators D} : Type := {
  ChAssembly_IntStateScatter :
    Z -> mat D -> Z -> mat D -> D -> bool -> ChAssembly -> ChAssembly;
  ChAssembly_IntStateScatterAcceleration : Z -> mat D -> ChAssembly -> ChAssembly;
  item_IntStateScatterAcceleration : Z -> mat D -> Item -> Item;
  dsin : D -> D;
  dcos : D -> D
}.

Arguments StateCollaborators D {SD C}.

(** util_sparse_assembly_MKRloc: MKRloc = [ H_BB  H_BI ; H_IB  H_II ], sized
    by H_BB and H_II. *)
Definition util_sparse_assembly_MKRloc {D : Type} {SD : Scalar D}
    (H_BB H_BI H_IB H_II : mat D) : mat D :=
  let r_B := mrows H_BB in
  let c_B := mcols H_BB in
  let r_I := mrows H_II in
  let c_I := mcols H_II in
  let MKRloc := mzero (r_B + r_I) (c_B + c_I) in
  let MKRloc := set_block MKRloc 0 0 (mrows H_BB) (mcols H_BB) H_BB in
  let MKRloc := set_block MKRloc 0 c_B (mrows H_BI) (mcols H_BI) H_BI in
  let MKRloc := set_block MKRloc r_B 0 (mrows H_IB) (mcols H_IB) H_IB in
  set_block MKRloc r_B c_B (mrows H_II) (mcols H_II) H_II.


(** A matrix whose stored rows are the ones its dimensions announce: it is
    the table of its own coefficients.  Everything Eigen builds is so. *)
Definition well_formed {D : Type} {SD : Scalar D} (A : mat D) : Prop :=
  A = mbuild (mrows A) (mcols A) (fun i j => coef A i j).

Section MoreMembers.

Context {D : Type} {SD : Scalar D} {C : Collaborators D} {E : Surroundings D}.

(** The state [s] with the members that Setup writes taken from [r]: the
    parent sub-object, the internal items, the boundary and the internal
    statistics, and the two custom forces. *)
Definition Setup_write (r s : ChModalAssembly) : ChModalAssembly :=
  let s := set_base (base r) s in
  let s := set_internal_bodylist (internal_bodylist r) s in
  let s := set_internal_linklist (internal_linklist r) s in
  let s := set_internal_meshlist (internal_meshlist r) s in
  let s := set_internal_otherphysicslist (internal_otherphysicslist r) s in
  let s := set_n_boundary_bodies (n_boundary_bodies r) s in
  let s := set_n_boundary_links (n_boundary_links r) s in
  let s := set_n_boundary_meshes (n_boundary_meshes r) s in
  let s := set_n_boundary_physicsitems (n_boundary_physicsitems r) s in
  let s := set_n_boundary_coords (n_boundary_coords r) s in
  let s := set_n_boundary_coords_w (n_boundary_coords_w r) s in
  let s := set_n_boundary_doc (n_boundary_doc r) s in
  let s := set_n_boundary_doc_w (n_boundary_doc_w r) s in
  let s := set_n_boundary_doc_w_C (n_boundary_doc_w_C r) s in
  let s := set_n_boundary_doc_w_D (n_boundary_doc_w_D r) s in
  let s := set_n_boundary_sysvars (n_boundary_sysvars r) s in
  let s := set_n_boundary_sysvars_w (n_boundary_sysvars_w r) s in
  let s := set_n_boundary_dof (n_boundary_dof r) s in
  let s := set_n_internal_bodies (n_internal_bodies r) s in
  let s := set_n_internal_links (n_internal_links r) s in
  let s := set_n_internal_meshes (n_internal_meshes r) s in
  let s := set_n_internal_physicsitems (n_internal_physicsitems r) s in
  let s := set_n_internal_coords (n_internal_coords r) s in
  let s := set_n_internal_coords_w (n_internal_coords_w r) s in
  let s := set_n_internal_doc (n_internal_doc r) s in
  let s := set_n_internal_doc_w (n_internal_doc_w r) s in
  let s := set_n_internal_doc_w_C (n_internal_doc_w_C r) s in
  let s := set_n_internal_doc_w_D (n_internal_doc_w_D r) s in
  let s := set_n_internal_sysvars (n_internal_sysvars r) s in
  let s := set_n_internal_sysvars_w (n_internal_sysvars_w r) s in
  let s := set_n_internal_dof (n_internal_dof r) s in
  let s := set_custom_F_full (custom_F_full r) s in
  set_custom_F_modal (custom_F_modal r) s.

(** The state [s] with the members that SetInternalStateWithModes writes
    taken from [r]: the internal items and the old full state. *)
Definition internal_state_write (r s : ChModalAssembly) : ChModalAssembly :=
  let s := set_internal_bodylist (internal_bodylist r) s in
  let s := set_internal_meshlist (internal_meshlist r) s in
  let s := set_internal_linklist (internal_linklist r) s in
  let s := set_internal_otherphysicslist (internal_otherphysicslist r) s in
  set_full_assembly_x_old (full_assembly_x_old r) s.

(** The modal matrices agree with the blocks they are summed from. *)
Definition modal_consistent (s : ChModalAssembly) : Prop :=
  modal_M s = M_sup s /\
  modal_K s = madd (madd (Km_sup s) (Kg_sup s)) (Ki_sup s) /\
  modal_R s = madd (Rm_sup s) (Ri_sup s) /\
  modal_Cq s = mmul (Cq_red s) (mtranspose (P_W s)).

(** The reduced state: the mode flag, the parent sub-object, the counts that
    place the modal coordinates, and the modal coordinates with their speeds
    and accelerations. *)
Definition reduced_state (s : ChModalAssembly)
    : bool * ChAssembly * (Z * Z * Z) * (mat D * mat D * mat D) :=
  (is_modal s, base s,
   (n_boundary_coords s, n_boundary_coords_w s, n_modes_coords_w s),
   (modal_q s, modal_q_dt s, modal_q_dtdt s)).

(** The state [s] with the members that Update may write taken from [r]:
    the parent sub-object, the internal items, the old full state, the two
    custom forces, the mass center, the floating frame with R_F and wloc_F,
    and the transformation matrices. *)
Definition Update_write (r s : ChModalAssembly) : ChModalAssembly :=
  let s := set_base (base r) s in
  let s := set_internal_bodylist (internal_bodylist r) s in
  let s := set_internal_linklist (internal_linklist r) s in
  let s := set_internal_meshlist (internal_meshlist r) s in
  let s := set_internal_otherphysicslist (internal_otherphysicslist r) s in
  let s := set_full_assembly_x_old (full_assembly_x_old r) s in
  let s := set_custom_F_modal (custom_F_modal r) s in
  let s := set_custom_F_full (custom_F_full r) s in
  let s := set_com_x (com_x r) s in
  let s := set_floating_frame_F (floating_frame_F r) s in
  let s := set_R_F (R_F r) s in
  let s := set_wloc_F (wloc_F r) s in
  let s := set_P_B1 (P_B1 r) s in
  let s := set_P_B2 (P_B2 r) s in
  let s := set_P_I1 (P_I1 r) s in
  let s := set_P_I2 (P_I2 r) s in
  let s := set_P_W (P_W r) s in
  set_Y (Y r) s.

Section StateProtocol.

Context {P : StateCollaborators D}.

(** An internal item's share of a scatter of accelerations. *)
Definition scatter_acceleration_item (test_active : bool) (displ_a : Z) (a : mat D)
    (item : Item) : Item :=
  if negb test_active || IsActive item
  then item_IntStateScatterAcceleration (u32 (displ_a + GetOffset_w item)) a item
  else item.

(** The modal branch of IntStateScatter, behind the call of the parent. *)
Definition IntStateScatter_modal (off_x : Z) (x : mat D) (off_v : Z) (v : mat D)
    (full_update : bool) (s : ChModalAssembly) : ChModalAssembly :=
  let s := set_modal_q (segment x (idx (u32 (off_x + n_boundary_coords s)))
                                (idx (n_modes_coords_w s))) s in
  let s := set_modal_q_dt (segment v (idx (u32 (off_v + n_boundary_coords_w s)))
                                   (idx (n_modes_coords_w s))) s in
  let s := if internal_nodes_update s
           then SetInternalStateWithModes full_update s
           else s in
  let s := run_modal_callback s in
  run_full_callback s.

(** ChModalAssembly::IntStateScatter(off_x, x, off_v, v, T, full_update). *)
Definition IntStateScatter (off_x : Z) (x : mat D) (off_v : Z) (v : mat D) (T : D)
    (full_update : bool) (s : ChModalAssembly) : ChModalAssembly :=
  let s := on_base (ChAssembly_IntStateScatter off_x x off_v v T full_update) s in
  let displ_x := u32 (off_x - offset_x (base s)) in
  let displ_v := u32 (off_v - offset_w (base s)) in
  if negb (is_modal s) then
    let s := set_internal_bodylist
               (map (scatter_item true displ_x displ_v x v T full_update)
                    (internal_bodylist s)) s in
    let s := set_internal_meshlist
               (map (scatter_item false displ_x displ_v x v T full_update)
                    (internal_meshlist s)) s in
    let s := set_internal_linklist
               (map (scatter_item true displ_x displ_v x v T full_update)
                    (internal_linklist s)) s in
    let s := set_internal_otherphysicslist
               (map (scatter_item false displ_x displ_v x v T full_update)
                    (internal_otherphysicslist s)) s in
    run_full_callback s
  else IntStateScatter_modal off_x x off_v v full_update s.

(** ChModalAssembly::IntStateScatterAcceleration(off_a, a). *)
Definition IntStateScatterAcceleration (off_a : Z) (a : mat D) (s : ChModalAssembly)
    : ChModalAssembly :=
  let s := on_base (ChAssembly_IntStateScatterAcceleration off_a a) s in
  let displ_a := u32 (off_a - offset_w (base s)) in
  if negb (is_modal s) then
    let s := set_internal_bodylist
               (map (scatter_acceleration_item true displ_a a) (internal_bodylist s)) s in
    let s := set_internal_linklist
               (map (scatter_acceleration_item true displ_a a) (internal_linklist s)) s in
    let s := set_internal_meshlist
               (map (scatter_acceleration_item false displ_a a) (internal_meshlist s)) s in
    set_internal_otherphysicslist
      (map (scatter_acceleration_item false displ_a a) (internal_otherphysicslist s)) s
  else
    set_modal_q_dtdt (segment a (idx (u32 (off_a + n_boundary_coords_w s)))
                              (idx (n_modes_coords_w s))) s.

(** The increment of SetFullStateWithModeOverlay in the original basis: the
    translational part of every node turned by R_F, the rotational part
    copied. *)
Definition overlay_increment (s : ChModalAssembly) (assembly_Dx_loc : mat D) : mat D :=
  for_int 0 (idiv (ncoords_w (base s)) 6)
    (fun i assembly_Dx =>
       let assembly_Dx :=
         set_segment assembly_Dx (idx (6 * i)) 3
                     (mmul (R_F s) (segment assembly_Dx_loc (idx (6 * i)) 3)) in
       let assembly_Dx :=
         set_segment assembly_Dx (idx (6 * i + 3)) 3
                     (segment assembly_Dx_loc (idx (6 * i + 3)) 3) in
       (i, assembly_Dx))
    (vzero (idx (ncoords_w (base s)))).

(** ChModalAssembly::SetFullStateWithModeOverlay(n_mode, phase, amplitude),
    with the way it ends. *)
Definition SetFullStateWithModeOverlay (n_mode : Z) (phase amplitude : D)
    (s : ChModalAssembly) : ChModalAssembly * outcome :=
  if n_mode >=? Z.of_nat (ccols (modes_V s)) then
    let s := Update true s in
    (s, Thrown (ChException.mode_beyond n_mode (Z.of_nat (ccols (modes_V s)))))
  else if negb (Z.of_nat (crows (modes_V s)) =? ncoords_w (base s)) then
    (Update true s, Returned)
  else
    let assembly_x_new := vzero (idx (ncoords (base s))) in
    let assembly_v := vzero (idx (ncoords_w (base s))) in
    (* pick the nth eigenvector in local reference F *)
    let assembly_Dx_loc :=
      madd (mscale_l (dmul (dsin phase) amplitude) (col (re (modes_V s)) (idx n_mode)))
           (mscale_l (dmul (dcos phase) amplitude) (col (im (modes_V s)) (idx n_mode))) in
    let assembly_Dx := overlay_increment s assembly_Dx_loc in
    let assembly_x_new :=
      IntStateIncrement s 0 assembly_x_new (modes_assembly_x0 s) 0 assembly_Dx in
    let s := IntStateScatter 0 assembly_x_new 0 assembly_v d0 true s in
    (Update true s, Returned).

End StateProtocol.

End MoreMembers.

(* ========================================================================== *)
(*  Part IV, continued.  The reconstruction of the internal state, as it is    *)
(*  documented                                                                *)
(* ========================================================================== *)

(** The quantities that the documentation of the state mapper and the
    comments of SetInternalStateWithModes name, written from their words over
    the operations of the collaborators and of Eigen alone: no member
    function of the class occurs in them.  SetInternalStateWithModes is
    compared with them in Part VI. *)
Module Reconstruction.

Section Documented.

Context {D : Type} {SD : Scalar D} {C : Collaborators D} {E : Surroundings D}.

Variable s : ChModalAssembly.

(** What the parent assembly gathers from the boundary items into zeroed
    vectors of the reduced size. *)
Definition gathered : mat D * mat D * D :=
  ChAssembly_IntStateGather (base s) 0
    (vzero (idx (n_boundary_coords s + n_modes_coords_w s))) 0
    (vzero (idx (n_boundary_coords_w s + n_modes_coords_w s))) d0.

(** x_mod = [qB; eta]: the coordinates of the boundary items with the modal
    amplitudes behind them. *)
Definition x_mod : mat D :=
  set_segment (fst3 gathered) (idx (n_boundary_coords s)) (idx (n_modes_coords_w s))
              (modal_q s).

(** v_mod = [qB_dt; eta_dt]. *)
Definition v_mod : mat D :=
  set_segment (snd3 gathered) (idx (n_boundary_coords_w s)) (idx (n_modes_coords_w s))
              (modal_q_dt s).

(** x0_mod = [qB_old; 0]: the boundary part of the stored old full state,
    and no modal amplitude. *)
Definition x0_mod : mat D :=
  set_segment (vzero (idx (n_boundary_coords s + n_modes_coords_w s)))
              0 (idx (n_boundary_coords s))
              (segment (full_assembly_x_old s) 0 (idx (n_boundary_coords s))).

(** [Delta_x_boundary; Delta_eta]: the increment from x0_mod to x_mod.  The
    boundary part is the increment of the boundary items as the parent
    assembly measures it (delta_qB = qB - qB_old); the modal part is the
    difference of the modal amplitudes (delta_eta = eta - 0). *)
Definition Delta_reduced : mat D :=
  set_segment
    (ChAssembly_IntStateGetIncrement (base s) 0 x_mod x0_mod 0
       (vzero (idx (n_boundary_coords_w s + n_modes_coords_w s))))
    (idx (n_boundary_coords_w s)) (idx (n_modes_coords_w s))
    (msub (segment x_mod (idx (n_boundary_coords s)) (idx (n_modes_coords_w s)))
          (segment x0_mod (idx (n_boundary_coords s)) (idx (n_modes_coords_w s)))).

Definition Delta_x_boundary : mat D :=
  segment Delta_reduced 0 (idx (n_boundary_coords_w s)).

Definition Delta_eta : mat D :=
  segment Delta_reduced (idx (n_boundary_coords_w s)) (idx (n_modes_coords_w s)).

(** The internal part that belongs to a boundary part [w_B] and a modal part
    [w_eta], with every product taken from the left:
    P_I2 * Psi_S * P_B2' * w_B + P_I2 * Psi_D * w_eta. *)
Definition recovered (w_B w_eta : mat D) : mat D :=
  madd (mmul (mmul (mmul (P_I2 s) (Psi_S s)) (mtranspose (P_B2 s))) w_B)
       (mmul (mmul (P_I2 s) (Psi_D s)) w_eta).


Definition Delta_x_internal : mat D := recovered Delta_x_boundary Delta_eta.


(** A full vector [w_B; w_I]. *)
Definition stacked (w_B w_I : mat D) : mat D :=
  set_segment
    (set_segment (vzero (idx (n_boundary_coords_w s + n_internal_coords_w s)))
                 0 (idx (n_boundary_coords_w s)) w_B)
    (idx (n_boundary_coords_w s)) (idx (n_internal_coords_w s)) w_I.

(** assembly_Dx = [delta_qB; delta_qI]. *)
Definition assembly_Dx : mat D := stacked Delta_x_boundary Delta_x_internal.

(** assembly_v = [qB_dt; qI_dt]: the internal speeds are recovered from the
    reduced ones as the internal increment is. *)
Definition assembly_v : mat D :=
  stacked (segment v_mod 0 (idx (n_boundary_coords_w s)))
          (recovered (segment v_mod 0 (idx (n_boundary_coords_w s)))
                     (segment v_mod (idx (n_boundary_coords_w s))
                              (idx (n_modes_coords_w s)))).

(** The place of an internal item in the vectors of the assembly: its own
    offset less the offset of the assembly, in unsigned arithmetic. *)
Definition place_x (item : Item) : Z := u32 (GetOffset_x item - offset_x (base s)).
Definition place_w (item : Item) : Z := u32 (GetOffset_w item - offset_w (base s)).

(** An internal item advances its part of the old full state by its part of
    the increment [Dx]; an inactive body or link is passed over. *)
Definition advanced (Dx x_new : mat D) (item : Item) : mat D :=
  item_IntStateIncrement item (place_x item) x_new (full_assembly_x_old s)
                         (place_w item) Dx.

Definition advanced_if_active (Dx x_new : mat D) (item : Item) : mat D :=
  if IsActive item then advanced Dx x_new item else x_new.

(** assembly_x_new = [qB_new; qI_new], the reconstructed state: the old full
    state advanced by assembly_Dx with the assembly demoted to full mode, by
    the parent for the boundary items and then by the internal bodies, links,
    meshes and other items in turn. *)
Definition assembly_x_new : mat D :=
  let x :=
    ChAssembly_IntStateIncrement (base s) 0
      (vzero (idx (n_boundary_coords s + n_internal_coords s)))
      (full_assembly_x_old s) 0 assembly_Dx in
  let x := fold_left (advanced_if_active assembly_Dx) (internal_bodylist s) x in
  let x := fold_left (advanced_if_active assembly_Dx) (internal_linklist s) x in
  let x := fold_left (advanced assembly_Dx) (internal_meshlist s) x in
  fold_left (advanced assembly_Dx) (internal_otherphysicslist s) x.



End Documented.

End Reconstruction.

(* ========================================================================== *)
(*  Part V.  A concrete instance over the integers                             *)
(* ========================================================================== *)

(** Small integers are exact in [double]; the instance runs the member
    functions on them.  Division is the truncating one. *)
#[export] Instance Z_Scalar : Scalar Z := {|
  d0 := 0;
  d1 := 1;
  dadd := Z.add;
  dsub := Z.sub;
  dmul := Z.mul;
  ddiv := Z.quot;
  dopp := Z.opp;
  dnonzero := fun x => negb (x =? 0)
|}.

(** A matrix from its rows. *)
Definition mat_of_rows (rows : list (list Z)) : mat Z :=
  mbuild (length rows) (length (nth 0 rows []))
    (fun i j => nth j (nth i rows []) 0).

(** A mesh node: its kind, position and mass. *)
Record ZNode : Type := {
  zn_xyzrot : bool;
  zn_pos : mat Z;
  zn_mass : Z
}.

(** A sub-item that keeps its own coordinates [zi_x], speeds [zi_v] and
    accelerations [zi_a] and copies them from and to the system vectors. *)
Record ZItem : Type := {
  zi_fixed : bool;
  zi_sleeping : bool;
  zi_active : bool;
  zi_offset_x : Z;
  zi_offset_w : Z;
  zi_offset_L : Z;
  zi_DOF : Z;
  zi_DOF_w : Z;
  zi_DOC : Z;
  zi_mass : Z;
  zi_x : mat Z;
  zi_v : mat Z;
  zi_a : mat Z;
  zi_nodes : option (list ZNode)
}.

Definition eta_ZItem (r : ZItem) : ZItem :=
  Build_ZItem (zi_fixed r) (zi_sleeping r) (zi_active r)
    (zi_offset_x r) (zi_offset_w r) (zi_offset_L r)
    (zi_DOF r) (zi_DOF_w r) (zi_DOC r) (zi_mass r)
    (zi_x r) (zi_v r) (zi_a r) (zi_nodes r).

Definition set_zi_offset_x : Z -> ZItem -> ZItem :=
  ltac:(gen_setter eta_ZItem zi_offset_x).
Definition set_zi_offset_w : Z -> ZItem -> ZItem :=
  ltac:(gen_setter eta_ZItem zi_offset_w).
Definition set_zi_offset_L : Z -> ZItem -> ZItem :=
  ltac:(gen_setter eta_ZItem zi_offset_L).
Definition set_zi_mass : Z -> ZItem -> ZItem :=
  ltac:(gen_setter eta_ZItem zi_mass).
Definition set_zi_x : mat Z -> ZItem -> ZItem :=
  ltac:(gen_setter eta_ZItem zi_x).
Definition set_zi_v : mat Z -> ZItem -> ZItem :=
  ltac:(gen_setter eta_ZItem zi_v).
Definition set_zi_nodes : option (list ZNode) -> ZItem -> ZItem :=
  ltac:(gen_setter eta_ZItem zi_nodes).

(** A moving frame as the six vectors it is set from. *)
Record ZFrame : Type := {
  zf_pos : mat Z;
  zf_rot : mat Z;
  zf_pos_dt : mat Z;
  zf_wvel_loc : mat Z;
  zf_pos_dtdt : mat Z;
  zf_wacc_loc : mat Z
}.

(** The cross-product matrix of a 3-vector. *)
Definition Z_star (v : mat Z) : mat Z :=
  let x := coef v 0 0 in
  let y := coef v 1 0 in
  let z := coef v 2 0 in
  mat_of_rows [[0; - z; y]; [z; 0; - x]; [- y; x; 0]].

(** The rotation matrix of a quaternion (e0, e1, e2, e3). *)
Definition Z_quat_matrix (q : mat Z) : mat Z :=
  let e0 := coef q 0 0 in
  let e1 := coef q 1 0 in
  let e2 := coef q 2 0 in
  let e3 := coef q 3 0 in
  mat_of_rows
    [[e0 * e0 + e1 * e1 - e2 * e2 - e3 * e3; 2 * (e1 * e2 - e0 * e3); 2 * (e1 * e3 + e0 * e2)];
     [2 * (e1 * e2 + e0 * e3); e0 * e0 - e1 * e1 + e2 * e2 - e3 * e3; 2 * (e2 * e3 - e0 * e1)];
     [2 * (e1 * e3 - e0 * e2); 2 * (e2 * e3 + e0 * e1); e0 * e0 - e1 * e1 - e2 * e2 + e3 * e3]].

(** A solve for diagonal systems: x_i = b_i / K_ii, and 0 where K_ii = 0
    (the least-norm answer for a singular diagonal matrix). *)
Definition Z_diagonal_solve (K b : mat Z) : mat Z :=
  mbuild (mcols K) 1
    (fun i _ => if coef K i i =? 0 then 0 else Z.quot (coef b i 0) (coef K i i)).

(** An eigen-solver stand-in whose settings are the number of modes asked
    for: it returns that many zero modes of the size of M.  It only serves to
    build reduced example states; nothing about the real solver is read off
    it. *)
Definition Z_Solve (n_modes : Z) (M K Cq : mat Z)
    (old : cmat Z * cmat Z * mat Z) : cmat Z * cmat Z * mat Z :=
  (cresize (mrows M) (idx n_modes), cresize (idx n_modes) 1, vzero (idx n_modes)).

Definition Z_gather (it : ZItem) (off_x : Z) (x : mat Z) (off_v : Z) (v : mat Z)
    (T : Z) : mat Z * mat Z * Z :=
  (set_segment x (idx off_x) (idx (zi_DOF it)) (zi_x it),
   set_segment v (idx off_v) (idx (zi_DOF_w it)) (zi_v it), T).

Definition Z_scatter (off_x : Z) (x : mat Z) (off_v : Z) (v : mat Z) (T : Z)
    (full_update : bool) (it : ZItem) : ZItem :=
  set_zi_v (segment v (idx off_v) (idx (zi_DOF_w it)))
    (set_zi_x (segment x (idx off_x) (idx (zi_DOF it))) it).

Definition Z_increment (it : ZItem) (off_x : Z) (x_new x : mat Z) (off_v : Z)
    (Dv : mat Z) : mat Z :=
  set_segment x_new (idx off_x) (idx (zi_DOF it))
    (madd (segment x (idx off_x) (idx (zi_DOF it)))
          (segment Dv (idx off_v) (idx (zi_DOF it)))).

Definition Z_get_increment (it : ZItem) (off_x : Z) (x_new x : mat Z) (off_v : Z)
    (Dv : mat Z) : mat Z :=
  set_segment Dv (idx off_v) (idx (zi_DOF_w it))
    (msub (segment x_new (idx off_x) (idx (zi_DOF_w it)))
          (segment x (idx off_x) (idx (zi_DOF_w it)))).

Definition Z_mass_properties (nodes : list ZNode) (elements : list unit)
    : Z * mat Z * mat Z :=
  let m := fold_left (fun m n => m + zn_mass n) nodes 0 in
  let r := fold_left (fun r n => madd r (mscale_l (zn_mass n) (zn_pos n))) nodes (vzero 3) in
  (m, (if m =? 0 then vzero 3 else mdiv_r r m), mzero 3 3).

#[export] Instance Z_Collaborators : Collaborators Z := {|
  Item := ZItem;
  Node := ZNode;
  Element := unit;
  Frame := ZFrame;
  Descriptor := unit;
  Variables := unit;
  ChModalSolveUndamped := Z;
  ChModalDamping := Z * Z;
  CustomForceModalCallback := unit;
  CustomForceFullCallback := unit;
  GetBodyFixed := zi_fixed;
  GetSleeping := zi_sleeping;
  IsActive := zi_active;
  SetOffset_x := set_zi_offset_x;
  SetOffset_w := set_zi_offset_w;
  SetOffset_L := set_zi_offset_L;
  GetOffset_x := zi_offset_x;
  GetOffset_w := zi_offset_w;
  GetOffset_L := zi_offset_L;
  GetDOF := zi_DOF;
  GetDOF_w := zi_DOF_w;
  GetDOC := zi_DOC;
  GetDOC_c := zi_DOC;
  GetDOC_d := fun _ => 0;
  item_SetupInitial := fun it => it;
  item_Setup := fun it => it;
  item_Update := fun _ _ it => it;
  item_IntStateGather := Z_gather;
  item_IntStateScatter := Z_scatter;
  item_IntStateGatherAcceleration :=
    fun it off_a a => set_segment a (idx off_a) (idx (zi_DOF_w it)) (zi_a it);
  item_IntStateIncrement := Z_increment;
  item_IntStateGetIncrement := Z_get_increment;
  item_KRMmatricesLoad := fun _ _ _ it => it;
  item_ConstraintsLoadJacobians := fun it => it;
  item_InjectVariables := fun _ d => d;
  item_InjectKRMmatrices := fun _ d => d;
  item_InjectConstraints := fun _ d => d;
  GetMass := zi_mass;
  GetPos := fun it => segment (zi_x it) 0 3;
  GetRot := fun it => segment (zi_x it) 3 4;
  GetPos_dt := fun it => segment (zi_v it) 0 3;
  GetWvel_loc := fun it => segment (zi_v it) 3 3;
  GetPos_dtdt := fun it => segment (zi_a it) 0 3;
  GetWacc_loc := fun it => segment (zi_a it) 3 3;
  SetMass := set_zi_mass;
  SetInertia := fun _ it => it;
  is_ChMesh := fun it => match zi_nodes it with Some _ => true | None => false end;
  GetNodes := fun it => match zi_nodes it with Some ns => ns | None => [] end;
  SetNodes := fun ns it => set_zi_nodes (Some ns) it;
  GetElements := fun _ => [];
  GetNnodes :=
    fun it => match zi_nodes it with Some ns => Z.of_nat (length ns) | None => 0 end;
  ComputeMassProperties := Z_mass_properties;
  is_ChNodeFEAxyz := fun n => negb (zn_xyzrot n);
  is_ChNodeFEAxyzrot := zn_xyzrot;
  node_GetPos := zn_pos;
  node_GetRot := fun _ => mat_of_rows [[1]; [0]; [0]; [0]];
  node_GetPos_dt := fun _ => vzero 3;
  node_GetWvel_loc := fun _ => vzero 3;
  node_GetPos_dtdt := fun _ => vzero 3;
  node_GetWacc_loc := fun _ => vzero 3;
  node_SetMass := fun m n => Build_ZNode (zn_xyzrot n) (zn_pos n) m;
  node_Inertia_setZero := fun n => n;
  frame_SetPos := fun v f =>
    Build_ZFrame v (zf_rot f) (zf_pos_dt f) (zf_wvel_loc f) (zf_pos_dtdt f) (zf_wacc_loc f);
  frame_SetRot := fun q f =>
    Build_ZFrame (zf_pos f) q (zf_pos_dt f) (zf_wvel_loc f) (zf_pos_dtdt f) (zf_wacc_loc f);
  frame_SetPos_dt := fun v f =>
    Build_ZFrame (zf_pos f) (zf_rot f) v (zf_wvel_loc f) (zf_pos_dtdt f) (zf_wacc_loc f);
  frame_SetWvel_loc := fun v f =>
    Build_ZFrame (zf_pos f) (zf_rot f) (zf_pos_dt f) v (zf_pos_dtdt f) (zf_wacc_loc f);
  frame_SetPos_dtdt := fun v f =>
    Build_ZFrame (zf_pos f) (zf_rot f) (zf_pos_dt f) (zf_wvel_loc f) v (zf_wacc_loc f);
  frame_SetWacc_loc := fun v f =>
    Build_ZFrame (zf_pos f) (zf_rot f) (zf_pos_dt f) (zf_wvel_loc f) (zf_pos_dtdt f) v;
  frame_GetA := fun f => Z_quat_matrix (zf_rot f);
  frame_GetPos := zf_pos;
  frame_GetRot := zf_rot;
  frame_GetWvel_loc := zf_wvel_loc;
  ChStarMatrix33 := Z_star;
  ChMatrix33_of_quat := Z_quat_matrix;
  ChMatrix33_of_scalar := fun x => mat_of_rows [[x; 0; 0]; [0; x; 0]; [0; 0; x]];
  VNULL := vzero 3;
  Q_to_Rotv := fun q => segment q 1 3;
  Q_from_Rotv := fun v => mat_of_rows [[1]; [coef v 0 0]; [coef v 1 0]; [coef v 2 0]];
  SparseQR_solve := Z_diagonal_solve;
  colPivHouseholderQr_solve := Z_diagonal_solve;
  Solve := Z_Solve;
  empty_descriptor := tt;
  GetVariablesList := fun _ => [];
  var_IsActive := fun _ => true;
  SetMassFactor := fun _ d => d;
  ConvertToMatrixForm_Cq := fun _ => mzero 0 0;
  ConvertToMatrixForm_H := fun _ => mzero 0 0;
  new_ChVariablesGenericDiagonalMass :=
    fun n => Build_ChVariablesGenericDiagonalMass n (vzero (idx n)) (vzero (idx n))
                                                   (vzero (idx n)) true;
  InsertVariables := fun _ d => d;
  SetVariables_K := fun _ K => K;
  InsertKblock := fun _ _ d => d
|}.

(** The parent class over [ZItem]s: Setup places the boundary items one
    behind the other and counts them; the gathers and increments visit the
    active boundary items. *)
Definition Z_place (ox ow oL : Z) (counted : ZItem -> bool) (it : ZItem)
    (acc : Z * Z * Z) : ZItem * (Z * Z * Z) :=
  let '(cx, cw, cL) := acc in
  if counted it
  then (set_zi_offset_L (u32 (oL + cL))
          (set_zi_offset_w (u32 (ow + cw)) (set_zi_offset_x (u32 (ox + cx)) it)),
        (cx + zi_DOF it, cw + zi_DOF_w it, cL + zi_DOC it))
  else (it, acc).

Definition Z_body_counted (it : ZItem) : bool :=
  negb (zi_fixed it) && negb (zi_sleeping it).

Definition Z_count (counted : ZItem -> bool) (l : list ZItem) : Z :=
  Z.of_nat (length (filter counted l)).

Definition Z_ChAssembly_Setup (a : ChAssembly) : ChAssembly :=
  let place := Z_place (offset_x a) (offset_w a) (offset_L a) in
  let '(bodies, acc) := for_each (place Z_body_counted) (bodylist a) (0, 0, 0) in
  let '(links, acc) := for_each (place zi_active) (linklist a) acc in
  let '(meshes, acc) := for_each (place (fun _ => true)) (meshlist a) acc in
  let '(others, acc) := for_each (place (fun _ => true)) (otherphysicslist a) acc in
  let '(cx, cw, cL) := acc in
  let nb := Z_count Z_body_counted bodies in
  Build_ChAssembly bodies links meshes others
    nb (Z_count zi_active links) (Z.of_nat (length meshes)) (Z.of_nat (length others))
    cx cw (cL + nb) cL cL 0
    (cx + (cL + nb)) (cw + cL) (cw - cL)
    (offset_x a) (offset_w a) (offset_L a) (ChTime a).

Definition Z_boundary_items (a : ChAssembly) : list ZItem :=
  filter zi_active (bodylist a ++ linklist a ++ meshlist a ++ otherphysicslist a).

Definition Z_ChAssembly_IntStateGather (a : ChAssembly) (off_x : Z) (x : mat Z)
    (off_v : Z) (v : mat Z) (T : Z) : mat Z * mat Z * Z :=
  let '(x, v, _) :=
    fold_left
      (fun (xvT : mat Z * mat Z * Z) it =>
         let '(x, v, T) := xvT in
         Z_gather it (u32 (off_x - offset_x a + zi_offset_x it)) x
                  (u32 (off_v - offset_w a + zi_offset_w it)) v T)
      (Z_boundary_items a) (x, v, T) in
  (x, v, ChTime a).

#[export] Instance Z_Surroundings : Surroundings Z := {|
  ChAssembly_SetupInitial := fun a => a;
  ChAssembly_Setup := Z_ChAssembly_Setup;
  ChAssembly_Update := fun _ a => a;
  ChAssembly_IntStateGather := Z_ChAssembly_IntStateGather;
  ChAssembly_IntStateGatherAcceleration :=
    fun a off_a acc =>
      fold_left
        (fun acc it =>
           set_segment acc (idx (u32 (off_a - offset_w a + zi_offset_w it)))
                       (idx (zi_DOF_w it)) (zi_a it))
        (Z_boundary_items a) acc;
  ChAssembly_IntStateIncrement :=
    fun a off_x x_new x off_v Dv =>
      fold_left
        (fun x_new it =>
           Z_increment it (u32 (off_x - offset_x a + zi_offset_x it)) x_new x
                       (u32 (off_v - offset_w a + zi_offset_w it)) Dv)
        (Z_boundary_items a) x_new;
  ChAssembly_IntStateGetIncrement :=
    fun a off_x x_new x off_v Dv =>
      fold_left
        (fun Dv it =>
           Z_get_increment it (u32 (off_x - offset_x a + zi_offset_x it)) x_new x
                           (u32 (off_v - offset_w a + zi_offset_w it)) Dv)
        (Z_boundary_items a) Dv;
  ChAssembly_KRMmatricesLoad := fun _ _ _ a => a;
  ChAssembly_ConstraintsLoadJacobians := fun a => a;
  ChAssembly_InjectVariables := fun _ d => d;
  ChAssembly_InjectKRMmatrices := fun _ d => d;
  ChAssembly_InjectConstraints := fun _ d => d;
  (* proportional damping alpha * M + beta * K *)
  ComputeR := fun damping _ M K _ _ =>
    madd (mscale_l (fst damping) M) (mscale_l (snd damping) K);
  evaluate_modal := fun _ F _ => F;
  evaluate_full := fun _ F _ => F
|}.

(** The assembly as its constructor leaves it: no items, empty matrices,
    full mode, internal nodes updated. *)
Definition Z_empty_ChAssembly : ChAssembly :=
  Build_ChAssembly [] [] [] [] 0 0 0 0 0 0 0 0 0 0 0 0 0 0 0 0 0.

Definition Z_frame0 : ZFrame :=
  Build_ZFrame (vzero 3) (mat_of_rows [[1]; [0]; [0]; [0]])
               (vzero 3) (vzero 3) (vzero 3) (vzero 3).

Definition Z_new_assembly : ChModalAssembly :=
  let e : mat Z := mzero 0 0 in
  let ce : cmat Z := cresize 0 0 in
  Build_ChModalAssembly
    Z_empty_ChAssembly
    [] [] [] []
    0 0 0 0 0 0 0 0 0 0 0 0 0
    0 0 0 0 0 0 0 0 0 0 0 0 0
    0 false true
    None (Build_ChKblockGeneric [] e)
    e e e e e None None
    e e
    ce ce e e
    e e Z_frame0 Z_frame0 e e
    e e e e e e e
    e e e e
    e e e e e e e
    e e e e e e e e e e e e e e e e e
    e e e e.

(** A free item with [n] coordinates of value [x0] each. *)
Definition Z_item (fixed : bool) (n : Z) (x0 : Z) : ZItem :=
  Build_ZItem fixed false true 99 99 99 n n 0 1
              (mconst (idx n) 1 x0) (vzero (idx n)) (vzero (idx n)) None.

(** Two boundary nodes of six velocity coordinates each, and a floating frame
    turned a quarter turn about z. *)
Definition Z_quarter_turn : mat Z := mat_of_rows [[0; -1; 0]; [1; 0; 0]; [0; 0; 1]].

Definition Z_two_boundary_nodes : ChModalAssembly :=
  set_R_F Z_quarter_turn (set_n_boundary_coords_w 12 Z_new_assembly).

(** One boundary and one internal coordinate; the internal one has mass 3
    and no stiffness, so that K_II = [0]. *)
Definition Z_soft_internal : ChModalAssembly :=
  set_modes_V (cresize 2 0)
    (set_full_Cq_loc (mzero 0 2)
       (set_full_K_loc (mat_of_rows [[1; 0]; [0; 0]])
          (set_full_M_loc (mat_of_rows [[2; 0]; [0; 3]])
             (set_n_internal_coords_w 1
                (set_n_internal_coords 1
                   (set_n_boundary_coords_w 1
                      (set_n_boundary_coords 1 Z_new_assembly))))))).

(** Proportional damping with alpha = beta = 1. *)
Definition Z_damping : Z * Z := (1, 1).


(** A full-mode assembly of one internal item with a single coordinate. *)
Definition Z_one_coordinate : ChModalAssembly :=
  set_internal_otherphysicslist [Z_item false 1 0] Z_new_assembly.

(** A reduced assembly as the switch to modal mode produces it: three modes
    are asked of the one-coordinate assembly. *)
Definition Z_switched : ChModalAssembly :=
  SwitchModalReductionON 3 Z_damping Z_one_coordinate.

(** The scatter side of the instance: the parent hands the system vectors to
    its active items. *)
Definition set_zi_a : mat Z -> ZItem -> ZItem :=
  ltac:(gen_setter eta_ZItem zi_a).

Definition Z_on_active (f : ZItem -> ZItem) (it : ZItem) : ZItem :=
  if zi_active it then f it else it.

Definition Z_on_items (f : ZItem -> ZItem) (a : ChAssembly) : ChAssembly :=
  let a := set_bodylist (map (Z_on_active f) (bodylist a)) a in
  let a := set_linklist (map (Z_on_active f) (linklist a)) a in
  let a := set_meshlist (map (Z_on_active f) (meshlist a)) a in
  set_otherphysicslist (map (Z_on_active f) (otherphysicslist a)) a.

Definition Z_ChAssembly_IntStateScatter (off_x : Z) (x : mat Z) (off_v : Z) (v : mat Z)
    (T : Z) (full_update : bool) (a : ChAssembly) : ChAssembly :=
  Z_on_items
    (fun it => Z_scatter (u32 (off_x - offset_x a + zi_offset_x it)) x
                         (u32 (off_v - offset_w a + zi_offset_w it)) v T full_update it)
    a.

Definition Z_scatter_acceleration (off_a : Z) (acc : mat Z) (it : ZItem) : ZItem :=
  set_zi_a (segment acc (idx off_a) (idx (zi_DOF_w it))) it.

(** sin and cos are taken at phase zero. *)
#[export] Instance Z_StateCollaborators : StateCollaborators Z := {|
  ChAssembly_IntStateScatter := Z_ChAssembly_IntStateScatter;
  ChAssembly_IntStateScatterAcceleration :=
    fun off_a acc a =>
      Z_on_items
        (fun it => Z_scatter_acceleration (u32 (off_a - offset_w a + zi_offset_w it)) acc it)
        a;
  item_IntStateScatterAcceleration := Z_scatter_acceleration;
  dsin := fun _ => 0;
  dcos := fun _ => 1
|}.

(** A symmetric stiffness of two coordinates and one constraint on them. *)
Definition Z_two_springs : mat Z := mat_of_rows [[2; -1]; [-1; 2]].
Definition Z_one_constraint : mat Z := mat_of_rows [[1; 1]].

(** A matrix of three rows and three columns, cut after the first row and
    the second column. *)
Definition Z_three_by_three : mat Z := mat_of_rows [[1; 2; 3]; [4; 5; 6]; [7; 8; 9]].

(** System vectors for the three modal coordinates of [Z_switched]. *)
Definition Z_positions : mat Z := mat_of_rows [[7]; [8]; [9]].
Definition Z_speeds : mat Z := mat_of_rows [[1]; [2]; [3]].

(** A reduced assembly of two nodes of six coordinates each, a boundary body
    at 2 and an internal body at 5 on every coordinate, with one mode of
    amplitude 4 and rate 3.  The floating frame is turned a quarter turn
    about z, the static modes carry a boundary displacement over to the
    internal node as it is, and the dynamic mode moves the internal node
    along its first coordinate.  The stored old full state has the boundary
    at 1, so that the boundary has moved by 1 on every coordinate since. *)
Definition Z_turn_of_node : mat Z :=
  set_block (midentity 6 6) 0 0 3 3 Z_quarter_turn.

Definition Z_first_coordinate : mat Z :=
  mat_of_rows [[1]; [0]; [0]; [0]; [0]; [0]].

Definition Z_two_nodes : ChModalAssembly :=
  Setup
    (set_internal_bodylist [Z_item false 6 5]
       (on_base (set_bodylist [Z_item false 6 2]) Z_new_assembly)).

Definition Z_reduced : ChModalAssembly :=
  Setup
    (set_full_assembly_x_old
       (set_segment (mconst 12 1 1) 6 6 (mconst 6 1 5))
       (set_modal_q_dt (mat_of_rows [[3]])
          (set_modal_q (mat_of_rows [[4]])
             (set_P_B2 Z_turn_of_node
                (set_P_I2 Z_turn_of_node
                   (set_R_F Z_quarter_turn
                      (set_Psi
                         (set_block
                            (set_block
                               (set_block (mzero 12 7) 0 0 6 6 (midentity 6 6))
                               6 0 6 6 (midentity 6 6))
                            6 6 6 1 Z_first_coordinate)
                         (set_Psi_D Z_first_coordinate
                            (set_Psi_S (midentity 6 6)
                               (set_n_modes_coords_w 1
                                  (set_is_modal true Z_two_nodes))))))))))).

(* ========================================================================== *)
(*  Part V, continued.  An instance over binary64                              *)
(* ========================================================================== *)

From Stdlib Require PrimFloat.

(** [double] itself: the binary64 numbers of the kernel, with the IEEE 754
    operations rounded to nearest, ties to even.  The assembly of this
    instance has no sub-items, so that no collaborator takes part in what is
    computed on it: the item types are empty, and the parent class gathers,
    advances and measures nothing. *)
Module Binary64.

Import PrimFloat.

#[export] Instance F_Scalar : Scalar float := {|
  d0 := 0%float;
  d1 := 1%float;
  dadd := PrimFloat.add;
  dsub := PrimFloat.sub;
  dmul := PrimFloat.mul;
  ddiv := PrimFloat.div;
  dopp := PrimFloat.opp;
  dnonzero := fun x => negb (PrimFloat.eqb x 0%float)
|}.

(** A matrix from its rows, and a vector from its entries. *)
Definition F_rows (rows : list (list float)) : mat float :=
  mbuild (length rows) (length (nth 0 rows []))
    (fun i j => nth j (nth i rows []) 0%float).

Definition F_vector (entries : list float) : mat float :=
  mbuild (length entries) 1 (fun i _ => nth i entries 0%float).

Definition nothing {A : Type} (x : Empty_set) : A := match x with end.

#[export] Instance F_Collaborators : Collaborators float := {|
  Item := Empty_set;
  Node := Empty_set;
  Element := Empty_set;
  Frame := unit;
  Descriptor := unit;
  Variables := Empty_set;
  ChModalSolveUndamped := unit;
  ChModalDamping := unit;
  CustomForceModalCallback := Empty_set;
  CustomForceFullCallback := Empty_set;
  GetBodyFixed := nothing;
  GetSleeping := nothing;
  IsActive := nothing;
  SetOffset_x := fun _ it => it;
  SetOffset_w := fun _ it => it;
  SetOffset_L := fun _ it => it;
  GetOffset_x := nothing;
  GetOffset_w := nothing;
  GetOffset_L := nothing;
  GetDOF := nothing;
  GetDOF_w := nothing;
  GetDOC := nothing;
  GetDOC_c := nothing;
  GetDOC_d := nothing;
  item_SetupInitial := fun it => it;
  item_Setup := fun it => it;
  item_Update := fun _ _ it => it;
  item_IntStateGather := nothing;
  item_IntStateScatter := fun _ _ _ _ _ _ it => it;
  item_IntStateGatherAcceleration := nothing;
  item_IntStateIncrement := nothing;
  item_IntStateGetIncrement := nothing;
  item_KRMmatricesLoad := fun _ _ _ it => it;
  item_ConstraintsLoadJacobians := fun it => it;
  item_InjectVariables := nothing;
  item_InjectKRMmatrices := nothing;
  item_InjectConstraints := nothing;
  GetMass := nothing;
  GetPos := nothing;
  GetRot := nothing;
  GetPos_dt := nothing;
  GetWvel_loc := nothing;
  GetPos_dtdt := nothing;
  GetWacc_loc := nothing;
  SetMass := fun _ it => it;
  SetInertia := fun _ it => it;
  is_ChMesh := nothing;
  GetNodes := nothing;
  SetNodes := fun _ it => it;
  GetElements := nothing;
  GetNnodes := nothing;
  ComputeMassProperties := fun _ _ => (0%float, vzero 3, mzero 3 3);
  is_ChNodeFEAxyz := nothing;
  is_ChNodeFEAxyzrot := nothing;
  node_GetPos := nothing;
  node_GetRot := nothing;
  node_GetPos_dt := nothing;
  node_GetWvel_loc := nothing;
  node_GetPos_dtdt := nothing;
  node_GetWacc_loc := nothing;
  node_SetMass := fun _ n => n;
  node_Inertia_setZero := fun n => n;
  frame_SetPos := fun _ f => f;
  frame_SetRot := fun _ f => f;
  frame_SetPos_dt := fun _ f => f;
  frame_SetWvel_loc := fun _ f => f;
  frame_SetPos_dtdt := fun _ f => f;
  frame_SetWacc_loc := fun _ f => f;
  frame_GetA := fun _ => midentity 3 3;
  frame_GetPos := fun _ => vzero 3;
  frame_GetRot := fun _ => F_vector [1; 0; 0; 0]%float;
  frame_GetWvel_loc := fun _ => vzero 3;
  ChStarMatrix33 := fun _ => mzero 3 3;
  ChMatrix33_of_quat := fun _ => midentity 3 3;
  ChMatrix33_of_scalar := fun x => F_rows [[x; 0; 0]; [0; x; 0]; [0; 0; x]]%float;
  VNULL := vzero 3;
  Q_to_Rotv := fun _ => vzero 3;
  Q_from_Rotv := fun _ => F_vector [1; 0; 0; 0]%float;
  SparseQR_solve := fun K _ => vzero (mcols K);
  colPivHouseholderQr_solve := fun K _ => vzero (mcols K);
  Solve := fun _ _ _ _ old => old;
  empty_descriptor := tt;
  GetVariablesList := fun _ => [];
  var_IsActive := nothing;
  SetMassFactor := fun _ d => d;
  ConvertToMatrixForm_Cq := fun _ => mzero 0 0;
  ConvertToMatrixForm_H := fun _ => mzero 0 0;
  new_ChVariablesGenericDiagonalMass :=
    fun n => Build_ChVariablesGenericDiagonalMass n (vzero (idx n)) (vzero (idx n))
                                                   (vzero (idx n)) true;
  InsertVariables := fun _ d => d;
  SetVariables_K := fun _ K => K;
  InsertKblock := fun _ _ d => d
|}.

#[export] Instance F_Surroundings : Surroundings float := {|
  ChAssembly_SetupInitial := fun a => a;
  ChAssembly_Setup := fun a => a;
  ChAssembly_Update := fun _ a => a;
  ChAssembly_IntStateGather := fun a _ x _ v _ => (x, v, ChTime a);
  ChAssembly_IntStateGatherAcceleration := fun _ _ acc => acc;
  ChAssembly_IntStateIncrement := fun _ _ x_new _ _ _ => x_new;
  ChAssembly_IntStateGetIncrement := fun _ _ _ _ _ Dv => Dv;
  ChAssembly_KRMmatricesLoad := fun _ _ _ a => a;
  ChAssembly_ConstraintsLoadJacobians := fun a => a;
  ChAssembly_InjectVariables := fun _ d => d;
  ChAssembly_InjectKRMmatrices := fun _ d => d;
  ChAssembly_InjectConstraints := fun _ d => d;
  ComputeR := fun _ _ _ _ _ R => R;
  evaluate_modal := nothing;
  evaluate_full := nothing
|}.


Set Warnings "-inexact-float".





Set Warnings "inexact-float".

End Binary64.

(** Symbolic execution of field reads and writes: the projections and the
    setters of the two records are unfolded, every other definition stays
    folded. *)
Ltac fields :=
  cbv beta iota zeta delta [
    bodylist linklist meshlist otherphysicslist nbodies nlinks nmeshes
    nphysicsitems ncoords ncoords_w ndoc ndoc_w ndoc_w_C ndoc_w_D nsysvars
    nsysvars_w ndof offset_x offset_w offset_L ChTime base
    internal_bodylist internal_linklist internal_meshlist
    internal_otherphysicslist n_boundary_bodies n_boundary_links
    n_boundary_meshes n_boundary_physicsitems n_boundary_coords
    n_boundary_coords_w n_boundary_doc n_boundary_doc_w n_boundary_doc_w_C
    n_boundary_doc_w_D n_boundary_sysvars n_boundary_sysvars_w
    n_boundary_dof n_internal_bodies n_internal_links n_internal_meshes
    n_internal_physicsitems n_internal_coords n_internal_coords_w
    n_internal_doc n_internal_doc_w n_internal_doc_w_C n_internal_doc_w_D
    n_internal_sysvars n_internal_sysvars_w n_internal_dof
    n_modes_coords_w is_modal internal_nodes_update modal_variables
    modal_Hblock modal_q modal_q_dt modal_q_dtdt custom_F_modal
    custom_F_full m_custom_F_modal_callback m_custom_F_full_callback
    full_assembly_x_old modes_assembly_x0 modes_V modes_eig modes_freq
    modes_damping_ratio com_x S_sel floating_frame_F floating_frame_F0 R_F
    wloc_F P_B1 P_B2 P_I1 P_I2 P_W Y U full_M_loc full_K_loc full_R_loc
    full_Cq_loc Psi Psi_S Psi_D M_red K_red R_red Cq_red V O_B O_F V_acc
    V_rmom O_thetamom V_F1 V_F2 V_F3 M_sup Ri_sup Ki_sup g_quad g_loc
    Km_sup Kg_sup Rm_sup modal_M modal_K modal_R modal_Cq set_bodylist
    set_linklist set_meshlist set_otherphysicslist set_nbodies set_nlinks
    set_nmeshes set_nphysicsitems set_ncoords set_ncoords_w set_ndoc
    set_ndoc_w set_ndoc_w_C set_ndoc_w_D set_nsysvars set_nsysvars_w
    set_ndof set_offset_x set_offset_w set_offset_L set_ChTime set_base
    set_internal_bodylist set_internal_linklist set_internal_meshlist
    set_internal_otherphysicslist set_n_boundary_bodies
    set_n_boundary_links set_n_boundary_meshes set_n_boundary_physicsitems
    set_n_boundary_coords set_n_boundary_coords_w set_n_boundary_doc
    set_n_boundary_doc_w set_n_boundary_doc_w_C set_n_boundary_doc_w_D
    set_n_boundary_sysvars set_n_boundary_sysvars_w set_n_boundary_dof
    set_n_internal_bodies set_n_internal_links set_n_internal_meshes
    set_n_internal_physicsitems set_n_internal_coords
    set_n_internal_coords_w set_n_internal_doc set_n_internal_doc_w
    set_n_internal_doc_w_C set_n_internal_doc_w_D set_n_internal_sysvars
    set_n_internal_sysvars_w set_n_internal_dof set_n_modes_coords_w
    set_is_modal set_internal_nodes_update set_modal_variables
    set_modal_Hblock set_modal_q set_modal_q_dt set_modal_q_dtdt
    set_custom_F_modal set_custom_F_full set_m_custom_F_modal_callback
    set_m_custom_F_full_callback set_full_assembly_x_old
    set_modes_assembly_x0 set_modes_V set_modes_eig set_modes_freq
    set_modes_damping_ratio set_com_x set_S_sel set_floating_frame_F
    set_floating_frame_F0 set_R_F set_wloc_F set_P_B1 set_P_B2 set_P_I1
    set_P_I2 set_P_W set_Y set_U set_full_M_loc set_full_K_loc
    set_full_R_loc set_full_Cq_loc set_Psi set_Psi_S set_Psi_D set_M_red
    set_K_red set_R_red set_Cq_red set_V set_O_B set_O_F set_V_acc
    set_V_rmom set_O_thetamom set_V_F1 set_V_F2 set_V_F3 set_M_sup
    set_Ri_sup set_Ki_sup set_g_quad set_g_loc set_Km_sup set_Kg_sup
    set_Rm_sup set_modal_M set_modal_K set_modal_R set_modal_Cq
    Kblock_variables Get_K on_base fst snd fst3 snd3 thd3 negb
  ].

(** The two sides of the goal compute to the same term: the proof is
    reflexivity, and the kernel does the computation when it checks it. *)
Ltac kernel_refl :=
  match goal with
  | |- @eq ?T ?a ?b => exact_no_check (@eq_refl T b)
  end.

(** The goal follows from the equation [H] once both of its sides and both
    sides of the goal are computed. *)
Ltac kernel_via H :=
  match type of H with
  | @eq ?T ?l ?r =>
      match goal with
      | |- @eq _ ?a ?b =>
          refine (@eq_trans T a l b _ (@eq_trans T l r b H _)); kernel_refl
      end
  end.

(* ========================================================================== *)
(*  Part VI.  Properties                                                       *)
(* ========================================================================== *)

Section DenseFacts.

Context {D : Type} {SD : Scalar D}.

Lemma coef_mbuild r c (f : nat -> nat -> D) i j :
  coef (mbuild r c f) i j =
  if ((i <? r) && (j <? c))%nat then f i j else d0.
Proof.
  unfold coef, mbuild; simpl.
  destruct (i <? r)%nat eqn:Hi; simpl; [|reflexivity].
  destruct (j <? c)%nat eqn:Hj; simpl; [|reflexivity].
  apply Nat.ltb_lt in Hi. apply Nat.ltb_lt in Hj.
  rewrite nth_indep with (d' := map (f 0%nat) (seq 0 c))
    by (rewrite length_map, length_seq; exact Hi).
  rewrite (map_nth (fun i => map (f i) (seq 0 c)) (seq 0 r) 0%nat i).
  rewrite seq_nth by exact Hi. simpl.
  rewrite nth_indep with (d' := f i 0%nat)
    by (rewrite length_map, length_seq; exact Hj).
  rewrite (map_nth (f i) (seq 0 c) 0%nat j).
  rewrite seq_nth by exact Hj. reflexivity.
Qed.

Lemma coef_mbuild_in r c (f : nat -> nat -> D) i j :
  (i < r)%nat -> (j < c)%nat -> coef (mbuild r c f) i j = f i j.
Proof.
  intros Hi Hj. rewrite coef_mbuild.
  apply Nat.ltb_lt in Hi. apply Nat.ltb_lt in Hj.
  rewrite Hi, Hj. reflexivity.
Qed.

Lemma coef_outside (A : mat D) i j :
  (mrows A <= i)%nat \/ (mcols A <= j)%nat -> coef A i j = d0.
Proof.
  intros H. unfold coef.
  destruct (i <? mrows A)%nat eqn:Hi; simpl; [|reflexivity].
  destruct (j <? mcols A)%nat eqn:Hj; simpl; [|reflexivity].
  apply Nat.ltb_lt in Hi. apply Nat.ltb_lt in Hj. lia.
Qed.

Lemma mbuild_ext r c (f g : nat -> nat -> D) :
  (forall i j, (i < r)%nat -> (j < c)%nat -> f i j = g i j) ->
  mbuild r c f = mbuild r c g.
Proof.
  intros H. unfold mbuild. f_equal.
  apply map_ext_in. intros i Hi. apply in_seq in Hi.
  apply map_ext_in. intros j Hj. apply in_seq in Hj.
  apply H; lia.
Qed.

Lemma dsum_ext n (f g : nat -> D) :
  (forall k, (k < n)%nat -> f k = g k) -> dsum n f = dsum n g.
Proof.
  induction n as [|n IH]; intros H; simpl; [reflexivity|].
  rewrite IH by (intros; apply H; lia).
  rewrite H by lia. reflexivity.
Qed.

(** Writing a block keeps the dimensions. *)
Lemma dims_set_block (A : mat D) i j p q X :
  mrows (set_block A i j p q X) = mrows A /\ mcols (set_block A i j p q X) = mcols A.
Proof. split; reflexivity. Qed.

(** The comma initializer keeps the dimensions of its destination. *)
Lemma dims_comma_fill (bs : list (mat D)) : forall dest row c rowh,
  mrows (comma_fill dest row c rowh bs) = mrows dest /\
  mcols (comma_fill dest row c rowh bs) = mcols dest.
Proof.
  induction bs as [|B rest IH]; intros dest row c rowh; simpl.
  - split; reflexivity.
  - destruct (IH (set_block dest
                    (if ((c =? mcols dest) && (negb (mcols B =? 0) || negb (mrows B =? rowh)))%nat
                     then (row + rowh)%nat else row)
                    (if ((c =? mcols dest) && (negb (mcols B =? 0) || negb (mrows B =? rowh)))%nat
                     then 0%nat else c)
                    (mrows B) (mcols B) B)
                 (if ((c =? mcols dest) && (negb (mcols B =? 0) || negb (mrows B =? rowh)))%nat
                  then (row + rowh)%nat else row)
                 ((if ((c =? mcols dest) && (negb (mcols B =? 0) || negb (mrows B =? rowh)))%nat
                   then 0%nat else c) + mcols B)%nat
                 (if ((c =? mcols dest) && (negb (mcols B =? 0) || negb (mrows B =? rowh)))%nat
                  then mrows B else rowh)) as [Hr Hc].
    rewrite Hr, Hc. split; reflexivity.
Qed.

Lemma dims_comma_init (dest : mat D) bs :
  mrows (comma_init dest bs) = mrows dest /\ mcols (comma_init dest bs) = mcols dest.
Proof.
  destruct bs as [|B rest]; simpl; [split; reflexivity|].
  destruct (dims_comma_fill rest (set_block dest 0 0 (mrows B) (mcols B) B)
              0 (mcols B) (mrows B)) as [Hr Hc].
  rewrite Hr, Hc. split; reflexivity.
Qed.

(** An invariant of the body is an invariant of the loop. *)
Lemma for_loop_invariant {A : Type} (P : A -> Prop) (body : Z -> A -> Z * A) :
  (forall i a, P a -> P (snd (body i a))) ->
  forall fuel i hi a, P a -> P (for_loop fuel i hi body a).
Proof.
  intros Hbody. induction fuel as [|fuel IH]; intros i hi a Ha; simpl.
  - exact Ha.
  - destruct (i <? hi); [|exact Ha].
    pose proof (Hbody i a Ha) as Hstep.
    destruct (body i a) as [i' a']. simpl in Hstep.
    apply IH. exact Hstep.
Qed.

Lemma for_int_invariant {A : Type} (P : A -> Prop) (body : Z -> A -> Z * A) lo hi a :
  (forall i a, P a -> P (snd (body i a))) -> P a -> P (for_int lo hi body a).
Proof. intros Hbody Ha. unfold for_int. apply for_loop_invariant; assumption. Qed.

(** A view of the loop state that the body keeps is kept by the loop. *)
Lemma for_int_frame {A X : Type} (view : A -> X) (body : Z -> A -> Z * A) lo hi a :
  (forall i m, view (snd (body i m)) = view m) ->
  view (for_int lo hi body a) = view a.
Proof.
  intros Hbody.
  apply (for_int_invariant (fun m => view m = view a)); [|reflexivity].
  intros i m Hm. rewrite Hbody. exact Hm.
Qed.

Lemma mzero_like_dims (A B : mat D) : dims A = dims B -> mzero_like A = mzero_like B.
Proof.
  unfold dims, mzero_like. intros H. injection H as Hr Hc. rewrite Hr, Hc. reflexivity.
Qed.

(** The fuel of a loop is enough: as long as the body does not move the
    index backwards, the loop stops at its test, and more fuel changes
    nothing. *)
Lemma for_loop_fuel {A : Type} (body : Z -> A -> Z * A) :
  (forall i a, i <= fst (body i a)) ->
  forall fuel fuel' i hi a,
    (Z.to_nat (hi - i) <= fuel)%nat -> (Z.to_nat (hi - i) <= fuel')%nat ->
    for_loop fuel i hi body a = for_loop fuel' i hi body a.
Proof.
  intros Hbody. induction fuel as [|fuel IH]; intros fuel' i hi a H1 H2.
  - assert (hi <= i) as Hle by lia.
    destruct fuel' as [|fuel']; simpl; [reflexivity|].
    destruct (i <? hi) eqn:Hlt; [apply Z.ltb_lt in Hlt; lia | reflexivity].
  - simpl. destruct (i <? hi) eqn:Hlt.
    + apply Z.ltb_lt in Hlt.
      destruct fuel' as [|fuel']; [lia|]. simpl.
      apply Z.ltb_lt in Hlt. rewrite Hlt. apply Z.ltb_lt in Hlt.
      pose proof (Hbody i a) as Hi.
      destruct (body i a) as [i' a']. simpl in Hi.
      apply IH; lia.
    + destruct fuel' as [|fuel']; simpl; [reflexivity|].
      rewrite Hlt. reflexivity.
Qed.

End DenseFacts.

Section ModalFacts.

Context {D : Type} {SD : Scalar D} {C : Collaborators D} {E : Surroundings D}.

(* -------------------------------------------------------------------------- *)
(*  The mode switch                                                            *)
(* -------------------------------------------------------------------------- *)

(** C10.  For an assembly already in modal mode, either overload of
    SwitchModalReductionON returns at once and hands back the assembly
    exactly as it was: nothing is recomputed, no second reduction is run,
    and the call completes. *)
Theorem SwitchModalReductionON_modal_noop
    (full_M full_K full_Cq : mat D) (n_modes_settings : ChModalSolveUndamped)
    (damping_model : ChModalDamping) (s : ChModalAssembly) :
  is_modal s = true ->
  SwitchModalReductionON_matrices full_M full_K full_Cq n_modes_settings
                                  damping_model s = s /\
  SwitchModalReductionON n_modes_settings damping_model s = s.
Proof.
  intros Hmodal. split.
  - unfold SwitchModalReductionON_matrices. rewrite Hmodal. reflexivity.
  - unfold SwitchModalReductionON. rewrite Hmodal. reflexivity.
Qed.

(* -------------------------------------------------------------------------- *)
(*  Setup                                                                      *)
(* -------------------------------------------------------------------------- *)

Lemma Setup_eq (s : ChModalAssembly) :
  Setup s = Setup_totals (Setup_internal (Setup_boundary s)).
Proof. reflexivity. Qed.

Lemma Setup_totals_modal_case (s : ChModalAssembly) :
  is_modal s = true -> Setup_totals s = Setup_totals_modal s.
Proof. intros H. unfold Setup_totals. rewrite H. reflexivity. Qed.

Lemma Setup_totals_full_case (s : ChModalAssembly) :
  is_modal s = false -> Setup_totals s = Setup_totals_full s.
Proof. intros H. unfold Setup_totals. rewrite H. reflexivity. Qed.

Lemma is_modal_Setup_totals_modal (s : ChModalAssembly) :
  is_modal (Setup_totals_modal s) = is_modal s.
Proof. kernel_refl. Qed.

Lemma is_modal_Setup_totals_full (s : ChModalAssembly) :
  is_modal (Setup_totals_full s) = is_modal s.
Proof. kernel_refl. Qed.

Lemma Setup_totals_modal_ncoords_w (s : ChModalAssembly) :
  ncoords_w (base (Setup_totals_modal s)) =
  n_boundary_coords_w (Setup_totals_modal s) + n_modes_coords_w (Setup_totals_modal s).
Proof. kernel_refl. Qed.

Lemma Setup_totals_full_ncoords_w (s : ChModalAssembly) :
  ncoords_w (base (Setup_totals_full s)) =
  n_boundary_coords_w (Setup_totals_full s) + n_internal_coords_w (Setup_totals_full s).
Proof. kernel_refl. Qed.

(** C7.  After every Setup() the total number of velocity-level coordinates
    is the boundary count plus the internal count in full mode, and the
    boundary count plus the number of modal coordinates in modal mode. *)
Theorem Setup_ncoords_w (s : ChModalAssembly) :
  ncoords_w (base (Setup s)) =
  n_boundary_coords_w (Setup s) +
  (if is_modal (Setup s) then n_modes_coords_w (Setup s)
   else n_internal_coords_w (Setup s)).
Proof.
  rewrite Setup_eq.
  generalize (Setup_internal (Setup_boundary s)). intros t.
  destruct (is_modal t) eqn:Ht.
  - rewrite (Setup_totals_modal_case t Ht).
    rewrite is_modal_Setup_totals_modal, Ht.
    apply Setup_totals_modal_ncoords_w.
  - rewrite (Setup_totals_full_case t Ht).
    rewrite is_modal_Setup_totals_full, Ht.
    apply Setup_totals_full_ncoords_w.
Qed.

(** The pass over the internal items does not look at the mode flag: it
    commutes with setting it. *)
Lemma for_each_commute {A St : Type} (g : St -> St) (body : A -> St -> A * St) :
  (forall x s, body x (g s) = (fst (body x s), g (snd (body x s)))) ->
  forall l s,
    for_each body l (g s) = (fst (for_each body l s), g (snd (for_each body l s))).
Proof.
  intros Hbody. induction l as [|x l IH]; intros s; simpl.
  - reflexivity.
  - rewrite Hbody. destruct (body x s) as [x' s']. simpl.
    rewrite IH. destruct (for_each body l s') as [l' s'']. reflexivity.
Qed.

Lemma Setup_internal_body_blind b x s :
  Setup_internal_body x (set_is_modal b s) =
  (fst (Setup_internal_body x s), set_is_modal b (snd (Setup_internal_body x s))).
Proof.
  unfold Setup_internal_body.
  destruct (GetBodyFixed x); [reflexivity|].
  destruct (GetSleeping x); [reflexivity|].
  kernel_refl.
Qed.

Lemma Setup_internal_count_blind b x s :
  Setup_internal_count x (set_is_modal b s) =
  (fst (Setup_internal_count x s), set_is_modal b (snd (Setup_internal_count x s))).
Proof. kernel_refl. Qed.

Lemma Setup_internal_link_blind b x s :
  Setup_internal_link x (set_is_modal b s) =
  (fst (Setup_internal_link x s), set_is_modal b (snd (Setup_internal_link x s))).
Proof.
  unfold Setup_internal_link.
  destruct (IsActive x); [|reflexivity].
  kernel_refl.
Qed.

Lemma Setup_internal_mesh_blind b x s :
  Setup_internal_mesh x (set_is_modal b s) =
  (fst (Setup_internal_mesh x s), set_is_modal b (snd (Setup_internal_mesh x s))).
Proof. kernel_refl. Qed.

Lemma Setup_internal_other_blind b x s :
  Setup_internal_other x (set_is_modal b s) =
  (fst (Setup_internal_other x s), set_is_modal b (snd (Setup_internal_other x s))).
Proof. kernel_refl. Qed.

Lemma Setup_boundary_blind b s :
  Setup_boundary (set_is_modal b s) = set_is_modal b (Setup_boundary s).
Proof. kernel_refl. Qed.

Lemma Setup_internal_reset_blind b s :
  Setup_internal_reset (set_is_modal b s) = set_is_modal b (Setup_internal_reset s).
Proof. kernel_refl. Qed.

Lemma Setup_internal_finish_blind b s :
  Setup_internal_finish (set_is_modal b s) = set_is_modal b (Setup_internal_finish s).
Proof. kernel_refl. Qed.

Lemma internal_loop_blind body get set b :
  (forall x s, body x (set_is_modal b s)
               = (fst (body x s), set_is_modal b (snd (body x s)))) ->
  (forall s, get (set_is_modal b s) = get s) ->
  (forall l s, set l (set_is_modal b s) = set_is_modal b (set l s)) ->
  forall s, internal_loop body get set (set_is_modal b s)
            = set_is_modal b (internal_loop body get set s).
Proof.
  intros Hbody Hget Hset s. unfold internal_loop.
  rewrite Hget, (for_each_commute (set_is_modal b) body Hbody). simpl.
  apply Hset.
Qed.

Lemma Setup_internal_bodies_blind b s :
  Setup_internal_bodies (set_is_modal b s) = set_is_modal b (Setup_internal_bodies s).
Proof.
  apply (internal_loop_blind Setup_internal_body internal_bodylist set_internal_bodylist).
  - apply Setup_internal_body_blind.
  - intros u. kernel_refl.
  - intros l u. kernel_refl.
Qed.

Lemma Setup_internal_links_blind b s :
  Setup_internal_links (set_is_modal b s) = set_is_modal b (Setup_internal_links s).
Proof.
  apply (internal_loop_blind Setup_internal_link internal_linklist set_internal_linklist).
  - apply Setup_internal_link_blind.
  - intros u. kernel_refl.
  - intros l u. kernel_refl.
Qed.

Lemma Setup_internal_meshes_blind b s :
  Setup_internal_meshes (set_is_modal b s) = set_is_modal b (Setup_internal_meshes s).
Proof.
  apply (internal_loop_blind Setup_internal_mesh internal_meshlist set_internal_meshlist).
  - apply Setup_internal_mesh_blind.
  - intros u. kernel_refl.
  - intros l u. kernel_refl.
Qed.

Lemma Setup_internal_others_blind b s :
  Setup_internal_others (set_is_modal b s) = set_is_modal b (Setup_internal_others s).
Proof.
  apply (internal_loop_blind Setup_internal_other internal_otherphysicslist
           set_internal_otherphysicslist).
  - apply Setup_internal_other_blind.
  - intros u. kernel_refl.
  - intros l u. kernel_refl.
Qed.

Lemma Setup_internal_blind b s :
  Setup_internal (set_is_modal b s) = set_is_modal b (Setup_internal s).
Proof.
  unfold Setup_internal.
  rewrite Setup_internal_reset_blind, Setup_internal_bodies_blind,
          Setup_internal_links_blind, Setup_internal_meshes_blind,
          Setup_internal_others_blind, Setup_internal_finish_blind.
  reflexivity.
Qed.

(** The pass over the internal items leaves the base-class sub-object and
    the boundary item counts alone. *)
Lemma for_each_frame {A St X : Type} (view : St -> X) (body : A -> St -> A * St) :
  (forall x s, view (snd (body x s)) = view s) ->
  forall l s, view (snd (for_each body l s)) = view s.
Proof.
  intros Hbody. induction l as [|x l IH]; intros s; simpl.
  - reflexivity.
  - pose proof (Hbody x s) as Hx. destruct (body x s) as [x' s']. simpl in Hx.
    pose proof (IH s') as Hl. destruct (for_each body l s') as [l' s''].
    simpl in *. congruence.
Qed.

Lemma internal_loop_frame {X : Type} (view : ChModalAssembly -> X) body get set :
  (forall x s, view (snd (body x s)) = view s) ->
  (forall l s, view (set l s) = view s) ->
  forall s, view (internal_loop body get set s) = view s.
Proof.
  intros Hbody Hset s. unfold internal_loop.
  rewrite Hset. apply for_each_frame. exact Hbody.
Qed.

(** A view of the state that none of the steps of the internal pass writes
    is the same after the pass. *)
Ltac internal_pass_frame view :=
  unfold Setup_internal;
  match goal with
  | |- _ (Setup_internal_finish
            (Setup_internal_others
               (Setup_internal_meshes
                  (Setup_internal_links
                     (Setup_internal_bodies (Setup_internal_reset ?s)))))) = _ =>
    transitivity (view (Setup_internal_reset s)); [|kernel_refl];
    generalize (Setup_internal_reset s); clear s; intros s;
    transitivity (view (Setup_internal_bodies s));
    [|apply (internal_loop_frame view Setup_internal_body
               internal_bodylist set_internal_bodylist);
      [ intros x u; unfold Setup_internal_body;
        destruct (GetBodyFixed x); [reflexivity|];
        destruct (GetSleeping x); [reflexivity|]; kernel_refl
      | intros l u; kernel_refl ]];
    generalize (Setup_internal_bodies s); clear s; intros s;
    transitivity (view (Setup_internal_links s));
    [|apply (internal_loop_frame view Setup_internal_link
               internal_linklist set_internal_linklist);
      [ intros x u; unfold Setup_internal_link;
        destruct (IsActive x); [|reflexivity]; kernel_refl
      | intros l u; kernel_refl ]];
    generalize (Setup_internal_links s); clear s; intros s;
    transitivity (view (Setup_internal_meshes s));
    [|apply (internal_loop_frame view Setup_internal_mesh
               internal_meshlist set_internal_meshlist);
      [ intros x u; kernel_refl | intros l u; kernel_refl ]];
    generalize (Setup_internal_meshes s); clear s; intros s;
    transitivity (view (Setup_internal_others s));
    [|apply (internal_loop_frame view Setup_internal_other
               internal_otherphysicslist set_internal_otherphysicslist);
      [ intros x u; kernel_refl | intros l u; kernel_refl ]];
    generalize (Setup_internal_others s); clear s; intros s;
    kernel_refl
  end.

Lemma boundary_counts_Setup_internal s :
  boundary_counts (Setup_internal s) = boundary_counts s.
Proof. internal_pass_frame boundary_counts. Qed.

Lemma mode_set_Setup_internal s : mode_set (Setup_internal s) = mode_set s.
Proof. internal_pass_frame mode_set. Qed.

Lemma mode_set_Setup_boundary s : mode_set (Setup_boundary s) = mode_set s.
Proof. kernel_refl. Qed.

Lemma mode_set_Setup_totals s : mode_set (Setup_totals s) = mode_set s.
Proof.
  destruct (is_modal s) eqn:Hm.
  - rewrite (Setup_totals_modal_case s Hm). kernel_refl.
  - rewrite (Setup_totals_full_case s Hm). kernel_refl.
Qed.

Lemma mode_set_Setup s : mode_set (Setup s) = mode_set s.
Proof.
  rewrite Setup_eq, mode_set_Setup_totals, mode_set_Setup_internal.
  apply mode_set_Setup_boundary.
Qed.

Lemma set_is_modal_self (s : ChModalAssembly) : set_is_modal (is_modal s) s = s.
Proof. reflexivity. Qed.

Lemma is_modal_internal_pass s :
  is_modal (Setup_internal (Setup_boundary s)) = is_modal s.
Proof.
  transitivity
    (is_modal (Setup_internal (Setup_boundary (set_is_modal (is_modal s) s)))).
  - rewrite set_is_modal_self. reflexivity.
  - rewrite Setup_boundary_blind, Setup_internal_blind. reflexivity.
Qed.



Lemma Setup_boundary_counts (s : ChModalAssembly) :
  boundary_counts (Setup_boundary s) =
  (base (Setup_boundary s),
   (nbodies (base (Setup_boundary s)), nlinks (base (Setup_boundary s)),
    nmeshes (base (Setup_boundary s)), nphysicsitems (base (Setup_boundary s)))).
Proof. kernel_refl. Qed.




(* -------------------------------------------------------------------------- *)
(*  DoModalReduction                                                           *)
(* -------------------------------------------------------------------------- *)

(** C6.  When DoModalReduction completes, the mode set of the eigen-solver is
    cleared: the eigenvalues, the mode shapes, the frequencies and the
    damping ratios are resized to hold no coefficient. *)
Theorem DoModalReduction_clears_mode_set
    (damping_model : ChModalDamping) (s : ChModalAssembly) :
  modes_eig (DoModalReduction damping_model s) = cresize 0 1 /\
  modes_V (DoModalReduction damping_model s) = cresize 0 0 /\
  modes_freq (DoModalReduction damping_model s) = mzero 0 1 /\
  modes_damping_ratio (DoModalReduction damping_model s) = mzero 0 1 /\
  csize (modes_eig (DoModalReduction damping_model s)) = 0%nat /\
  csize (modes_V (DoModalReduction damping_model s)) = 0%nat /\
  msize (modes_freq (DoModalReduction damping_model s)) = 0%nat /\
  msize (modes_damping_ratio (DoModalReduction damping_model s)) = 0%nat.
Proof.
  do 7 (split; [kernel_refl|]). kernel_refl.
Qed.

(** C1, as the code has it.  DoModalReduction has no failure path: whatever
    the bordered block K_IIc is, singular or not, the function takes the
    columns the sparse QR solve returns for the static and the dynamic modes
    and commits the basis Psi = [I 0; Psi_S Psi_D] and the reduced matrices
    M_red = Psi' M Psi, K_red = Psi' K Psi and Cq_red = Cq_B Psi. *)
Theorem DoModalReduction_commits
    (damping_model : ChModalDamping) (s : ChModalAssembly) :
  Psi_S (DoModalReduction damping_model s) = static_modes s /\
  Psi_D (DoModalReduction damping_model s) = dynamic_modes s /\
  Psi (DoModalReduction damping_model s) =
    comma_init
      (mzero (idx (n_boundary_coords_w s + n_internal_coords_w s))
             (idx (n_boundary_coords_w s + n_modes_coords_w s)))
      [midentity (idx (n_boundary_coords_w s)) (idx (n_boundary_coords_w s));
       mzero (idx (n_boundary_coords_w s)) (idx (n_modes_coords_w s));
       static_modes s; dynamic_modes s] /\
  M_red (DoModalReduction damping_model s) =
    mmul (mmul (mtranspose (Psi (DoModalReduction damping_model s))) (full_M_loc s))
         (Psi (DoModalReduction damping_model s)) /\
  K_red (DoModalReduction damping_model s) =
    mmul (mmul (mtranspose (Psi (DoModalReduction damping_model s))) (full_K_loc s))
         (Psi (DoModalReduction damping_model s)) /\
  Cq_red (DoModalReduction damping_model s) =
    mmul (topRows (full_Cq_loc s) (idx (n_boundary_doc_w s)))
         (Psi (DoModalReduction damping_model s)).
Proof.
  do 5 (split; [kernel_refl|]). kernel_refl.
Qed.

End ModalFacts.
(* -------------------------------------------------------------------------- *)
(*  SetInternalStateWithModes                                                  *)
(* -------------------------------------------------------------------------- *)

Section RecoveryFacts.

Context {D : Type} {SD : Scalar D} {C : Collaborators D} {E : Surroundings D}.




End RecoveryFacts.

(* -------------------------------------------------------------------------- *)
(*  The per-step build of the modal K R M matrices                             *)
(* -------------------------------------------------------------------------- *)

Section BuildFacts.

Context {D : Type} {SD : Scalar D} {C : Collaborators D} {E : Surroundings D}.

Lemma KRM_cache_write_of (s : ChModalAssembly) :
  KRM_cache_write (KRM_cache_of s) s = s.
Proof. kernel_refl. Qed.

Lemma KRM_cache_write_write (c c' : KRM_cache) (s : ChModalAssembly) :
  KRM_cache_write c (KRM_cache_write c' s) = KRM_cache_write c s.
Proof. kernel_refl. Qed.

Lemma KRM_cache_write_of_write (c : KRM_cache) (s : ChModalAssembly) :
  KRM_cache_write (KRM_cache_of (KRM_cache_write c s)) s = KRM_cache_write c s.
Proof. kernel_refl. Qed.

Lemma KRM_cache_sizes_write (c : KRM_cache) (s : ChModalAssembly) :
  KRM_cache_sizes (KRM_cache_of (KRM_cache_write c s)) = KRM_cache_sizes c.
Proof. kernel_refl. Qed.

Lemma KRM_cache_sizes_sizes (c : KRM_cache) :
  KRM_cache_sizes (KRM_cache_sizes c) = KRM_cache_sizes c.
Proof. kernel_refl. Qed.

Lemma is_modal_KRM_cache_write (c : KRM_cache) (s : ChModalAssembly) :
  is_modal (KRM_cache_write c s) = is_modal s.
Proof. kernel_refl. Qed.

Lemma KRM_cache_sizes_of (s : ChModalAssembly) :
  KRM_cache_sizes (KRM_cache_of s) =
  Build_KRM_cache
    (mzero_like (V s))
    (mzero_like (O_B s))
    (mzero_like (O_F s))
    (mzero_like (V_acc s))
    (mzero_like (V_rmom s))
    (mzero_like (O_thetamom s))
    (mzero_like (V_F1 s))
    (mzero_like (V_F2 s))
    (mzero_like (V_F3 s))
    (mzero 0 0)
    (mzero 0 0)
    (mzero 0 0)
    (mzero 0 0)
    (mzero 0 0)
    (mzero 0 0)
    (mzero_like (Kg_sup s))
    (mzero 0 0)
    (mzero 0 0)
    (mzero 0 0)
    (mzero 0 0)
    (mzero 0 0)
    (mzero 0 0).
Proof. kernel_refl. Qed.

(** Each step writes members of the cache only. *)
Lemma ComputeInertialKRMmatrix_frame (s : ChModalAssembly) :
  ComputeInertialKRMmatrix s = KRM_cache_write (KRM_cache_of (ComputeInertialKRMmatrix s)) s.
Proof. kernel_refl. Qed.

Lemma ComputeStiffnessMatrix_frame (s : ChModalAssembly) :
  ComputeStiffnessMatrix s = KRM_cache_write (KRM_cache_of (ComputeStiffnessMatrix s)) s.
Proof. kernel_refl. Qed.

Lemma ComputeDampingMatrix_frame (s : ChModalAssembly) :
  ComputeDampingMatrix s = KRM_cache_write (KRM_cache_of (ComputeDampingMatrix s)) s.
Proof. kernel_refl. Qed.

Lemma ComputeModalKRMmatrix_frame (s : ChModalAssembly) :
  ComputeModalKRMmatrix s = KRM_cache_write (KRM_cache_of (ComputeModalKRMmatrix s)) s.
Proof. kernel_refl. Qed.

Lemma load_modal_Hblock_frame (Kf Rf Mf : D) (s : ChModalAssembly) :
  load_modal_Hblock Kf Rf Mf s =
  KRM_cache_write (KRM_cache_of (load_modal_Hblock Kf Rf Mf s)) s.
Proof. kernel_refl. Qed.

Lemma KRM_step_write (f : ChModalAssembly -> ChModalAssembly) :
  (forall t, f t = KRM_cache_write (KRM_cache_of (f t)) t) ->
  forall c s, f (KRM_cache_write c s) = KRM_cache_write (KRM_step f c s) s.
Proof.
  intros Hframe c s. unfold KRM_step.
  transitivity (KRM_cache_write (KRM_cache_of (f (KRM_cache_write c s)))
                                (KRM_cache_write c s)).
  - apply Hframe.
  - apply KRM_cache_write_write.
Qed.

(** Each step reads of the cache what the steps before it have written, and
    the sizes of the members that are zeroed in place. *)
Lemma ComputeInertialKRMmatrix_reads (c : KRM_cache) (s : ChModalAssembly) :
  KRM_cache_inertial (KRM_step ComputeInertialKRMmatrix c s) =
  KRM_cache_inertial (KRM_step ComputeInertialKRMmatrix (KRM_cache_sizes c) s).
Proof. kernel_refl. Qed.

Lemma ComputeInertialKRMmatrix_reads_same (c c' : KRM_cache) (s : ChModalAssembly) :
  KRM_cache_sizes c = KRM_cache_sizes c' ->
  KRM_cache_inertial (KRM_step ComputeInertialKRMmatrix c s) =
  KRM_cache_inertial (KRM_step ComputeInertialKRMmatrix c' s).
Proof.
  intros Hc.
  rewrite (ComputeInertialKRMmatrix_reads c s), (ComputeInertialKRMmatrix_reads c' s), Hc.
  reflexivity.
Qed.

Lemma ComputeStiffnessMatrix_reads (c : KRM_cache) (s : ChModalAssembly) :
  KRM_cache_stiffness (KRM_step ComputeStiffnessMatrix c s) =
  KRM_cache_stiffness (KRM_step ComputeStiffnessMatrix (KRM_cache_inertial c) s).
Proof. kernel_refl. Qed.

Lemma ComputeStiffnessMatrix_reads_same (c c' : KRM_cache) (s : ChModalAssembly) :
  KRM_cache_inertial c = KRM_cache_inertial c' ->
  KRM_cache_stiffness (KRM_step ComputeStiffnessMatrix c s) =
  KRM_cache_stiffness (KRM_step ComputeStiffnessMatrix c' s).
Proof.
  intros Hc.
  rewrite (ComputeStiffnessMatrix_reads c s), (ComputeStiffnessMatrix_reads c' s), Hc.
  reflexivity.
Qed.

Lemma ComputeDampingMatrix_reads (c : KRM_cache) (s : ChModalAssembly) :
  KRM_cache_damping (KRM_step ComputeDampingMatrix c s) =
  KRM_cache_damping (KRM_step ComputeDampingMatrix (KRM_cache_stiffness c) s).
Proof. kernel_refl. Qed.

Lemma ComputeDampingMatrix_reads_same (c c' : KRM_cache) (s : ChModalAssembly) :
  KRM_cache_stiffness c = KRM_cache_stiffness c' ->
  KRM_cache_damping (KRM_step ComputeDampingMatrix c s) =
  KRM_cache_damping (KRM_step ComputeDampingMatrix c' s).
Proof.
  intros Hc.
  rewrite (ComputeDampingMatrix_reads c s), (ComputeDampingMatrix_reads c' s), Hc.
  reflexivity.
Qed.

Lemma ComputeModalKRMmatrix_reads (c : KRM_cache) (s : ChModalAssembly) :
  KRM_cache_modal (KRM_step ComputeModalKRMmatrix c s) =
  KRM_cache_modal (KRM_step ComputeModalKRMmatrix (KRM_cache_damping c) s).
Proof. kernel_refl. Qed.

Lemma ComputeModalKRMmatrix_reads_same (c c' : KRM_cache) (s : ChModalAssembly) :
  KRM_cache_damping c = KRM_cache_damping c' ->
  KRM_cache_modal (KRM_step ComputeModalKRMmatrix c s) =
  KRM_cache_modal (KRM_step ComputeModalKRMmatrix c' s).
Proof.
  intros Hc.
  rewrite (ComputeModalKRMmatrix_reads c s), (ComputeModalKRMmatrix_reads c' s), Hc.
  reflexivity.
Qed.

Lemma load_modal_Hblock_reads (Kf Rf Mf : D) (c : KRM_cache) (s : ChModalAssembly) :
  KRM_step (load_modal_Hblock Kf Rf Mf) c s =
  KRM_step (load_modal_Hblock Kf Rf Mf) (KRM_cache_modal c) s.
Proof. kernel_refl. Qed.

Lemma load_modal_Hblock_reads_same (Kf Rf Mf : D) (c c' : KRM_cache)
    (s : ChModalAssembly) :
  KRM_cache_modal c = KRM_cache_modal c' ->
  KRM_step (load_modal_Hblock Kf Rf Mf) c s =
  KRM_step (load_modal_Hblock Kf Rf Mf) c' s.
Proof.
  intros Hc.
  rewrite (load_modal_Hblock_reads Kf Rf Mf c s),
          (load_modal_Hblock_reads Kf Rf Mf c' s), Hc.
  reflexivity.
Qed.

(** The build reads of the members it writes their sizes only. *)
Lemma KRM_build_reads_sizes (Kf Rf Mf : D) (c c' : KRM_cache) (s : ChModalAssembly) :
  KRM_cache_sizes c = KRM_cache_sizes c' ->
  KRM_build Kf Rf Mf c s = KRM_build Kf Rf Mf c' s.
Proof.
  intros Hc. unfold KRM_build.
  apply load_modal_Hblock_reads_same.
  apply ComputeModalKRMmatrix_reads_same.
  apply ComputeDampingMatrix_reads_same.
  apply ComputeStiffnessMatrix_reads_same.
  apply ComputeInertialKRMmatrix_reads_same.
  exact Hc.
Qed.

(** The sizes of the members zeroed in place are kept. *)
Lemma inertial_velocity_blocks_dims (s : ChModalAssembly) (v_mod : mat D) :
  dims (fst3 (inertial_velocity_blocks s v_mod)) = dims (V s) /\
  dims (snd3 (inertial_velocity_blocks s v_mod)) = dims (O_B s) /\
  dims (thd3 (inertial_velocity_blocks s v_mod)) = dims (O_F s).
Proof.
  unfold inertial_velocity_blocks. repeat split.
  - apply (for_int_frame (fun m => dims (fst3 m))). intros i [[a b] c]. reflexivity.
  - apply (for_int_frame (fun m => dims (snd3 m))). intros i [[a b] c]. reflexivity.
  - apply (for_int_frame (fun m => dims (thd3 m))). intros i [[a b] c]. reflexivity.
Qed.

Lemma inertial_momentum_blocks_dims (s : ChModalAssembly)
    (a_mod momen centr momen_F coriolis : mat D) :
  dims (fst3 (fst (inertial_momentum_blocks s a_mod momen centr momen_F coriolis)))
    = dims (V_acc s) /\
  dims (snd3 (fst (inertial_momentum_blocks s a_mod momen centr momen_F coriolis)))
    = dims (V_rmom s) /\
  dims (thd3 (fst (inertial_momentum_blocks s a_mod momen centr momen_F coriolis)))
    = dims (O_thetamom s) /\
  dims (fst3 (snd (inertial_momentum_blocks s a_mod momen centr momen_F coriolis)))
    = dims (V_F1 s) /\
  dims (snd3 (snd (inertial_momentum_blocks s a_mod momen centr momen_F coriolis)))
    = dims (V_F2 s) /\
  dims (thd3 (snd (inertial_momentum_blocks s a_mod momen centr momen_F coriolis)))
    = dims (V_F3 s).
Proof.
  unfold inertial_momentum_blocks. repeat split.
  - apply (for_int_frame (fun m => dims (fst3 (fst m)))).
    intros i [[[a b] c] [[d e] f]]. reflexivity.
  - apply (for_int_frame (fun m => dims (snd3 (fst m)))).
    intros i [[[a b] c] [[d e] f]]. reflexivity.
  - apply (for_int_frame (fun m => dims (thd3 (fst m)))).
    intros i [[[a b] c] [[d e] f]]. reflexivity.
  - apply (for_int_frame (fun m => dims (fst3 (snd m)))).
    intros i [[[a b] c] [[d e] f]]. reflexivity.
  - apply (for_int_frame (fun m => dims (snd3 (snd m)))).
    intros i [[[a b] c] [[d e] f]]. reflexivity.
  - apply (for_int_frame (fun m => dims (thd3 (snd m)))).
    intros i [[[a b] c] [[d e] f]]. reflexivity.
Qed.

Lemma ComputeInertialKRMmatrix_velocity_blocks (s : ChModalAssembly) :
  V (ComputeInertialKRMmatrix s)
    = fst3 (inertial_velocity_blocks s (snd (gather_reduced s))) /\
  O_B (ComputeInertialKRMmatrix s)
    = snd3 (inertial_velocity_blocks s (snd (gather_reduced s))) /\
  O_F (ComputeInertialKRMmatrix s)
    = thd3 (inertial_velocity_blocks s (snd (gather_reduced s))).
Proof. split; [kernel_refl|]. split; kernel_refl. Qed.

Lemma ComputeInertialKRMmatrix_momentum_blocks (s : ChModalAssembly) :
  exists (s' : ChModalAssembly) (a_mod momen centr momen_F coriolis : mat D),
    (dims (V_acc s') = dims (V_acc s) /\ dims (V_rmom s') = dims (V_rmom s) /\
     dims (O_thetamom s') = dims (O_thetamom s) /\ dims (V_F1 s') = dims (V_F1 s) /\
     dims (V_F2 s') = dims (V_F2 s) /\ dims (V_F3 s') = dims (V_F3 s)) /\
    V_acc (ComputeInertialKRMmatrix s)
      = fst3 (fst (inertial_momentum_blocks s' a_mod momen centr momen_F coriolis)) /\
    V_rmom (ComputeInertialKRMmatrix s)
      = snd3 (fst (inertial_momentum_blocks s' a_mod momen centr momen_F coriolis)) /\
    O_thetamom (ComputeInertialKRMmatrix s)
      = thd3 (fst (inertial_momentum_blocks s' a_mod momen centr momen_F coriolis)) /\
    V_F1 (ComputeInertialKRMmatrix s)
      = fst3 (snd (inertial_momentum_blocks s' a_mod momen centr momen_F coriolis)) /\
    V_F2 (ComputeInertialKRMmatrix s)
      = snd3 (snd (inertial_momentum_blocks s' a_mod momen centr momen_F coriolis)) /\
    V_F3 (ComputeInertialKRMmatrix s)
      = thd3 (snd (inertial_momentum_blocks s' a_mod momen centr momen_F coriolis)).
Proof.
  pose (v_mod := snd (gather_reduced s)).
  pose (a_mod := IntStateGatherAcceleration s 0
                   (vzero (idx (n_boundary_coords_w s + n_modes_coords_w s)))).
  pose (blocks := inertial_velocity_blocks s v_mod).
  pose (s' := set_O_F (thd3 blocks) (set_O_B (snd3 blocks) (set_V (fst3 blocks) s))).
  pose (momen := mmul (M_red s') (mmul (mtranspose (P_W s')) v_mod)).
  pose (centr := mmul (M_red s') (mmul (mtranspose (P_W s')) a_mod)).
  pose (momen_F := mmul (O_F s') momen).
  pose (coriolis := mmul (M_red s') (mmul (V s') (mmul (U s') v_mod))).
  exists s', a_mod, momen, centr, momen_F, coriolis.
  split; [repeat split; reflexivity|].
  do 5 (split; [kernel_refl|]). kernel_refl.
Qed.

Lemma ComputeInertialKRMmatrix_sizes (s : ChModalAssembly) :
  KRM_cache_sizes (KRM_cache_of (ComputeInertialKRMmatrix s)) =
  KRM_cache_sizes (KRM_cache_of s).
Proof.
  rewrite !KRM_cache_sizes_of.
  destruct (ComputeInertialKRMmatrix_velocity_blocks s) as (HV & HOB & HOF).
  destruct (inertial_velocity_blocks_dims s (snd (gather_reduced s)))
    as (HdV & HdOB & HdOF).
  destruct (ComputeInertialKRMmatrix_momentum_blocks s)
    as (s' & a_mod & momen & centr & momen_F & coriolis & Hs' & H1 & H2 & H3 & H4 & H5 & H6).
  destruct Hs' as (Hs1 & Hs2 & Hs3 & Hs4 & Hs5 & Hs6).
  destruct (inertial_momentum_blocks_dims s' a_mod momen centr momen_F coriolis)
    as (Hd1 & Hd2 & Hd3 & Hd4 & Hd5 & Hd6).
  rewrite (@mzero_like_dims _ _ (V (ComputeInertialKRMmatrix s)) (V s))
    by (rewrite HV; exact HdV).
  rewrite (@mzero_like_dims _ _ (O_B (ComputeInertialKRMmatrix s)) (O_B s))
    by (rewrite HOB; exact HdOB).
  rewrite (@mzero_like_dims _ _ (O_F (ComputeInertialKRMmatrix s)) (O_F s))
    by (rewrite HOF; exact HdOF).
  rewrite (@mzero_like_dims _ _ (V_acc (ComputeInertialKRMmatrix s)) (V_acc s))
    by (rewrite H1, Hd1; exact Hs1).
  rewrite (@mzero_like_dims _ _ (V_rmom (ComputeInertialKRMmatrix s)) (V_rmom s))
    by (rewrite H2, Hd2; exact Hs2).
  rewrite (@mzero_like_dims _ _ (O_thetamom (ComputeInertialKRMmatrix s)) (O_thetamom s))
    by (rewrite H3, Hd3; exact Hs3).
  rewrite (@mzero_like_dims _ _ (V_F1 (ComputeInertialKRMmatrix s)) (V_F1 s))
    by (rewrite H4, Hd4; exact Hs4).
  rewrite (@mzero_like_dims _ _ (V_F2 (ComputeInertialKRMmatrix s)) (V_F2 s))
    by (rewrite H5, Hd5; exact Hs5).
  rewrite (@mzero_like_dims _ _ (V_F3 (ComputeInertialKRMmatrix s)) (V_F3 s))
    by (rewrite H6, Hd6; exact Hs6).
  reflexivity.
Qed.

Lemma ComputeStiffnessMatrix_sizes (s : ChModalAssembly) :
  KRM_cache_sizes (KRM_cache_of (ComputeStiffnessMatrix s)) =
  KRM_cache_sizes (KRM_cache_of s).
Proof. kernel_refl. Qed.

Lemma ComputeDampingMatrix_sizes (s : ChModalAssembly) :
  KRM_cache_sizes (KRM_cache_of (ComputeDampingMatrix s)) =
  KRM_cache_sizes (KRM_cache_of s).
Proof. kernel_refl. Qed.

Lemma ComputeModalKRMmatrix_sizes (s : ChModalAssembly) :
  KRM_cache_sizes (KRM_cache_of (ComputeModalKRMmatrix s)) =
  KRM_cache_sizes (KRM_cache_of s).
Proof. kernel_refl. Qed.

Lemma load_modal_Hblock_sizes (Kf Rf Mf : D) (s : ChModalAssembly) :
  KRM_cache_sizes (KRM_cache_of (load_modal_Hblock Kf Rf Mf s)) =
  KRM_cache_sizes (KRM_cache_of s).
Proof. kernel_refl. Qed.

Lemma KRM_step_sizes (f : ChModalAssembly -> ChModalAssembly) :
  (forall t, KRM_cache_sizes (KRM_cache_of (f t)) = KRM_cache_sizes (KRM_cache_of t)) ->
  forall c s, KRM_cache_sizes (KRM_step f c s) = KRM_cache_sizes c.
Proof.
  intros Hf c s. unfold KRM_step. rewrite Hf. apply KRM_cache_sizes_write.
Qed.

Lemma KRM_build_sizes (Kf Rf Mf : D) (c : KRM_cache) (s : ChModalAssembly) :
  KRM_cache_sizes (KRM_build Kf Rf Mf c s) = KRM_cache_sizes c.
Proof.
  unfold KRM_build.
  rewrite (KRM_step_sizes _ (load_modal_Hblock_sizes Kf Rf Mf)).
  rewrite (KRM_step_sizes _ ComputeModalKRMmatrix_sizes).
  rewrite (KRM_step_sizes _ ComputeDampingMatrix_sizes).
  rewrite (KRM_step_sizes _ ComputeStiffnessMatrix_sizes).
  apply (KRM_step_sizes _ ComputeInertialKRMmatrix_sizes).
Qed.

(** The modal branch, step by step over the written members. *)
Lemma KRMmatricesLoad_modal_eq (Kf Rf Mf : D) (s : ChModalAssembly) :
  KRMmatricesLoad_modal Kf Rf Mf s =
  load_modal_Hblock Kf Rf Mf
    (ComputeModalKRMmatrix
       (ComputeDampingMatrix (ComputeStiffnessMatrix (ComputeInertialKRMmatrix s)))).
Proof. reflexivity. Qed.

Lemma KRMmatricesLoad_modal_write (Kf Rf Mf : D) (c : KRM_cache) (s : ChModalAssembly) :
  KRMmatricesLoad_modal Kf Rf Mf (KRM_cache_write c s) =
  KRM_cache_write (KRM_build Kf Rf Mf c s) s.
Proof.
  rewrite KRMmatricesLoad_modal_eq. unfold KRM_build.
  rewrite (KRM_step_write _ ComputeInertialKRMmatrix_frame).
  rewrite (KRM_step_write _ ComputeStiffnessMatrix_frame).
  rewrite (KRM_step_write _ ComputeDampingMatrix_frame).
  rewrite (KRM_step_write _ ComputeModalKRMmatrix_frame).
  apply (KRM_step_write _ (load_modal_Hblock_frame Kf Rf Mf)).
Qed.

Lemma KRMmatricesLoad_modal_build (Kf Rf Mf : D) (s : ChModalAssembly) :
  KRMmatricesLoad_modal Kf Rf Mf s =
  KRM_cache_write (KRM_build Kf Rf Mf (KRM_cache_of s) s) s.
Proof.
  transitivity (KRMmatricesLoad_modal Kf Rf Mf (KRM_cache_write (KRM_cache_of s) s)).
  - rewrite KRM_cache_write_of. reflexivity.
  - apply KRMmatricesLoad_modal_write.
Qed.

Lemma KRMmatricesLoad_modal_idempotent (Kf Rf Mf : D) (s : ChModalAssembly) :
  KRMmatricesLoad_modal Kf Rf Mf (KRMmatricesLoad_modal Kf Rf Mf s) =
  KRMmatricesLoad_modal Kf Rf Mf s.
Proof.
  rewrite (KRMmatricesLoad_modal_build Kf Rf Mf s).
  rewrite KRMmatricesLoad_modal_write.
  apply (f_equal (fun c => KRM_cache_write c s)).
  apply KRM_build_reads_sizes. apply KRM_build_sizes.
Qed.

Lemma KRMmatricesLoad_modal_frame (Kf Rf Mf : D) (s : ChModalAssembly) :
  KRMmatricesLoad_modal Kf Rf Mf s =
  KRM_cache_write (KRM_cache_of (KRMmatricesLoad_modal Kf Rf Mf s)) s.
Proof.
  rewrite (KRMmatricesLoad_modal_build Kf Rf Mf s).
  symmetry. apply KRM_cache_write_of_write.
Qed.

Lemma KRMmatricesLoad_modal_case (Kf Rf Mf : D) (s : ChModalAssembly) :
  is_modal s = true ->
  KRMmatricesLoad Kf Rf Mf s = KRMmatricesLoad_modal Kf Rf Mf s.
Proof. intros Hmodal. unfold KRMmatricesLoad. rewrite Hmodal. reflexivity. Qed.

Lemma is_modal_KRMmatricesLoad_modal (Kf Rf Mf : D) (s : ChModalAssembly) :
  is_modal (KRMmatricesLoad_modal Kf Rf Mf s) = is_modal s.
Proof.
  rewrite (KRMmatricesLoad_modal_build Kf Rf Mf s).
  apply is_modal_KRM_cache_write.
Qed.

(** C9.  In modal mode the per-step build driven by KRMmatricesLoad
    (ComputeInertialKRMmatrix, ComputeStiffnessMatrix, ComputeDampingMatrix,
    ComputeModalKRMmatrix and the load of the modal block) gives, when it is
    run a second time with the same factors, the state of the first run:
    modal_M, modal_K, modal_R, the inertial and geometric blocks, g_quad and
    every other member are the same.  And a run changes nothing but the
    members that hold these matrices: putting its matrices into the state it
    started from gives the state it ends in. *)
Theorem KRMmatricesLoad_modal_twice (Kf Rf Mf : D) (s : ChModalAssembly) :
  is_modal s = true ->
  KRMmatricesLoad Kf Rf Mf (KRMmatricesLoad Kf Rf Mf s) = KRMmatricesLoad Kf Rf Mf s /\
  KRMmatricesLoad Kf Rf Mf s =
    KRM_cache_write (KRM_cache_of (KRMmatricesLoad Kf Rf Mf s)) s.
Proof.
  intros Hmodal.
  rewrite (KRMmatricesLoad_modal_case Kf Rf Mf s Hmodal).
  split.
  - rewrite KRMmatricesLoad_modal_case
      by (rewrite is_modal_KRMmatricesLoad_modal; exact Hmodal).
    apply KRMmatricesLoad_modal_idempotent.
  - apply KRMmatricesLoad_modal_frame.
Qed.

End BuildFacts.

(* -------------------------------------------------------------------------- *)
(*  The bordered matrix of util_sparse_assembly_2x2symm                        *)
(* -------------------------------------------------------------------------- *)

(** Decide the comparisons of indices that stand in a goal. *)
Ltac index_cases :=
  repeat match goal with
         | |- context [(?a <? ?b)%nat] => destruct (Nat.ltb_spec a b)
         | |- context [(?a <=? ?b)%nat] => destruct (Nat.leb_spec a b)
         | |- context [(?a =? ?b)%nat] => destruct (Nat.eqb_spec a b)
         end;
  cbn [andb orb negb]; try lia.

Section BorderedFacts.

Context {D : Type} {SD : Scalar D}.

Lemma coef_set_block (A X : mat D) i j p q a b :
  coef (set_block A i j p q X) a b =
  if ((a <? mrows A) && (b <? mcols A))%nat
  then if ((i <=? a) && (a <? i + p) && (j <=? b) && (b <? j + q))%nat
       then coef X (a - i) (b - j)
       else coef A a b
  else d0.
Proof. unfold set_block. apply coef_mbuild. Qed.

Lemma coef_mzero r c i j : coef (mzero r c : mat D) i j = d0.
Proof.
  unfold mzero. rewrite coef_mbuild.
  destruct ((i <? r) && (j <? c))%nat; reflexivity.
Qed.

Lemma coef_mtranspose (A : mat D) i j : coef (mtranspose A) i j = coef A j i.
Proof.
  unfold mtranspose. rewrite coef_mbuild.
  destruct (i <? mcols A)%nat eqn:Hi; simpl.
  - destruct (j <? mrows A)%nat eqn:Hj; simpl; [reflexivity|].
    apply Nat.ltb_ge in Hj. symmetry. apply coef_outside. left. exact Hj.
  - apply Nat.ltb_ge in Hi. symmetry. apply coef_outside. right. exact Hi.
Qed.

Lemma coef_util_sparse_assembly_2x2symm (H Cq : mat D) a b :
  mcols H = mrows H -> mcols Cq = mrows H ->
  coef (util_sparse_assembly_2x2symm H Cq) a b =
  if (a <? mrows H)%nat
  then if (b <? mrows H)%nat then coef H a b
       else coef Cq (b - mrows H) a
  else if (b <? mrows H)%nat then coef Cq (a - mrows H) b
       else d0.
Proof.
  intros HH HCq. unfold util_sparse_assembly_2x2symm.
  rewrite !coef_set_block, coef_mzero, coef_mtranspose.
  cbn [mrows mcols set_block mzero mbuild].
  rewrite HH, HCq.
  index_cases; rewrite ?Nat.sub_0_r; try reflexivity;
    symmetry; apply coef_outside; lia.
Qed.

Lemma mbuild_coef r c (f : nat -> nat -> D) :
  mbuild r c f = mbuild r c (fun i j => coef (mbuild r c f) i j).
Proof.
  apply mbuild_ext. intros i j Hi Hj. symmetry. apply coef_mbuild_in; assumption.
Qed.

(** X1.  For a square H of size n_v and a Cq of n_c rows and n_v columns,
    util_sparse_assembly_2x2symm gives a square matrix of size n_v + n_c
    whose four blocks are H, the transpose of Cq to its right, Cq below it,
    and zero in the corner. *)
Theorem util_sparse_assembly_2x2symm_blocks (H Cq : mat D) :
  mcols H = mrows H -> mcols Cq = mrows H ->
  dims (util_sparse_assembly_2x2symm H Cq) =
    ((mrows H + mrows Cq)%nat, (mrows H + mrows Cq)%nat) /\
  block (util_sparse_assembly_2x2symm H Cq) 0 0 (mrows H) (mrows H) =
    block H 0 0 (mrows H) (mrows H) /\
  block (util_sparse_assembly_2x2symm H Cq) 0 (mrows H) (mrows H) (mrows Cq) =
    mtranspose Cq /\
  block (util_sparse_assembly_2x2symm H Cq) (mrows H) 0 (mrows Cq) (mrows H) =
    block Cq 0 0 (mrows Cq) (mrows H) /\
  block (util_sparse_assembly_2x2symm H Cq) (mrows H) (mrows H) (mrows Cq) (mrows Cq) =
    mzero (mrows Cq) (mrows Cq).
Proof.
  intros HH HCq. split; [reflexivity|].
  split; [|split; [|split]].
  - unfold block. apply mbuild_ext. intros a b Ha Hb.
    rewrite coef_util_sparse_assembly_2x2symm by assumption.
    index_cases. reflexivity.
  - unfold block, mtranspose. rewrite HCq. apply mbuild_ext. intros a b Ha Hb.
    rewrite coef_util_sparse_assembly_2x2symm by assumption.
    index_cases. simpl. f_equal. lia.
  - unfold block. apply mbuild_ext. intros a b Ha Hb.
    rewrite coef_util_sparse_assembly_2x2symm by assumption.
    index_cases. simpl. f_equal. lia.
  - unfold block, mzero. apply mbuild_ext. intros a b Ha Hb.
    rewrite coef_util_sparse_assembly_2x2symm by assumption.
    index_cases. reflexivity.
Qed.

(** X2.  The bordered matrix of util_sparse_assembly_2x2symm is symmetric
    whenever H is (and Cq has as many columns as H has rows). *)
Theorem util_sparse_assembly_2x2symm_symmetric (H Cq : mat D) :
  mtranspose H = H -> mcols Cq = mrows H ->
  mtranspose (util_sparse_assembly_2x2symm H Cq) = util_sparse_assembly_2x2symm H Cq.
Proof.
  intros Hsym HCq.
  assert (mcols H = mrows H) as HH.
  { change (mcols H) with (mrows (mtranspose H)). rewrite Hsym. reflexivity. }
  assert (forall a b, coef H a b = coef H b a) as Hcoef.
  { intros a b. rewrite <- Hsym at 1. apply coef_mtranspose. }
  transitivity
    (mbuild (mrows H + mrows Cq) (mrows H + mrows Cq)
       (fun i j => coef (util_sparse_assembly_2x2symm H Cq) i j)).
  - unfold mtranspose at 1.
    change (mcols (util_sparse_assembly_2x2symm H Cq)) with (mrows H + mrows Cq)%nat.
    change (mrows (util_sparse_assembly_2x2symm H Cq)) with (mrows H + mrows Cq)%nat.
    apply mbuild_ext. intros i j Hi Hj.
    rewrite !coef_util_sparse_assembly_2x2symm by assumption.
    index_cases; try reflexivity. apply Hcoef.
  - symmetry. unfold util_sparse_assembly_2x2symm at 1.
    unfold set_block at 1. apply mbuild_coef.
Qed.

End BorderedFacts.

(* -------------------------------------------------------------------------- *)
(*  More on Setup                                                              *)
(* -------------------------------------------------------------------------- *)

Section SetupFacts.

Context {D : Type} {SD : Scalar D} {C : Collaborators D} {E : Surroundings D}.

Lemma Setup_totals_full_totals (t : ChModalAssembly) :
  ncoords (base (Setup_totals_full t)) =
    n_boundary_coords (Setup_totals_full t) + n_internal_coords (Setup_totals_full t) /\
  ncoords_w (base (Setup_totals_full t)) =
    n_boundary_coords_w (Setup_totals_full t) + n_internal_coords_w (Setup_totals_full t) /\
  ndoc (base (Setup_totals_full t)) =
    n_boundary_doc (Setup_totals_full t) + n_internal_doc (Setup_totals_full t) /\
  ndoc_w (base (Setup_totals_full t)) =
    n_boundary_doc_w (Setup_totals_full t) + n_internal_doc_w (Setup_totals_full t) /\
  ndoc_w_C (base (Setup_totals_full t)) =
    n_boundary_doc_w_C (Setup_totals_full t) + n_internal_doc_w_C (Setup_totals_full t) /\
  ndoc_w_D (base (Setup_totals_full t)) =
    n_boundary_doc_w_D (Setup_totals_full t) + n_internal_doc_w_D (Setup_totals_full t) /\
  nsysvars (base (Setup_totals_full t)) =
    n_boundary_sysvars (Setup_totals_full t) + n_internal_sysvars (Setup_totals_full t) /\
  nsysvars_w (base (Setup_totals_full t)) =
    n_boundary_sysvars_w (Setup_totals_full t) + n_internal_sysvars_w (Setup_totals_full t) /\
  ndof (base (Setup_totals_full t)) =
    n_boundary_dof (Setup_totals_full t) + n_internal_dof (Setup_totals_full t).
Proof.
  do 8 (split; [kernel_refl|]). kernel_refl.
Qed.

Lemma Setup_totals_full_counts (t : ChModalAssembly) :
  nbodies (base (Setup_totals_full t)) = nbodies (base t) + n_internal_bodies t /\
  nlinks (base (Setup_totals_full t)) = nlinks (base t) + n_internal_links t /\
  nmeshes (base (Setup_totals_full t)) = nmeshes (base t) + n_internal_meshes t /\
  nphysicsitems (base (Setup_totals_full t)) =
    nphysicsitems (base t) + n_internal_physicsitems t /\
  n_boundary_bodies (Setup_totals_full t) = n_boundary_bodies t /\
  n_boundary_links (Setup_totals_full t) = n_boundary_links t /\
  n_boundary_meshes (Setup_totals_full t) = n_boundary_meshes t /\
  n_boundary_physicsitems (Setup_totals_full t) = n_boundary_physicsitems t /\
  n_internal_bodies (Setup_totals_full t) = n_internal_bodies t /\
  n_internal_links (Setup_totals_full t) = n_internal_links t /\
  n_internal_meshes (Setup_totals_full t) = n_internal_meshes t /\
  n_internal_physicsitems (Setup_totals_full t) = n_internal_physicsitems t.
Proof. do 11 (split; [kernel_refl|]). kernel_refl. Qed.

(** X3.  In full mode every total that Setup leaves in the parent is the
    boundary count plus the internal count: the coordinates, the
    constraints, the system variables, the degrees of freedom, and the
    numbers of bodies, links, meshes and other items. *)
Theorem Setup_full_totals (s : ChModalAssembly) :
  is_modal s = false ->
  ncoords (base (Setup s)) = n_boundary_coords (Setup s) + n_internal_coords (Setup s) /\
  ncoords_w (base (Setup s)) =
    n_boundary_coords_w (Setup s) + n_internal_coords_w (Setup s) /\
  ndoc (base (Setup s)) = n_boundary_doc (Setup s) + n_internal_doc (Setup s) /\
  ndoc_w (base (Setup s)) = n_boundary_doc_w (Setup s) + n_internal_doc_w (Setup s) /\
  ndoc_w_C (base (Setup s)) =
    n_boundary_doc_w_C (Setup s) + n_internal_doc_w_C (Setup s) /\
  ndoc_w_D (base (Setup s)) =
    n_boundary_doc_w_D (Setup s) + n_internal_doc_w_D (Setup s) /\
  nsysvars (base (Setup s)) = n_boundary_sysvars (Setup s) + n_internal_sysvars (Setup s) /\
  nsysvars_w (base (Setup s)) =
    n_boundary_sysvars_w (Setup s) + n_internal_sysvars_w (Setup s) /\
  ndof (base (Setup s)) = n_boundary_dof (Setup s) + n_internal_dof (Setup s) /\
  nbodies (base (Setup s)) = n_boundary_bodies (Setup s) + n_internal_bodies (Setup s) /\
  nlinks (base (Setup s)) = n_boundary_links (Setup s) + n_internal_links (Setup s) /\
  nmeshes (base (Setup s)) = n_boundary_meshes (Setup s) + n_internal_meshes (Setup s) /\
  nphysicsitems (base (Setup s)) =
    n_boundary_physicsitems (Setup s) + n_internal_physicsitems (Setup s).
Proof.
  intros Hfull.
  pose proof (is_modal_internal_pass s) as Hm. rewrite Hfull in Hm.
  pose proof (boundary_counts_Setup_internal (Setup_boundary s)) as Hb.
  rewrite Setup_boundary_counts in Hb.
  rewrite Setup_eq.
  revert Hm Hb. generalize (Setup_internal (Setup_boundary s)).
  generalize (Setup_boundary s). intros s0 t Ht Hb.
  rewrite (Setup_totals_full_case t Ht).
  destruct (Setup_totals_full_totals t)
    as (H1 & H2 & H3 & H4 & H5 & H6 & H7 & H8 & H9).
  destruct (Setup_totals_full_counts t)
    as (Hn1 & Hn2 & Hn3 & Hn4 & Hb1 & Hb2 & Hb3 & Hb4 & Hi1 & Hi2 & Hi3 & Hi4).
  unfold boundary_counts in Hb.
  injection Hb as Hbase Hc1 Hc2 Hc3 Hc4.
  repeat (split; [assumption|]).
  rewrite Hn1, Hn2, Hn3, Hn4, Hb1, Hb2, Hb3, Hb4, Hi1, Hi2, Hi3, Hi4, Hbase.
  rewrite Hc1, Hc2, Hc3, Hc4. repeat split; reflexivity.
Qed.

Lemma internal_derived_finish (t : ChModalAssembly) :
  internal_derived (Setup_internal_finish t).
Proof.
  unfold internal_derived. do 4 (split; [kernel_refl|]). kernel_refl.
Qed.

Lemma internal_derived_totals_full (t : ChModalAssembly) :
  internal_derived t -> internal_derived (Setup_totals_full t).
Proof.
  unfold internal_derived. intros (H1 & H2 & H3 & H4 & H5).
  split; [kernel_via H1|]. split; [kernel_via H2|]. split; [kernel_via H3|].
  split; [kernel_via H4|]. kernel_via H5.
Qed.

Lemma internal_derived_totals_modal (t : ChModalAssembly) :
  internal_derived t -> internal_derived (Setup_totals_modal t).
Proof.
  unfold internal_derived. intros (H1 & H2 & H3 & H4 & H5).
  split; [kernel_via H1|]. split; [kernel_via H2|]. split; [kernel_via H3|].
  split; [kernel_via H4|]. kernel_via H5.
Qed.

(** X4.  After every Setup, in either mode, the derived internal statistics
    agree with the counted ones (n_internal_doc = n_internal_doc_w +
    n_internal_bodies, n_internal_sysvars = n_internal_coords +
    n_internal_doc, n_internal_sysvars_w = n_internal_coords_w +
    n_internal_doc_w, n_internal_dof = n_internal_coords_w -
    n_internal_doc_w), and the custom force of the full system is reset to
    the zero vector of n_boundary_coords_w + n_internal_coords_w entries. *)
Theorem Setup_internal_derived (s : ChModalAssembly) :
  n_internal_doc (Setup s) = n_internal_doc_w (Setup s) + n_internal_bodies (Setup s) /\
  n_internal_sysvars (Setup s) = n_internal_coords (Setup s) + n_internal_doc (Setup s) /\
  n_internal_sysvars_w (Setup s) =
    n_internal_coords_w (Setup s) + n_internal_doc_w (Setup s) /\
  n_internal_dof (Setup s) = n_internal_coords_w (Setup s) - n_internal_doc_w (Setup s) /\
  custom_F_full (Setup s) =
    vzero (idx (n_boundary_coords_w (Setup s) + n_internal_coords_w (Setup s))).
Proof.
  change (internal_derived (Setup s)).
  rewrite Setup_eq. unfold Setup_internal.
  generalize (Setup_internal_others
                (Setup_internal_meshes
                   (Setup_internal_links
                      (Setup_internal_bodies
                         (Setup_internal_reset (Setup_boundary s)))))).
  intros t. pose proof (internal_derived_finish t) as Hd.
  revert Hd. generalize (Setup_internal_finish t). clear t. intros t Hd.
  destruct (is_modal t) eqn:Ht.
  - rewrite (Setup_totals_modal_case t Ht). apply internal_derived_totals_modal, Hd.
  - rewrite (Setup_totals_full_case t Ht). apply internal_derived_totals_full, Hd.
Qed.

(** A range-for loop neither adds nor drops an element. *)
Lemma for_each_length {A St : Type} (body : A -> St -> A * St) :
  forall l s, length (fst (for_each body l s)) = length l.
Proof.
  induction l as [|x l IH]; intros s; simpl; [reflexivity|].
  destruct (body x s) as [x' s'].
  pose proof (IH s') as Hl. destruct (for_each body l s') as [l' s''].
  simpl in *. rewrite Hl. reflexivity.
Qed.

(** A counter that the body raises by one for the elements that pass a test
    ends raised by the number of such elements. *)
Lemma for_each_count {A St : Type} (view : St -> Z) (p : A -> bool)
    (body : A -> St -> A * St) :
  (forall x s, view (snd (body x s)) = view s + (if p x then 1 else 0)) ->
  forall l s,
    view (snd (for_each body l s)) = view s + Z.of_nat (length (filter p l)).
Proof.
  intros Hbody. induction l as [|x l IH]; intros s; simpl.
  - lia.
  - pose proof (Hbody x s) as Hx. destruct (body x s) as [x' s']. simpl in Hx.
    pose proof (IH s') as Hl. destruct (for_each body l s') as [l' s''].
    simpl in *. rewrite Hl, Hx. destruct (p x); simpl length; lia.
Qed.

Lemma internal_lists_Setup_internal_body x s :
  internal_lists (snd (Setup_internal_body x s)) = internal_lists s.
Proof.
  unfold Setup_internal_body.
  destruct (GetBodyFixed x); [reflexivity|].
  destruct (GetSleeping x); [reflexivity|]. kernel_refl.
Qed.

Lemma internal_lists_Setup_internal_link x s :
  internal_lists (snd (Setup_internal_link x s)) = internal_lists s.
Proof.
  unfold Setup_internal_link. destruct (IsActive x); [|reflexivity]. kernel_refl.
Qed.

Lemma internal_lists_Setup_internal_mesh x s :
  internal_lists (snd (Setup_internal_mesh x s)) = internal_lists s.
Proof. kernel_refl. Qed.

Lemma internal_lists_Setup_internal_other x s :
  internal_lists (snd (Setup_internal_other x s)) = internal_lists s.
Proof. kernel_refl. Qed.

Lemma internal_sizes_set_bodylist l s :
  length l = length (internal_bodylist s) ->
  internal_sizes (set_internal_bodylist l s) = internal_sizes s.
Proof.
  intros Hl. unfold internal_sizes.
  change (internal_bodylist (set_internal_bodylist l s)) with l.
  rewrite Hl. kernel_refl.
Qed.

Lemma internal_sizes_set_linklist l s :
  length l = length (internal_linklist s) ->
  internal_sizes (set_internal_linklist l s) = internal_sizes s.
Proof.
  intros Hl. unfold internal_sizes.
  change (internal_linklist (set_internal_linklist l s)) with l.
  rewrite Hl. kernel_refl.
Qed.

Lemma internal_sizes_set_meshlist l s :
  length l = length (internal_meshlist s) ->
  internal_sizes (set_internal_meshlist l s) = internal_sizes s.
Proof.
  intros Hl. unfold internal_sizes.
  change (internal_meshlist (set_internal_meshlist l s)) with l.
  rewrite Hl. kernel_refl.
Qed.

Lemma internal_sizes_set_otherphysicslist l s :
  length l = length (internal_otherphysicslist s) ->
  internal_sizes (set_internal_otherphysicslist l s) = internal_sizes s.
Proof.
  intros Hl. unfold internal_sizes.
  change (internal_otherphysicslist (set_internal_otherphysicslist l s)) with l.
  rewrite Hl. kernel_refl.
Qed.

Lemma internal_sizes_of_lists s t :
  internal_lists s = internal_lists t -> internal_sizes s = internal_sizes t.
Proof.
  unfold internal_lists, internal_sizes. intros H.
  injection H as H1 H2 H3 H4. rewrite H1, H2, H3, H4. reflexivity.
Qed.

Lemma internal_sizes_Setup_internal s :
  internal_sizes (Setup_internal s) = internal_sizes s.
Proof.
  unfold Setup_internal.
  transitivity (internal_sizes (Setup_internal_reset s)); [|kernel_refl].
  generalize (Setup_internal_reset s). clear s. intros s.
  transitivity (internal_sizes (Setup_internal_bodies s)).
  2:{ unfold Setup_internal_bodies.
      rewrite internal_sizes_set_bodylist.
      - apply internal_sizes_of_lists.
        apply (for_each_frame internal_lists), internal_lists_Setup_internal_body.
      - rewrite for_each_length.
        pose proof (for_each_frame internal_lists Setup_internal_body
                      internal_lists_Setup_internal_body (internal_bodylist s) s) as Hf.
        unfold internal_lists in Hf. injection Hf as H1 H2 H3 H4.
        rewrite H1. reflexivity. }
  generalize (Setup_internal_bodies s). clear s. intros s.
  transitivity (internal_sizes (Setup_internal_links s)).
  2:{ unfold Setup_internal_links.
      rewrite internal_sizes_set_linklist.
      - apply internal_sizes_of_lists.
        apply (for_each_frame internal_lists), internal_lists_Setup_internal_link.
      - rewrite for_each_length.
        pose proof (for_each_frame internal_lists Setup_internal_link
                      internal_lists_Setup_internal_link (internal_linklist s) s) as Hf.
        unfold internal_lists in Hf. injection Hf as H1 H2 H3 H4.
        rewrite H2. reflexivity. }
  generalize (Setup_internal_links s). clear s. intros s.
  transitivity (internal_sizes (Setup_internal_meshes s)).
  2:{ unfold Setup_internal_meshes.
      rewrite internal_sizes_set_meshlist.
      - apply internal_sizes_of_lists.
        apply (for_each_frame internal_lists), internal_lists_Setup_internal_mesh.
      - rewrite for_each_length.
        pose proof (for_each_frame internal_lists Setup_internal_mesh
                      internal_lists_Setup_internal_mesh (internal_meshlist s) s) as Hf.
        unfold internal_lists in Hf. injection Hf as H1 H2 H3 H4.
        rewrite H3. reflexivity. }
  generalize (Setup_internal_meshes s). clear s. intros s.
  transitivity (internal_sizes (Setup_internal_others s)).
  2:{ unfold Setup_internal_others.
      rewrite internal_sizes_set_otherphysicslist.
      - apply internal_sizes_of_lists.
        apply (for_each_frame internal_lists), internal_lists_Setup_internal_other.
      - rewrite for_each_length.
        pose proof (for_each_frame internal_lists Setup_internal_other
                      internal_lists_Setup_internal_other
                      (internal_otherphysicslist s) s) as Hf.
        unfold internal_lists in Hf. injection Hf as H1 H2 H3 H4.
        rewrite H4. reflexivity. }
  generalize (Setup_internal_others s). clear s. intros s.
  kernel_refl.
Qed.

Lemma internal_sizes_Setup_boundary s :
  internal_sizes (Setup_boundary s) = internal_sizes s.
Proof. kernel_refl. Qed.

Lemma internal_sizes_Setup_totals s :
  internal_sizes (Setup_totals s) = internal_sizes s.
Proof.
  destruct (is_modal s) eqn:Hm.
  - rewrite (Setup_totals_modal_case s Hm). kernel_refl.
  - rewrite (Setup_totals_full_case s Hm). kernel_refl.
Qed.

Lemma is_modal_Setup (s : ChModalAssembly) : is_modal (Setup s) = is_modal s.
Proof.
  rewrite Setup_eq.
  transitivity (is_modal (Setup_internal (Setup_boundary s)));
    [|apply is_modal_internal_pass].
  generalize (Setup_internal (Setup_boundary s)). intros t.
  destruct (is_modal t) eqn:Ht.
  - rewrite (Setup_totals_modal_case t Ht), is_modal_Setup_totals_modal. exact Ht.
  - rewrite (Setup_totals_full_case t Ht), is_modal_Setup_totals_full. exact Ht.
Qed.

(** X5.  Setup never switches the mode and never adds or drops an internal
    item: the four internal lists keep their lengths. *)
Theorem Setup_keeps_mode_and_items (s : ChModalAssembly) :
  is_modal (Setup s) = is_modal s /\
  length (internal_bodylist (Setup s)) = length (internal_bodylist s) /\
  length (internal_linklist (Setup s)) = length (internal_linklist s) /\
  length (internal_meshlist (Setup s)) = length (internal_meshlist s) /\
  length (internal_otherphysicslist (Setup s)) = length (internal_otherphysicslist s).
Proof.
  split; [apply is_modal_Setup|].
  assert (internal_sizes (Setup s) = internal_sizes s) as Hs.
  { rewrite Setup_eq, internal_sizes_Setup_totals, internal_sizes_Setup_internal.
    apply internal_sizes_Setup_boundary. }
  unfold internal_sizes in Hs. injection Hs as H1 H2 H3 H4.
  repeat split; assumption.
Qed.


(** What a loop of the internal pass leaves alone. *)
Ltac loop_keeps view body get set :=
  apply (internal_loop_frame view body get set);
  [ intros x u;
    try unfold Setup_internal_body; try unfold Setup_internal_link;
    try (destruct (GetBodyFixed x); [reflexivity|];
         destruct (GetSleeping x); [reflexivity|]);
    try (destruct (IsActive x); [|reflexivity]);
    kernel_refl
  | intros l u; kernel_refl ].

Lemma n_internal_bodies_counted (s : ChModalAssembly) :
  n_internal_bodies (Setup_internal s) =
  Z.of_nat (length (filter counted_body (internal_bodylist s))).
Proof.
  unfold Setup_internal.
  transitivity (n_internal_bodies (Setup_internal_bodies (Setup_internal_reset s))).
  { generalize (Setup_internal_bodies (Setup_internal_reset s)). intros t.
    transitivity (n_internal_bodies (Setup_internal_others
                    (Setup_internal_meshes (Setup_internal_links t)))); [kernel_refl|].
    transitivity (n_internal_bodies (Setup_internal_meshes (Setup_internal_links t))).
    { loop_keeps n_internal_bodies Setup_internal_other
                 internal_otherphysicslist set_internal_otherphysicslist. }
    transitivity (n_internal_bodies (Setup_internal_links t)).
    { loop_keeps n_internal_bodies Setup_internal_mesh
                 internal_meshlist set_internal_meshlist. }
    loop_keeps n_internal_bodies Setup_internal_link
               internal_linklist set_internal_linklist. }
  transitivity
    (n_internal_bodies (Setup_internal_reset s) +
     Z.of_nat (length (filter counted_body
                         (internal_bodylist (Setup_internal_reset s))))).
  2:{ transitivity
        (0 + Z.of_nat (length (filter counted_body (internal_bodylist s))));
        [kernel_refl | lia]. }
  generalize (Setup_internal_reset s). intros t.
  unfold Setup_internal_bodies.
  transitivity (n_internal_bodies
                  (snd (for_each Setup_internal_body (internal_bodylist t) t)));
    [kernel_refl|].
  apply (for_each_count n_internal_bodies counted_body Setup_internal_body).
  intros x u. unfold Setup_internal_body, counted_body.
  destruct (GetBodyFixed x); [simpl; lia|].
  destruct (GetSleeping x); [simpl; lia|].
  kernel_refl.
Qed.

Lemma n_internal_links_counted (s : ChModalAssembly) :
  n_internal_links (Setup_internal s) =
  Z.of_nat (length (filter IsActive (internal_linklist s))).
Proof.
  unfold Setup_internal.
  transitivity (n_internal_links
                  (Setup_internal_links
                     (Setup_internal_bodies (Setup_internal_reset s)))).
  { generalize (Setup_internal_links
                  (Setup_internal_bodies (Setup_internal_reset s))). intros t.
    transitivity (n_internal_links (Setup_internal_others (Setup_internal_meshes t)));
      [kernel_refl|].
    transitivity (n_internal_links (Setup_internal_meshes t)).
    { loop_keeps n_internal_links Setup_internal_other
                 internal_otherphysicslist set_internal_otherphysicslist. }
    loop_keeps n_internal_links Setup_internal_mesh
               internal_meshlist set_internal_meshlist. }
  assert (n_internal_links (Setup_internal_bodies (Setup_internal_reset s)) = 0 /\
          internal_linklist (Setup_internal_bodies (Setup_internal_reset s)) =
          internal_linklist s) as [H0 Hl].
  { split.
    - transitivity (n_internal_links (Setup_internal_reset s)); [|kernel_refl].
      loop_keeps n_internal_links Setup_internal_body
                 internal_bodylist set_internal_bodylist.
    - transitivity (internal_linklist (Setup_internal_reset s)); [|kernel_refl].
      loop_keeps internal_linklist Setup_internal_body
                 internal_bodylist set_internal_bodylist. }
  rewrite <- Hl. revert H0.
  generalize (Setup_internal_bodies (Setup_internal_reset s)). intros t H0.
  unfold Setup_internal_links.
  transitivity (n_internal_links
                  (snd (for_each Setup_internal_link (internal_linklist t) t)));
    [kernel_refl|].
  transitivity (n_internal_links t + Z.of_nat (length (filter IsActive (internal_linklist t))));
    [|rewrite H0; lia].
  apply (for_each_count n_internal_links IsActive Setup_internal_link).
  intros x u. unfold Setup_internal_link.
  destruct (IsActive x); [kernel_refl | simpl; lia].
Qed.

Lemma filter_all {A : Type} (l : list A) : filter (fun _ => true) l = l.
Proof. induction l as [|x l IH]; simpl; [reflexivity | rewrite IH; reflexivity]. Qed.

Lemma n_internal_meshes_counted (s : ChModalAssembly) :
  n_internal_meshes (Setup_internal s) = Z.of_nat (length (internal_meshlist s)).
Proof.
  unfold Setup_internal.
  transitivity (n_internal_meshes
                  (Setup_internal_meshes
                     (Setup_internal_links
                        (Setup_internal_bodies (Setup_internal_reset s))))).
  { generalize (Setup_internal_meshes
                  (Setup_internal_links
                     (Setup_internal_bodies (Setup_internal_reset s)))). intros t.
    transitivity (n_internal_meshes (Setup_internal_others t)); [kernel_refl|].
    loop_keeps n_internal_meshes Setup_internal_other
               internal_otherphysicslist set_internal_otherphysicslist. }
  assert (n_internal_meshes
            (Setup_internal_links (Setup_internal_bodies (Setup_internal_reset s))) = 0 /\
          internal_meshlist
            (Setup_internal_links (Setup_internal_bodies (Setup_internal_reset s))) =
          internal_meshlist s) as [H0 Hl].
  { split.
    - transitivity (n_internal_meshes (Setup_internal_reset s)); [|kernel_refl].
      transitivity (n_internal_meshes (Setup_internal_bodies (Setup_internal_reset s))).
      + loop_keeps n_internal_meshes Setup_internal_link
                   internal_linklist set_internal_linklist.
      + loop_keeps n_internal_meshes Setup_internal_body
                   internal_bodylist set_internal_bodylist.
    - transitivity (internal_meshlist (Setup_internal_reset s)); [|kernel_refl].
      transitivity (internal_meshlist (Setup_internal_bodies (Setup_internal_reset s))).
      + loop_keeps internal_meshlist Setup_internal_link
                   internal_linklist set_internal_linklist.
      + loop_keeps internal_meshlist Setup_internal_body
                   internal_bodylist set_internal_bodylist. }
  rewrite <- Hl. revert H0.
  generalize (Setup_internal_links (Setup_internal_bodies (Setup_internal_reset s))).
  intros t H0.
  unfold Setup_internal_meshes.
  transitivity (n_internal_meshes
                  (snd (for_each Setup_internal_mesh (internal_meshlist t) t)));
    [kernel_refl|].
  transitivity (n_internal_meshes t + Z.of_nat (length (filter (fun _ => true) (internal_meshlist t))));
    [|rewrite H0, filter_all; lia].
  apply (for_each_count n_internal_meshes (fun _ => true) Setup_internal_mesh).
  intros x u. kernel_refl.
Qed.

Lemma n_internal_physicsitems_counted (s : ChModalAssembly) :
  n_internal_physicsitems (Setup_internal s) =
  Z.of_nat (length (internal_otherphysicslist s)).
Proof.
  unfold Setup_internal.
  transitivity (n_internal_physicsitems
                  (Setup_internal_others
                     (Setup_internal_meshes
                        (Setup_internal_links
                           (Setup_internal_bodies (Setup_internal_reset s))))));
    [kernel_refl|].
  assert (n_internal_physicsitems
            (Setup_internal_meshes
               (Setup_internal_links
                  (Setup_internal_bodies (Setup_internal_reset s)))) = 0 /\
          internal_otherphysicslist
            (Setup_internal_meshes
               (Setup_internal_links
                  (Setup_internal_bodies (Setup_internal_reset s)))) =
          internal_otherphysicslist s) as [H0 Hl].
  { split.
    - transitivity (n_internal_physicsitems (Setup_internal_reset s)); [|kernel_refl].
      transitivity (n_internal_physicsitems
                      (Setup_internal_bodies (Setup_internal_reset s))).
      + transitivity (n_internal_physicsitems
                        (Setup_internal_links
                           (Setup_internal_bodies (Setup_internal_reset s)))).
        * loop_keeps n_internal_physicsitems Setup_internal_mesh
                     internal_meshlist set_internal_meshlist.
        * loop_keeps n_internal_physicsitems Setup_internal_link
                     internal_linklist set_internal_linklist.
      + loop_keeps n_internal_physicsitems Setup_internal_body
                   internal_bodylist set_internal_bodylist.
    - transitivity (internal_otherphysicslist (Setup_internal_reset s)); [|kernel_refl].
      transitivity (internal_otherphysicslist
                      (Setup_internal_bodies (Setup_internal_reset s))).
      + transitivity (internal_otherphysicslist
                        (Setup_internal_links
                           (Setup_internal_bodies (Setup_internal_reset s)))).
        * loop_keeps internal_otherphysicslist Setup_internal_mesh
                     internal_meshlist set_internal_meshlist.
        * loop_keeps internal_otherphysicslist Setup_internal_link
                     internal_linklist set_internal_linklist.
      + loop_keeps internal_otherphysicslist Setup_internal_body
                   internal_bodylist set_internal_bodylist. }
  rewrite <- Hl. revert H0.
  generalize (Setup_internal_meshes
                (Setup_internal_links
                   (Setup_internal_bodies (Setup_internal_reset s)))).
  intros t H0.
  unfold Setup_internal_others.
  transitivity (n_internal_physicsitems
                  (snd (for_each Setup_internal_other (internal_otherphysicslist t) t)));
    [kernel_refl|].
  transitivity (n_internal_physicsitems t + Z.of_nat (length (filter (fun _ => true) (internal_otherphysicslist t))));
    [|rewrite H0, filter_all; lia].
  apply (for_each_count n_internal_physicsitems (fun _ => true) Setup_internal_other).
  intros x u. kernel_refl.
Qed.

Lemma item_counts_Setup_totals (s : ChModalAssembly) :
  item_counts (Setup_totals s) = item_counts s.
Proof.
  destruct (is_modal s) eqn:Hm.
  - rewrite (Setup_totals_modal_case s Hm). kernel_refl.
  - rewrite (Setup_totals_full_case s Hm). kernel_refl.
Qed.

Lemma internal_lists_Setup_boundary (s : ChModalAssembly) :
  internal_lists (Setup_boundary s) = internal_lists s.
Proof. kernel_refl. Qed.

Lemma item_counts_inv (s t : ChModalAssembly) :
  item_counts s = item_counts t ->
  n_internal_bodies s = n_internal_bodies t /\
  n_internal_links s = n_internal_links t /\
  n_internal_meshes s = n_internal_meshes t /\
  n_internal_physicsitems s = n_internal_physicsitems t.
Proof.
  unfold item_counts. intros H. injection H as H1 H2 H3 H4.
  repeat split; assumption.
Qed.

Lemma internal_lists_inv (s t : ChModalAssembly) :
  internal_lists s = internal_lists t ->
  internal_bodylist s = internal_bodylist t /\
  internal_linklist s = internal_linklist t /\
  internal_meshlist s = internal_meshlist t /\
  internal_otherphysicslist s = internal_otherphysicslist t.
Proof.
  unfold internal_lists. intros H. injection H as H1 H2 H3 H4.
  repeat split; assumption.
Qed.

(** X6.  The item counts that Setup leaves, in either mode:
    n_internal_bodies is the number of internal bodies that are neither
    fixed nor sleeping, n_internal_links the number of active internal
    links, and every internal mesh and every other internal item is
    counted. *)
Theorem Setup_internal_item_counts (s : ChModalAssembly) :
  n_internal_bodies (Setup s) =
    Z.of_nat (length (filter counted_body (internal_bodylist s))) /\
  n_internal_links (Setup s) =
    Z.of_nat (length (filter IsActive (internal_linklist s))) /\
  n_internal_meshes (Setup s) = Z.of_nat (length (internal_meshlist s)) /\
  n_internal_physicsitems (Setup s) = Z.of_nat (length (internal_otherphysicslist s)).
Proof.
  pose proof (item_counts_Setup_totals (Setup_internal (Setup_boundary s))) as Ht.
  rewrite <- Setup_eq in Ht.
  destruct (item_counts_inv Ht) as (H1 & H2 & H3 & H4).
  rewrite H1, H2, H3, H4.
  rewrite n_internal_bodies_counted, n_internal_links_counted,
          n_internal_meshes_counted, n_internal_physicsitems_counted.
  destruct (internal_lists_inv (internal_lists_Setup_boundary s))
    as (L1 & L2 & L3 & L4).
  rewrite L1, L2, L3, L4.
  repeat split; reflexivity.
Qed.

End SetupFacts.

(* -------------------------------------------------------------------------- *)
(*  What Setup and SetInternalStateWithModes leave alone                       *)
(* -------------------------------------------------------------------------- *)

Section FrameFacts.

Context {D : Type} {SD : Scalar D} {C : Collaborators D} {E : Surroundings D}.

Lemma Setup_write_self (s : ChModalAssembly) : Setup_write s s = s.
Proof. kernel_refl. Qed.

Lemma Setup_write_write (r c s : ChModalAssembly) :
  Setup_write r (Setup_write c s) = Setup_write r s.
Proof. kernel_refl. Qed.

Lemma Setup_write_Setup_boundary (c s : ChModalAssembly) :
  Setup_write c (Setup_boundary s) = Setup_write c s.
Proof. kernel_refl. Qed.

Lemma Setup_write_Setup_totals (c s : ChModalAssembly) :
  Setup_write c (Setup_totals s) = Setup_write c s.
Proof.
  destruct (is_modal s) eqn:Hm.
  - rewrite (Setup_totals_modal_case s Hm). kernel_refl.
  - rewrite (Setup_totals_full_case s Hm). kernel_refl.
Qed.

Lemma Setup_write_Setup_internal (c s : ChModalAssembly) :
  Setup_write c (Setup_internal s) = Setup_write c s.
Proof.
  unfold Setup_internal.
  transitivity (Setup_write c (Setup_internal_reset s)); [|kernel_refl].
  generalize (Setup_internal_reset s). clear s. intros s.
  transitivity (Setup_write c (Setup_internal_bodies s)).
  2:{ apply (internal_loop_frame (Setup_write c) Setup_internal_body
               internal_bodylist set_internal_bodylist).
      - intros x u. unfold Setup_internal_body.
        destruct (GetBodyFixed x); [reflexivity|].
        destruct (GetSleeping x); [reflexivity|]. kernel_refl.
      - intros l u. kernel_refl. }
  generalize (Setup_internal_bodies s). clear s. intros s.
  transitivity (Setup_write c (Setup_internal_links s)).
  2:{ apply (internal_loop_frame (Setup_write c) Setup_internal_link
               internal_linklist set_internal_linklist).
      - intros x u. unfold Setup_internal_link.
        destruct (IsActive x); [|reflexivity]. kernel_refl.
      - intros l u. kernel_refl. }
  generalize (Setup_internal_links s). clear s. intros s.
  transitivity (Setup_write c (Setup_internal_meshes s)).
  2:{ apply (internal_loop_frame (Setup_write c) Setup_internal_mesh
               internal_meshlist set_internal_meshlist).
      - intros x u. kernel_refl.
      - intros l u. kernel_refl. }
  generalize (Setup_internal_meshes s). clear s. intros s.
  transitivity (Setup_write c (Setup_internal_others s)).
  2:{ apply (internal_loop_frame (Setup_write c) Setup_internal_other
               internal_otherphysicslist set_internal_otherphysicslist).
      - intros x u. kernel_refl.
      - intros l u. kernel_refl. }
  generalize (Setup_internal_others s). clear s. intros s.
  kernel_refl.
Qed.

Lemma Setup_write_Setup (c s : ChModalAssembly) :
  Setup_write c (Setup s) = Setup_write c s.
Proof.
  rewrite Setup_eq, Setup_write_Setup_totals, Setup_write_Setup_internal.
  apply Setup_write_Setup_boundary.
Qed.

Lemma Setup_writes (s : ChModalAssembly) : Setup s = Setup_write (Setup s) s.
Proof.
  rewrite <- (Setup_write_Setup (Setup s) s). symmetry. apply Setup_write_self.
Qed.

(** X7.  Setup changes nothing but the parent sub-object, the internal
    items, the boundary and the internal statistics and the two custom
    forces: putting these members of the result into the state it started
    from gives the result.  The mode flag, the number of modes, the modal
    coordinates, the mode set, the basis and every reduced or cached matrix
    stay as they were. *)
Theorem Setup_frame (s : ChModalAssembly) :
  Setup s = Setup_write (Setup s) s.
Proof. apply Setup_writes. Qed.

Lemma internal_state_write_self (s : ChModalAssembly) : internal_state_write s s = s.
Proof. kernel_refl. Qed.

Lemma SetInternalStateWithModes_recover_frame (full_update : bool)
    (s : ChModalAssembly) :
  is_modal s = true ->
  SetInternalStateWithModes_recover full_update s =
  internal_state_write (SetInternalStateWithModes_recover full_update s) s.
Proof.
  intros Hmodal.
  transitivity
    (internal_state_write (SetInternalStateWithModes_recover full_update s)
                          (set_is_modal (is_modal s) s)).
  - rewrite Hmodal. kernel_refl.
  - rewrite set_is_modal_self. reflexivity.
Qed.

Lemma SetInternalStateWithModes_writes (full_update : bool) (s : ChModalAssembly) :
  SetInternalStateWithModes full_update s =
  internal_state_write (SetInternalStateWithModes full_update s) s.
Proof.
  unfold SetInternalStateWithModes.
  destruct (is_modal s) eqn:Hmodal; simpl negb; cbv iota;
    [|symmetry; apply internal_state_write_self].
  destruct (negb (Z.of_nat (mrows (Psi s)) =?
                  n_boundary_coords_w s + n_internal_coords_w s)
            || negb (Z.of_nat (mcols (Psi s)) =?
                     n_boundary_coords_w s + n_modes_coords_w s));
    [symmetry; apply internal_state_write_self|].
  apply SetInternalStateWithModes_recover_frame, Hmodal.
Qed.

(** X8.  SetInternalStateWithModes changes nothing but the internal items
    and the old full state, whatever the mode and the sizes of the basis:
    the mode flag that it lowers while it scatters is raised again, and the
    boundary items, the modal coordinates and every matrix are as before. *)
Theorem SetInternalStateWithModes_frame (full_update : bool) (s : ChModalAssembly) :
  SetInternalStateWithModes full_update s =
    internal_state_write (SetInternalStateWithModes full_update s) s /\
  is_modal (SetInternalStateWithModes full_update s) = is_modal s /\
  base (SetInternalStateWithModes full_update s) = base s.
Proof.
  pose proof (SetInternalStateWithModes_writes full_update s) as Hw.
  split; [exact Hw|].
  rewrite Hw.
  generalize (SetInternalStateWithModes full_update s). intros r.
  split; kernel_refl.
Qed.

(* -------------------------------------------------------------------------- *)
(*  What Update leaves alone                                                   *)
(* -------------------------------------------------------------------------- *)

Lemma Update_write_self (s : ChModalAssembly) : Update_write s s = s.
Proof. kernel_refl. Qed.

Lemma Update_write_run_full_callback c s :
  Update_write c (run_full_callback s) = Update_write c s.
Proof.
  unfold run_full_callback.
  destruct (m_custom_F_full_callback s); [kernel_refl|reflexivity].
Qed.

Lemma Update_write_run_modal_callback c s :
  Update_write c (run_modal_callback s) = Update_write c s.
Proof.
  unfold run_modal_callback.
  destruct (m_custom_F_modal_callback s); [kernel_refl|reflexivity].
Qed.

Lemma Update_write_ComputeMassCenter c s :
  Update_write c (ComputeMassCenter s) = Update_write c s.
Proof.
  unfold ComputeMassCenter. cbv zeta.
  match goal with |- context [if ?b then _ else _] => destruct b end; kernel_refl.
Qed.

Lemma Update_write_UpdateFloatingFrameOfReference c s :
  Update_write c (UpdateFloatingFrameOfReference s) = Update_write c s.
Proof. kernel_refl. Qed.

Lemma Update_write_UpdateTransformationMatrix c s :
  Update_write c (UpdateTransformationMatrix s) = Update_write c s.
Proof. kernel_refl. Qed.

Lemma Update_write_internal_state_write c r s :
  Update_write c (internal_state_write r s) = Update_write c s.
Proof. kernel_refl. Qed.

Lemma Update_write_SetInternalStateWithModes c full_update s :
  Update_write c (SetInternalStateWithModes full_update s) = Update_write c s.
Proof.
  rewrite (SetInternalStateWithModes_writes full_update s).
  apply Update_write_internal_state_write.
Qed.

Lemma Update_write_items c (f : Item -> Item) (t : ChModalAssembly) :
  Update_write c
    (set_internal_meshlist (map f (internal_meshlist t))
       (set_internal_linklist (map f (internal_linklist t))
          (set_internal_otherphysicslist (map f (internal_otherphysicslist t))
             (set_internal_bodylist (map f (internal_bodylist t)) t)))) =
  Update_write c t.
Proof. kernel_refl. Qed.

Lemma Update_write_Update c update_assets s :
  Update_write c (Update update_assets s) = Update_write c s.
Proof.
  transitivity (Update_write c (on_base (ChAssembly_Update update_assets) s));
    [|kernel_refl].
  unfold Update. generalize (on_base (ChAssembly_Update update_assets) s). intros t.
  destruct (is_modal t); cbn [negb].
  - rewrite Update_write_UpdateTransformationMatrix,
            Update_write_UpdateFloatingFrameOfReference,
            Update_write_ComputeMassCenter, Update_write_run_full_callback,
            Update_write_run_modal_callback.
    destruct (internal_nodes_update t); [|reflexivity].
    apply Update_write_SetInternalStateWithModes.
  - rewrite Update_write_run_full_callback.
    apply (Update_write_items c (item_Update (ChTime (base t)) update_assets) t).
Qed.

Lemma Update_writes (update_assets : bool) (s : ChModalAssembly) :
  Update update_assets s = Update_write (Update update_assets s) s.
Proof.
  rewrite <- (Update_write_Update (Update update_assets s) update_assets s).
  symmetry. apply Update_write_self.
Qed.

(** X14.  Update changes nothing but the parent sub-object, the internal
    items, the old full state, the custom forces, the mass center, the
    floating frame with R_F and wloc_F, and the transformation matrices P_B1,
    P_B2, P_I1, P_I2, P_W and Y.  The mode flag, the statistics, the modal
    coordinates, the mode set, the basis Psi and the reduced and cached
    matrices are as before. *)
Theorem Update_frame (update_assets : bool) (s : ChModalAssembly) :
  Update update_assets s = Update_write (Update update_assets s) s.
Proof. apply Update_writes. Qed.

End FrameFacts.

(* -------------------------------------------------------------------------- *)
(*  The comma initializer on a two by two layout                               *)
(* -------------------------------------------------------------------------- *)

(** Decide the comparisons of indices that stand in a goal, those between
    settled terms first. *)
Ltac atom_cases :=
  repeat (match goal with
          | |- context [(?a =? ?b)%nat] =>
            lazymatch a with context [if _ then _ else _] => fail | _ => idtac end;
            lazymatch b with context [if _ then _ else _] => fail | _ => idtac end;
            destruct (Nat.eqb_spec a b)
          | |- context [(?a <? ?b)%nat] =>
            lazymatch a with context [if _ then _ else _] => fail | _ => idtac end;
            lazymatch b with context [if _ then _ else _] => fail | _ => idtac end;
            destruct (Nat.ltb_spec a b)
          | |- context [(?a <=? ?b)%nat] =>
            lazymatch a with context [if _ then _ else _] => fail | _ => idtac end;
            lazymatch b with context [if _ then _ else _] => fail | _ => idtac end;
            destruct (Nat.leb_spec a b)
          end; cbn [andb orb negb]; try (exfalso; lia)).

Section CommaFacts.

Context {D : Type} {SD : Scalar D}.

Lemma coef_comma_init_2x2 (b i m : nat) (A B C' Dm dest : mat D) r c :
  dims A = (b, b) -> dims B = (b, m) -> dims C' = (i, b) -> dims Dm = (i, m) ->
  dims dest = ((b + i)%nat, (b + m)%nat) ->
  (r < b + i)%nat -> (c < b + m)%nat ->
  coef (comma_init dest [A; B; C'; Dm]) r c =
  if (r <? b)%nat
  then if (c <? b)%nat then coef A r c else coef B r (c - b)
  else if (c <? b)%nat then coef C' (r - b) c else coef Dm (r - b) (c - b).
Proof.
  unfold dims. intros HA HB HC HD Hdest Hr Hc.
  injection HA as HA1 HA2. injection HB as HB1 HB2. injection HC as HC1 HC2.
  injection HD as HD1 HD2. injection Hdest as Hd1 Hd2.
  unfold comma_init, comma_fill.
  cbn [mrows mcols set_block mbuild].
  rewrite HA1, HA2, HB1, HB2, HC1, HC2, HD1, HD2, Hd2.
  rewrite !coef_set_block.
  cbn [mrows mcols set_block mbuild].
  rewrite Hd1, Hd2.
  atom_cases.
  all: rewrite ?Nat.sub_0_r; try reflexivity.
Qed.

Lemma well_formed_mbuild r c (f : nat -> nat -> D) : well_formed (mbuild r c f).
Proof. unfold well_formed. apply mbuild_coef. Qed.

Lemma well_formed_block (A : mat D) :
  well_formed A -> block A 0 0 (mrows A) (mcols A) = A.
Proof. unfold well_formed, block. intros H. symmetry. exact H. Qed.

End CommaFacts.

(* -------------------------------------------------------------------------- *)
(*  The sizes and the blocks of the reduction                                  *)
(* -------------------------------------------------------------------------- *)

Section ReductionFacts.

Context {D : Type} {SD : Scalar D} {C : Collaborators D} {E : Surroundings D}.

Lemma static_modes_shape (s : ChModalAssembly) :
  dims (static_modes s) = (idx (n_internal_coords_w s), idx (n_boundary_coords_w s)) /\
  well_formed (static_modes s).
Proof.
  unfold static_modes. cbv zeta. split.
  - apply (for_int_frame dims). intros i m. reflexivity.
  - apply for_int_invariant.
    + intros i m _. apply well_formed_mbuild.
    + apply well_formed_mbuild.
Qed.

Lemma dynamic_modes_shape (s : ChModalAssembly) :
  dims (dynamic_modes s) = (idx (n_internal_coords_w s), idx (n_modes_coords_w s)) /\
  well_formed (dynamic_modes s).
Proof.
  unfold dynamic_modes. cbv zeta. split.
  - apply (for_int_frame dims). intros i m. reflexivity.
  - apply for_int_invariant.
    + intros i m _. apply well_formed_mbuild.
    + apply well_formed_mbuild.
Qed.

Lemma DoModalReduction_fields (damping_model : ChModalDamping) (s : ChModalAssembly) :
  Psi_S (DoModalReduction damping_model s) = static_modes s /\
  Psi_D (DoModalReduction damping_model s) = dynamic_modes s /\
  Psi (DoModalReduction damping_model s) =
    comma_init
      (mzero (idx (n_boundary_coords_w s + n_internal_coords_w s))
             (idx (n_boundary_coords_w s + n_modes_coords_w s)))
      [midentity (idx (n_boundary_coords_w s)) (idx (n_boundary_coords_w s));
       mzero (idx (n_boundary_coords_w s)) (idx (n_modes_coords_w s));
       static_modes s; dynamic_modes s] /\
  M_red (DoModalReduction damping_model s) =
    mmul (mmul (mtranspose (Psi (DoModalReduction damping_model s))) (full_M_loc s))
         (Psi (DoModalReduction damping_model s)) /\
  K_red (DoModalReduction damping_model s) =
    mmul (mmul (mtranspose (Psi (DoModalReduction damping_model s))) (full_K_loc s))
         (Psi (DoModalReduction damping_model s)) /\
  Cq_red (DoModalReduction damping_model s) =
    mmul (topRows (full_Cq_loc s) (idx (n_boundary_doc_w s)))
         (Psi (DoModalReduction damping_model s)).
Proof.
  do 5 (split; [kernel_refl|]). kernel_refl.
Qed.

Lemma dims_inv (A : mat D) r c : dims A = (r, c) -> mrows A = r /\ mcols A = c.
Proof. unfold dims. intros H. injection H as H1 H2. split; assumption. Qed.

(** X10.  The sizes that DoModalReduction leaves: the static modes are
    n_internal_coords_w by n_boundary_coords_w, the dynamic modes
    n_internal_coords_w by n_modes_coords_w, the basis Psi has the full
    number of rows and the reduced number of columns, M_red and K_red are
    square of the reduced size, and Cq_red has the boundary constraints as
    rows and the reduced size as columns. *)
Theorem DoModalReduction_sizes (damping_model : ChModalDamping) (s : ChModalAssembly) :
  dims (Psi_S (DoModalReduction damping_model s)) =
    (idx (n_internal_coords_w s), idx (n_boundary_coords_w s)) /\
  dims (Psi_D (DoModalReduction damping_model s)) =
    (idx (n_internal_coords_w s), idx (n_modes_coords_w s)) /\
  dims (Psi (DoModalReduction damping_model s)) =
    (idx (n_boundary_coords_w s + n_internal_coords_w s),
     idx (n_boundary_coords_w s + n_modes_coords_w s)) /\
  dims (M_red (DoModalReduction damping_model s)) =
    (idx (n_boundary_coords_w s + n_modes_coords_w s),
     idx (n_boundary_coords_w s + n_modes_coords_w s)) /\
  dims (K_red (DoModalReduction damping_model s)) =
    (idx (n_boundary_coords_w s + n_modes_coords_w s),
     idx (n_boundary_coords_w s + n_modes_coords_w s)) /\
  dims (Cq_red (DoModalReduction damping_model s)) =
    (idx (n_boundary_doc_w s), idx (n_boundary_coords_w s + n_modes_coords_w s)).
Proof.
  destruct (DoModalReduction_fields damping_model s)
    as (HS & HD & HPsi & HM & HK & HCq).
  assert (dims (Psi (DoModalReduction damping_model s)) =
          (idx (n_boundary_coords_w s + n_internal_coords_w s),
           idx (n_boundary_coords_w s + n_modes_coords_w s))) as HdPsi.
  { rewrite HPsi.
    match goal with
    | |- dims (comma_init ?dest ?bs) = _ =>
      destruct (dims_comma_init dest bs) as [Hr Hc]
    end.
    unfold dims. rewrite Hr, Hc. reflexivity. }
  destruct (dims_inv HdPsi) as [Hrows Hcols].
  split; [rewrite HS; apply static_modes_shape|].
  split; [rewrite HD; apply dynamic_modes_shape|].
  split; [exact HdPsi|].
  split; [rewrite HM; unfold dims; cbn [mmul mtranspose mbuild mrows mcols];
          rewrite Hcols; reflexivity|].
  split; [rewrite HK; unfold dims; cbn [mmul mtranspose mbuild mrows mcols];
          rewrite Hcols; reflexivity|].
  rewrite HCq. unfold dims. cbn [mmul topRows block mbuild mrows mcols].
  rewrite Hcols. reflexivity.
Qed.

(** X11.  The basis of DoModalReduction is Psi = [I 0; Psi_S Psi_D], block by
    block: on the rows of the boundary coordinates it is the identity
    followed by zeros, so that boundary coordinates are kept as they are;
    the rows of the internal coordinates hold the static and the dynamic
    modes. *)
Theorem DoModalReduction_basis_blocks
    (damping_model : ChModalDamping) (s : ChModalAssembly) :
  0 <= n_boundary_coords_w s -> 0 <= n_internal_coords_w s ->
  0 <= n_modes_coords_w s ->
  block (Psi (DoModalReduction damping_model s)) 0 0
        (idx (n_boundary_coords_w s)) (idx (n_boundary_coords_w s)) =
    midentity (idx (n_boundary_coords_w s)) (idx (n_boundary_coords_w s)) /\
  block (Psi (DoModalReduction damping_model s)) 0 (idx (n_boundary_coords_w s))
        (idx (n_boundary_coords_w s)) (idx (n_modes_coords_w s)) =
    mzero (idx (n_boundary_coords_w s)) (idx (n_modes_coords_w s)) /\
  block (Psi (DoModalReduction damping_model s)) (idx (n_boundary_coords_w s)) 0
        (idx (n_internal_coords_w s)) (idx (n_boundary_coords_w s)) =
    Psi_S (DoModalReduction damping_model s) /\
  block (Psi (DoModalReduction damping_model s))
        (idx (n_boundary_coords_w s)) (idx (n_boundary_coords_w s))
        (idx (n_internal_coords_w s)) (idx (n_modes_coords_w s)) =
    Psi_D (DoModalReduction damping_model s).
Proof.
  intros HB HI HM.
  destruct (DoModalReduction_fields damping_model s)
    as (HS & HD & HPsi & _).
  destruct (static_modes_shape s) as [HdS HwS].
  destruct (dynamic_modes_shape s) as [HdD HwD].
  rewrite HS, HD, HPsi. clear HS HD HPsi.
  revert HdS HwS HdD HwD.
  generalize (static_modes s) (dynamic_modes s). intros PS PD HdS HwS HdD HwD.
  unfold idx in *.
  rewrite !Z2Nat.inj_add by assumption.
  revert HdS HdD.
  generalize (Z.to_nat (n_boundary_coords_w s)) (Z.to_nat (n_internal_coords_w s))
             (Z.to_nat (n_modes_coords_w s)).
  intros b i m HdS HdD.
  assert (forall r c, (r < b + i)%nat -> (c < b + m)%nat ->
            coef (comma_init (mzero (b + i) (b + m))
                             [midentity b b; mzero b m; PS; PD]) r c =
            if (r <? b)%nat
            then if (c <? b)%nat then coef (midentity b b) r c
                 else coef (mzero b m) r (c - b)
            else if (c <? b)%nat then coef PS (r - b) c
                 else coef PD (r - b) (c - b)) as Hcoef.
  { intros r c Hr Hc. apply coef_comma_init_2x2 with (i := i) (m := m);
      try assumption; reflexivity. }
  destruct (dims_inv HdS) as [HS1 HS2]. destruct (dims_inv HdD) as [HD1 HD2].
  unfold well_formed in HwS, HwD.
  rewrite HS1, HS2 in HwS. rewrite HD1, HD2 in HwD.
  split; [|split; [|split]].
  - unfold block. apply mbuild_ext. intros r c Hr Hc. cbn [Nat.add].
    rewrite Hcoef by lia.
    destruct (Nat.ltb_spec r b); [|lia]. destruct (Nat.ltb_spec c b); [|lia].
    unfold midentity. apply coef_mbuild_in; assumption.
  - unfold block. apply mbuild_ext. intros r c Hr Hc. cbn [Nat.add].
    rewrite Hcoef by lia.
    destruct (Nat.ltb_spec r b); [|lia]. destruct (Nat.ltb_spec (b + c) b); [lia|].
    apply coef_mzero.
  - transitivity (mbuild i b (fun x y => coef PS x y)); [|symmetry; exact HwS].
    unfold block. apply mbuild_ext. intros r c Hr Hc. rewrite Nat.add_0_l.
    rewrite Hcoef by lia.
    destruct (Nat.ltb_spec (b + r) b); [lia|]. destruct (Nat.ltb_spec c b); [|lia].
    f_equal. lia.
  - transitivity (mbuild i m (fun x y => coef PD x y)); [|symmetry; exact HwD].
    unfold block. apply mbuild_ext. intros r c Hr Hc.
    rewrite Hcoef by lia.
    destruct (Nat.ltb_spec (b + r) b); [lia|].
    destruct (Nat.ltb_spec (b + c) b); [lia|].
    f_equal; lia.
Qed.

End ReductionFacts.

(* -------------------------------------------------------------------------- *)
(*  The mode set, the modal matrices and the transformation matrices          *)
(* -------------------------------------------------------------------------- *)

Section CacheFacts.

Context {D : Type} {SD : Scalar D} {C : Collaborators D} {E : Surroundings D}.

Lemma modes_ratio_Setup_write (r s : ChModalAssembly) :
  modes_damping_ratio (Setup_write r s) = modes_damping_ratio s /\
  modes_freq (Setup_write r s) = modes_freq s.
Proof. split; kernel_refl. Qed.

Lemma modes_ratio_stored (V eig : cmat D) (freq : mat D) (s : ChModalAssembly) :
  modes_damping_ratio
    (set_modes_damping_ratio
       (vzero (mrows (modes_freq (set_modes_freq freq (set_modes_eig eig (set_modes_V V s))))))
       (set_modes_freq freq (set_modes_eig eig (set_modes_V V s)))) =
  vzero (mrows freq) /\
  modes_freq
    (set_modes_damping_ratio
       (vzero (mrows (modes_freq (set_modes_freq freq (set_modes_eig eig (set_modes_V V s))))))
       (set_modes_freq freq (set_modes_eig eig (set_modes_V V s)))) = freq.
Proof. split; kernel_refl. Qed.

Lemma ComputeModes_store_ratio (modes : cmat D * cmat D * mat D) (s : ChModalAssembly) :
  modes_damping_ratio (ComputeModes_store modes s) =
  vzero (mrows (modes_freq (ComputeModes_store modes s))).
Proof.
  unfold ComputeModes_store. rewrite Setup_writes.
  destruct (modes_ratio_Setup_write
              (Setup (set_modes_damping_ratio
                        (vzero (mrows (modes_freq
                           (set_modes_freq (thd3 modes)
                              (set_modes_eig (snd3 modes) (set_modes_V (fst3 modes) s))))))
                        (set_modes_freq (thd3 modes)
                           (set_modes_eig (snd3 modes) (set_modes_V (fst3 modes) s)))))
              (set_modes_damping_ratio
                 (vzero (mrows (modes_freq
                    (set_modes_freq (thd3 modes)
                       (set_modes_eig (snd3 modes) (set_modes_V (fst3 modes) s))))))
                 (set_modes_freq (thd3 modes)
                    (set_modes_eig (snd3 modes) (set_modes_V (fst3 modes) s)))))
    as [Hr Hf].
  rewrite Hr, Hf.
  destruct (modes_ratio_stored (fst3 modes) (snd3 modes) (thd3 modes) s) as [Hr' Hf'].
  rewrite Hr', Hf'. reflexivity.
Qed.

(** X9.  ComputeModesExternalData leaves one damping ratio per frequency of
    the mode set, every one of them zero (the undamped solver gives
    none). *)
Theorem ComputeModesExternalData_zero_damping_ratios
    (full_M full_K full_Cq : mat D) (n_modes_settings : ChModalSolveUndamped)
    (s : ChModalAssembly) :
  modes_damping_ratio
    (fst (ComputeModesExternalData full_M full_K full_Cq n_modes_settings s)) =
  vzero (mrows (modes_freq
           (fst (ComputeModesExternalData full_M full_K full_Cq n_modes_settings s)))).
Proof.
  unfold ComputeModesExternalData. simpl fst. apply ComputeModes_store_ratio.
Qed.

Lemma modal_consistent_ComputeModalKRMmatrix (t : ChModalAssembly) :
  modal_consistent (ComputeModalKRMmatrix t).
Proof.
  unfold modal_consistent. do 3 (split; [kernel_refl|]). kernel_refl.
Qed.

Lemma modal_consistent_load_modal_Hblock (Kf Rf Mf : D) (t : ChModalAssembly) :
  modal_consistent t ->
  modal_consistent (load_modal_Hblock Kf Rf Mf t) /\
  Get_K (modal_Hblock (load_modal_Hblock Kf Rf Mf t)) =
    madd (madd (mscale_r (modal_K (load_modal_Hblock Kf Rf Mf t)) Kf)
               (mscale_r (modal_R (load_modal_Hblock Kf Rf Mf t)) Rf))
         (mscale_r (modal_M (load_modal_Hblock Kf Rf Mf t)) Mf).
Proof.
  unfold modal_consistent. intros (H1 & H2 & H3 & H4).
  split; [|kernel_refl].
  split; [kernel_via H1|]. split; [kernel_via H2|]. split; [kernel_via H3|].
  kernel_via H4.
Qed.

(** X12.  After KRMmatricesLoad in modal mode the cached matrices agree with
    one another: modal_M is M_sup, modal_K is Km_sup + Kg_sup + Ki_sup,
    modal_R is Rm_sup + Ri_sup, modal_Cq is Cq_red * P_W', and the matrix of
    the modal block is modal_K * Kfactor + modal_R * Rfactor + modal_M *
    Mfactor. *)
Theorem KRMmatricesLoad_modal_consistent (Kf Rf Mf : D) (s : ChModalAssembly) :
  is_modal s = true ->
  modal_M (KRMmatricesLoad Kf Rf Mf s) = M_sup (KRMmatricesLoad Kf Rf Mf s) /\
  modal_K (KRMmatricesLoad Kf Rf Mf s) =
    madd (madd (Km_sup (KRMmatricesLoad Kf Rf Mf s)) (Kg_sup (KRMmatricesLoad Kf Rf Mf s)))
         (Ki_sup (KRMmatricesLoad Kf Rf Mf s)) /\
  modal_R (KRMmatricesLoad Kf Rf Mf s) =
    madd (Rm_sup (KRMmatricesLoad Kf Rf Mf s)) (Ri_sup (KRMmatricesLoad Kf Rf Mf s)) /\
  modal_Cq (KRMmatricesLoad Kf Rf Mf s) =
    mmul (Cq_red (KRMmatricesLoad Kf Rf Mf s))
         (mtranspose (P_W (KRMmatricesLoad Kf Rf Mf s))) /\
  Get_K (modal_Hblock (KRMmatricesLoad Kf Rf Mf s)) =
    madd (madd (mscale_r (modal_K (KRMmatricesLoad Kf Rf Mf s)) Kf)
               (mscale_r (modal_R (KRMmatricesLoad Kf Rf Mf s)) Rf))
         (mscale_r (modal_M (KRMmatricesLoad Kf Rf Mf s)) Mf).
Proof.
  intros Hmodal.
  rewrite (KRMmatricesLoad_modal_case Kf Rf Mf s Hmodal), KRMmatricesLoad_modal_eq.
  generalize (ComputeDampingMatrix (ComputeStiffnessMatrix (ComputeInertialKRMmatrix s))).
  intros t.
  destruct (modal_consistent_load_modal_Hblock Kf Rf Mf
              (modal_consistent_ComputeModalKRMmatrix t))
    as ((H1 & H2 & H3 & H4) & H5).
  repeat split; assumption.
Qed.

Lemma UpdateTransformationMatrix_P_W_Y (s : ChModalAssembly) :
  exists X Yb : mat D,
    P_W (UpdateTransformationMatrix s) =
      set_topLeftCorner
        (midentity (idx (n_boundary_coords_w s + n_modes_coords_w s))
                   (idx (n_boundary_coords_w s + n_modes_coords_w s)))
        (idx (n_boundary_coords_w s)) (idx (n_boundary_coords_w s)) X /\
    Y (UpdateTransformationMatrix s) =
      set_topLeftCorner
        (midentity (idx (n_boundary_coords_w s + n_modes_coords_w s))
                   (idx (n_boundary_coords_w s + n_modes_coords_w s)))
        (idx (n_boundary_coords_w s)) (idx (n_boundary_coords_w s)) Yb.
Proof.
  exists (P_B2 (UpdateTransformationMatrix s)).
  exists (mmul (mtranspose (P_B2 (UpdateTransformationMatrix s)))
               (msub (midentity (idx (n_boundary_coords_w s))
                                (idx (n_boundary_coords_w s)))
                     (mmul (P_B1 (UpdateTransformationMatrix s))
                           (S_sel (UpdateTransformationMatrix s))))).
  split; kernel_refl.
Qed.

Lemma coef_corner_identity (n b : nat) (X : mat D) i j :
  (i < n)%nat -> (j < n)%nat -> (b <= i)%nat \/ (b <= j)%nat ->
  coef (set_topLeftCorner (midentity n n) b b X) i j =
  if (i =? j)%nat then d1 else d0.
Proof.
  intros Hi Hj Hout. unfold set_topLeftCorner. rewrite coef_set_block.
  cbn [mrows mcols midentity mbuild].
  destruct (Nat.ltb_spec i n); [|lia]. destruct (Nat.ltb_spec j n); [|lia].
  cbn [andb].
  replace ((0 <=? i) && (i <? 0 + b) && (0 <=? j) && (j <? 0 + b))%nat with false.
  - unfold midentity. apply coef_mbuild_in; assumption.
  - symmetry. rewrite !Nat.add_0_l.
    destruct (Nat.ltb_spec i b); destruct (Nat.ltb_spec j b);
      rewrite ?andb_false_r; try reflexivity; lia.
Qed.

(** X13.  The transformation matrices P_W and Y that
    UpdateTransformationMatrix leaves are square of the reduced size, and
    outside the block of the boundary coordinates they are the identity:
    the modal coordinates pass through them unchanged. *)
Theorem UpdateTransformationMatrix_modal_identity (s : ChModalAssembly) (i j : nat) :
  (i < idx (n_boundary_coords_w s + n_modes_coords_w s))%nat ->
  (j < idx (n_boundary_coords_w s + n_modes_coords_w s))%nat ->
  (idx (n_boundary_coords_w s) <= i)%nat \/ (idx (n_boundary_coords_w s) <= j)%nat ->
  dims (P_W (UpdateTransformationMatrix s)) =
    (idx (n_boundary_coords_w s + n_modes_coords_w s),
     idx (n_boundary_coords_w s + n_modes_coords_w s)) /\
  dims (Y (UpdateTransformationMatrix s)) =
    (idx (n_boundary_coords_w s + n_modes_coords_w s),
     idx (n_boundary_coords_w s + n_modes_coords_w s)) /\
  coef (P_W (UpdateTransformationMatrix s)) i j = (if (i =? j)%nat then d1 else d0) /\
  coef (Y (UpdateTransformationMatrix s)) i j = (if (i =? j)%nat then d1 else d0).
Proof.
  intros Hi Hj Hout.
  destruct (UpdateTransformationMatrix_P_W_Y s) as (X & Yb & HP & HY).
  rewrite HP, HY.
  split; [reflexivity|]. split; [reflexivity|].
  split; apply coef_corner_identity; assumption.
Qed.

End CacheFacts.

(* -------------------------------------------------------------------------- *)
(*  util_sparse_assembly_MKRloc                                                *)
(* -------------------------------------------------------------------------- *)

Section BlockFacts.

Context {D : Type} {SD : Scalar D}.

Lemma coef_block (A : mat D) i j p q a b :
  coef (block A i j p q) a b =
  if ((a <? p) && (b <? q))%nat then coef A (i + a) (j + b) else d0.
Proof. unfold block. rewrite coef_mbuild. reflexivity. Qed.

(** X15.  util_sparse_assembly_MKRloc puts a matrix together again from its
    four blocks: for a matrix of r_B + r_I rows and c_B + c_I columns, the
    assembly of its boundary-boundary, boundary-internal, internal-boundary
    and internal-internal blocks is the matrix itself. *)
Theorem util_sparse_assembly_MKRloc_blocks (A : mat D) (r_B r_I c_B c_I : nat) :
  well_formed A -> dims A = ((r_B + r_I)%nat, (c_B + c_I)%nat) ->
  util_sparse_assembly_MKRloc
    (block A 0 0 r_B c_B) (block A 0 c_B r_B c_I)
    (block A r_B 0 r_I c_B) (block A r_B c_B r_I c_I) = A.
Proof.
  intros Hwf Hd. destruct (dims_inv Hd) as [Hr Hc].
  unfold well_formed in Hwf. rewrite Hr, Hc in Hwf.
  rewrite Hwf at 5.
  unfold util_sparse_assembly_MKRloc.
  cbn [mrows mcols block mbuild].
  unfold set_block at 1. cbn [mrows mcols set_block mzero mbuild].
  apply mbuild_ext. intros a b Ha Hb.
  rewrite !coef_set_block, coef_mzero, !coef_block.
  cbn [mrows mcols set_block mzero mbuild].
  atom_cases; try reflexivity; f_equal; lia.
Qed.

End BlockFacts.

(* -------------------------------------------------------------------------- *)
(*  The state protocol in modal mode                                           *)
(* -------------------------------------------------------------------------- *)

Section ProtocolFacts.

Context {D : Type} {SD : Scalar D} {C : Collaborators D} {E : Surroundings D}
        {P : StateCollaborators D}.

(** Reading a segment that has just been written gives what was written. *)
Lemma segment_set_segment (X q : mat D) (p n : nat) :
  (p + n <= mrows X)%nat -> (1 <= mcols X)%nat ->
  segment (set_segment X p n q) p n = block q 0 0 n 1.
Proof.
  intros Hrows Hcols. unfold segment, set_segment, block.
  apply mbuild_ext. intros a b Ha Hb.
  rewrite coef_set_block. atom_cases.
  f_equal; lia.
Qed.

Lemma block_segment (x : mat D) (p n : nat) :
  block (segment x p n) 0 0 n 1 = segment x p n.
Proof.
  unfold segment, block at 1. apply mbuild_ext. intros a b Ha Hb.
  rewrite coef_block. atom_cases. reflexivity.
Qed.

Lemma reduced_state_run_full_callback (s : ChModalAssembly) :
  reduced_state (run_full_callback s) = reduced_state s.
Proof.
  unfold run_full_callback.
  destruct (m_custom_F_full_callback s); [kernel_refl|reflexivity].
Qed.

Lemma reduced_state_run_modal_callback (s : ChModalAssembly) :
  reduced_state (run_modal_callback s) = reduced_state s.
Proof.
  unfold run_modal_callback.
  destruct (m_custom_F_modal_callback s); [kernel_refl|reflexivity].
Qed.

Lemma reduced_state_internal_state_write (r s : ChModalAssembly) :
  reduced_state (internal_state_write r s) = reduced_state s.
Proof. kernel_refl. Qed.

Lemma reduced_state_SetInternalStateWithModes (full_update : bool) (s : ChModalAssembly) :
  reduced_state (SetInternalStateWithModes full_update s) = reduced_state s.
Proof.
  rewrite (SetInternalStateWithModes_writes full_update s).
  apply reduced_state_internal_state_write.
Qed.

Lemma reduced_state_scattered (q q_dt : mat D) (t : ChModalAssembly) :
  reduced_state (set_modal_q_dt q_dt (set_modal_q q t)) =
  (is_modal t, base t,
   (n_boundary_coords t, n_boundary_coords_w t, n_modes_coords_w t),
   (q, q_dt, modal_q_dtdt t)).
Proof. kernel_refl. Qed.

Lemma reduced_state_IntStateScatter_modal (off_x : Z) (x : mat D) (off_v : Z)
    (v : mat D) (full_update : bool) (t : ChModalAssembly) :
  reduced_state (IntStateScatter_modal off_x x off_v v full_update t) =
  (is_modal t, base t,
   (n_boundary_coords t, n_boundary_coords_w t, n_modes_coords_w t),
   (segment x (idx (u32 (off_x + n_boundary_coords t))) (idx (n_modes_coords_w t)),
    segment v (idx (u32 (off_v + n_boundary_coords_w t))) (idx (n_modes_coords_w t)),
    modal_q_dtdt t)).
Proof.
  unfold IntStateScatter_modal.
  rewrite reduced_state_run_full_callback, reduced_state_run_modal_callback.
  transitivity
    (reduced_state
       (set_modal_q_dt
          (segment v (idx (u32 (off_v + n_boundary_coords_w t))) (idx (n_modes_coords_w t)))
          (set_modal_q
             (segment x (idx (u32 (off_x + n_boundary_coords t)))
                      (idx (n_modes_coords_w t))) t)));
    [|apply reduced_state_scattered].
  match goal with
  | |- reduced_state (if ?b then _ else _) = _ => destruct b
  end.
  - rewrite reduced_state_SetInternalStateWithModes. kernel_refl.
  - kernel_refl.
Qed.

Lemma IntStateScatter_modal_case (off_x : Z) (x : mat D) (off_v : Z) (v : mat D)
    (T : D) (full_update : bool) (s : ChModalAssembly) :
  is_modal s = true ->
  IntStateScatter off_x x off_v v T full_update s =
  IntStateScatter_modal off_x x off_v v full_update
    (on_base (ChAssembly_IntStateScatter off_x x off_v v T full_update) s).
Proof.
  intros Hmodal. unfold IntStateScatter.
  change (is_modal (on_base (ChAssembly_IntStateScatter off_x x off_v v T full_update) s))
    with (is_modal s).
  rewrite Hmodal. reflexivity.
Qed.

(** IntStateGather reads the reduced state only, in modal mode. *)
Lemma IntStateGather_modal (s : ChModalAssembly) (off_x : Z) (x : mat D) (off_v : Z)
    (v : mat D) (T : D) (b : ChAssembly) (nB nBw nM : Z) (q q_dt q_dtdt : mat D) :
  reduced_state s = (true, b, (nB, nBw, nM), (q, q_dt, q_dtdt)) ->
  IntStateGather s off_x x off_v v T =
  (set_segment (fst3 (ChAssembly_IntStateGather b off_x x off_v v T))
               (idx (u32 (off_x + nB))) (idx nM) q,
   set_segment (snd3 (ChAssembly_IntStateGather b off_x x off_v v T))
               (idx (u32 (off_v + nBw))) (idx nM) q_dt,
   ChTime b).
Proof.
  unfold reduced_state. intros H.
  injection H as Hm Hb H1 H2 H3 Hq Hqd Hqdd.
  unfold IntStateGather. rewrite Hm, Hb, H1, H2, H3, Hq, Hqd. reflexivity.
Qed.

(** X16.  What IntStateScatter stores of the modal coordinates and their
    speeds, IntStateGather reads back: in modal mode, a scatter of x and v
    followed by a gather at the same offsets returns, on the segments of the
    modal coordinates, the entries of x and v (the vectors gathered into
    being long enough to hold the segments). *)
Theorem IntStateScatter_IntStateGather_modal
    (off_x : Z) (x : mat D) (off_v : Z) (v : mat D) (T : D) (full_update : bool)
    (s : ChModalAssembly) (x0 v0 : mat D) (T0 : D) :
  is_modal s = true ->
  (idx (u32 (off_x + n_boundary_coords s)) + idx (n_modes_coords_w s) <=
   mrows (fst3 (ChAssembly_IntStateGather
                  (ChAssembly_IntStateScatter off_x x off_v v T full_update (base s))
                  off_x x0 off_v v0 T0)))%nat ->
  (1 <= mcols (fst3 (ChAssembly_IntStateGather
                       (ChAssembly_IntStateScatter off_x x off_v v T full_update (base s))
                       off_x x0 off_v v0 T0)))%nat ->
  (idx (u32 (off_v + n_boundary_coords_w s)) + idx (n_modes_coords_w s) <=
   mrows (snd3 (ChAssembly_IntStateGather
                  (ChAssembly_IntStateScatter off_x x off_v v T full_update (base s))
                  off_x x0 off_v v0 T0)))%nat ->
  (1 <= mcols (snd3 (ChAssembly_IntStateGather
                       (ChAssembly_IntStateScatter off_x x off_v v T full_update (base s))
                       off_x x0 off_v v0 T0)))%nat ->
  segment (fst3 (IntStateGather (IntStateScatter off_x x off_v v T full_update s)
                                off_x x0 off_v v0 T0))
          (idx (u32 (off_x + n_boundary_coords s))) (idx (n_modes_coords_w s)) =
    segment x (idx (u32 (off_x + n_boundary_coords s))) (idx (n_modes_coords_w s)) /\
  segment (snd3 (IntStateGather (IntStateScatter off_x x off_v v T full_update s)
                                off_x x0 off_v v0 T0))
          (idx (u32 (off_v + n_boundary_coords_w s))) (idx (n_modes_coords_w s)) =
    segment v (idx (u32 (off_v + n_boundary_coords_w s))) (idx (n_modes_coords_w s)).
Proof.
  intros Hmodal Hx1 Hx2 Hv1 Hv2.
  rewrite (IntStateScatter_modal_case off_x x off_v v T full_update s Hmodal).
  pose proof (reduced_state_IntStateScatter_modal off_x x off_v v full_update
                (on_base (ChAssembly_IntStateScatter off_x x off_v v T full_update) s))
    as Hred.
  change (is_modal (on_base (ChAssembly_IntStateScatter off_x x off_v v T full_update) s))
    with (is_modal s) in Hred.
  change (base (on_base (ChAssembly_IntStateScatter off_x x off_v v T full_update) s))
    with (ChAssembly_IntStateScatter off_x x off_v v T full_update (base s)) in Hred.
  change (n_boundary_coords
            (on_base (ChAssembly_IntStateScatter off_x x off_v v T full_update) s))
    with (n_boundary_coords s) in Hred.
  change (n_boundary_coords_w
            (on_base (ChAssembly_IntStateScatter off_x x off_v v T full_update) s))
    with (n_boundary_coords_w s) in Hred.
  change (n_modes_coords_w
            (on_base (ChAssembly_IntStateScatter off_x x off_v v T full_update) s))
    with (n_modes_coords_w s) in Hred.
  rewrite Hmodal in Hred.
  rewrite (IntStateGather_modal off_x x0 off_v v0 T0 Hred).
  unfold fst3 at 1, snd3 at 2. cbn [fst snd].
  split.
  - rewrite segment_set_segment by assumption. apply block_segment.
  - unfold snd3 at 1. cbn [fst snd].
    rewrite segment_set_segment by assumption. apply block_segment.
Qed.

Lemma IntStateGatherAcceleration_modal (s : ChModalAssembly) (off_a : Z) (a : mat D)
    (b : ChAssembly) (nB nBw nM : Z) (q q_dt q_dtdt : mat D) :
  reduced_state s = (true, b, (nB, nBw, nM), (q, q_dt, q_dtdt)) ->
  IntStateGatherAcceleration s off_a a =
  set_segment (ChAssembly_IntStateGatherAcceleration b off_a a)
              (idx (u32 (off_a + nBw))) (idx nM) q_dtdt.
Proof.
  unfold reduced_state. intros H.
  injection H as Hm Hb H1 H2 H3 Hq Hqd Hqdd.
  unfold IntStateGatherAcceleration. rewrite Hm, Hb, H2, H3, Hqdd. reflexivity.
Qed.

Lemma reduced_state_IntStateScatterAcceleration (off_a : Z) (a : mat D)
    (s : ChModalAssembly) :
  is_modal s = true ->
  reduced_state (IntStateScatterAcceleration off_a a s) =
  (true, ChAssembly_IntStateScatterAcceleration off_a a (base s),
   (n_boundary_coords s, n_boundary_coords_w s, n_modes_coords_w s),
   (modal_q s, modal_q_dt s,
    segment a (idx (u32 (off_a + n_boundary_coords_w s))) (idx (n_modes_coords_w s)))).
Proof.
  intros Hmodal. unfold IntStateScatterAcceleration.
  change (is_modal (on_base (ChAssembly_IntStateScatterAcceleration off_a a) s))
    with (is_modal s).
  rewrite Hmodal. cbn [negb]. rewrite <- Hmodal. kernel_refl.
Qed.

(** X17.  What IntStateScatterAcceleration stores of the modal
    accelerations, IntStateGatherAcceleration reads back: in modal mode, a
    scatter of a followed by a gather at the same offset returns the entries
    of a on the segment of the modal coordinates. *)
Theorem IntStateScatterAcceleration_IntStateGatherAcceleration_modal
    (off_a : Z) (a a0 : mat D) (s : ChModalAssembly) :
  is_modal s = true ->
  (idx (u32 (off_a + n_boundary_coords_w s)) + idx (n_modes_coords_w s) <=
   mrows (ChAssembly_IntStateGatherAcceleration
            (ChAssembly_IntStateScatterAcceleration off_a a (base s)) off_a a0))%nat ->
  (1 <= mcols (ChAssembly_IntStateGatherAcceleration
                 (ChAssembly_IntStateScatterAcceleration off_a a (base s)) off_a a0))%nat ->
  segment (IntStateGatherAcceleration (IntStateScatterAcceleration off_a a s) off_a a0)
          (idx (u32 (off_a + n_boundary_coords_w s))) (idx (n_modes_coords_w s)) =
  segment a (idx (u32 (off_a + n_boundary_coords_w s))) (idx (n_modes_coords_w s)).
Proof.
  intros Hmodal H1 H2.
  rewrite (IntStateGatherAcceleration_modal off_a a0
             (reduced_state_IntStateScatterAcceleration off_a a s Hmodal)).
  rewrite segment_set_segment by assumption. apply block_segment.
Qed.


Lemma IntStateIncrement_modal (s : ChModalAssembly) (off_x : Z) (x_new x : mat D)
    (off_v : Z) (Dv : mat D) :
  is_modal s = true ->
  IntStateIncrement s off_x x_new x off_v Dv =
  set_segment (ChAssembly_IntStateIncrement (base s) off_x x_new x off_v Dv)
    (idx (u32 (off_x + n_boundary_coords s))) (idx (n_modes_coords_w s))
    (madd (segment x (idx (u32 (off_x + n_boundary_coords s))) (idx (n_modes_coords_w s)))
          (segment Dv (idx (u32 (off_v + n_boundary_coords_w s)))
                   (idx (n_modes_coords_w s)))).
Proof. intros Hmodal. unfold IntStateIncrement. rewrite Hmodal. reflexivity. Qed.

Lemma IntStateGetIncrement_modal (s : ChModalAssembly) (off_x : Z) (x_new x : mat D)
    (off_v : Z) (Dv : mat D) :
  is_modal s = true ->
  IntStateGetIncrement s off_x x_new x off_v Dv =
  set_segment (ChAssembly_IntStateGetIncrement (base s) off_x x_new x off_v Dv)
    (idx (u32 (off_v + n_boundary_coords_w s))) (idx (n_modes_coords_w s))
    (msub (segment x_new (idx (u32 (off_x + n_boundary_coords s)))
                   (idx (n_modes_coords_w s)))
          (segment x (idx (u32 (off_x + n_boundary_coords s))) (idx (n_modes_coords_w s)))).
Proof. intros Hmodal. unfold IntStateGetIncrement. rewrite Hmodal. reflexivity. Qed.

Lemma coef_msub_in (A B : mat D) i j :
  (i < mrows A)%nat -> (j < mcols A)%nat ->
  coef (msub A B) i j = dsub (coef A i j) (coef B i j).
Proof.
  intros Hi Hj. unfold msub. rewrite coef_mbuild_in by assumption. reflexivity.
Qed.

Lemma coef_madd_in (A B : mat D) i j :
  (i < mrows A)%nat -> (j < mcols A)%nat ->
  coef (madd A B) i j = dadd (coef A i j) (coef B i j).
Proof.
  intros Hi Hj. unfold madd. rewrite coef_mbuild_in by assumption. reflexivity.
Qed.

Lemma increment_read_back (x Dv : mat D) (p pv n : nat) :
  block (msub (block (madd (segment x p n) (segment Dv pv n)) 0 0 n 1) (segment x p n))
        0 0 n 1 =
  msub (madd (segment x p n) (segment Dv pv n)) (segment x p n).
Proof.
  unfold msub at 2. unfold block at 1.
  change (mrows (madd (segment x p n) (segment Dv pv n))) with n.
  change (mcols (madd (segment x p n) (segment Dv pv n))) with 1%nat.
  apply mbuild_ext. intros a b Ha Hb. cbn [Nat.add].
  rewrite coef_msub_in by assumption.
  rewrite coef_block.
  destruct (Nat.ltb_spec a n); [|lia]. destruct (Nat.ltb_spec b 1); [|lia].
  reflexivity.
Qed.


(** X18.  In modal mode IntStateGetIncrement after IntStateIncrement reads
    back, on the segment of the modal coordinates, (x + Dv) - x taken entry
    by entry in the arithmetic of the program: the sum that
    IntStateIncrement stored there, less x.  Whatever the parent class
    leaves on that segment is overwritten by both functions, and nothing of
    Dv0 is left on it.  (The difference is Dv itself where the addition is
    exact; in binary64 it is Dv up to the rounding of the sum.) *)
Theorem IntStateIncrement_IntStateGetIncrement_modal
    (off_x : Z) (x_new x : mat D) (off_v : Z) (Dv Dv0 : mat D) (s : ChModalAssembly) :
  is_modal s = true ->
  (idx (u32 (off_x + n_boundary_coords s)) + idx (n_modes_coords_w s) <=
   mrows (ChAssembly_IntStateIncrement (base s) off_x x_new x off_v Dv))%nat ->
  (1 <= mcols (ChAssembly_IntStateIncrement (base s) off_x x_new x off_v Dv))%nat ->
  (idx (u32 (off_v + n_boundary_coords_w s)) + idx (n_modes_coords_w s) <=
   mrows (ChAssembly_IntStateGetIncrement (base s) off_x
            (IntStateIncrement s off_x x_new x off_v Dv) x off_v Dv0))%nat ->
  (1 <= mcols (ChAssembly_IntStateGetIncrement (base s) off_x
                 (IntStateIncrement s off_x x_new x off_v Dv) x off_v Dv0))%nat ->
  segment (IntStateGetIncrement s off_x (IntStateIncrement s off_x x_new x off_v Dv)
                                x off_v Dv0)
          (idx (u32 (off_v + n_boundary_coords_w s))) (idx (n_modes_coords_w s)) =
  msub (madd (segment x (idx (u32 (off_x + n_boundary_coords s)))
                      (idx (n_modes_coords_w s)))
             (segment Dv (idx (u32 (off_v + n_boundary_coords_w s)))
                      (idx (n_modes_coords_w s))))
       (segment x (idx (u32 (off_x + n_boundary_coords s))) (idx (n_modes_coords_w s))).
Proof.
  intros Hmodal HI1 HI2 HG1 HG2.
  rewrite (IntStateGetIncrement_modal s off_x _ x off_v Dv0 Hmodal).
  rewrite segment_set_segment by assumption.
  rewrite (IntStateIncrement_modal s off_x x_new x off_v Dv Hmodal).
  rewrite segment_set_segment by assumption.
  apply increment_read_back.
Qed.

Lemma modes_V_Update_write (r s : ChModalAssembly) :
  modes_V (Update_write r s) = modes_V s.
Proof. kernel_refl. Qed.

Lemma SetFullStateWithModeOverlay_beyond (n_mode : Z) (phase amplitude : D)
    (s : ChModalAssembly) :
  Z.of_nat (ccols (modes_V s)) <= n_mode ->
  SetFullStateWithModeOverlay n_mode phase amplitude s =
  (Update true s,
   Thrown (ChException.mode_beyond n_mode (Z.of_nat (ccols (modes_V s))))).
Proof.
  intros Hn. unfold SetFullStateWithModeOverlay.
  destruct (n_mode >=? Z.of_nat (ccols (modes_V s))) eqn:Hge.
  - cbv zeta. rewrite (Update_writes true s) at 2. rewrite modes_V_Update_write.
    reflexivity.
  - rewrite Z.geb_leb in Hge. apply Z.leb_gt in Hge. lia.
Qed.

(** X19.  SetFullStateWithModeOverlay reports a mode that was not computed:
    for every n_mode not below the number of columns of modes_V it updates
    the assembly and throws the exception whose text names the mode asked
    for and the number of eigenvectors at hand; no state is overlaid. *)
Theorem SetFullStateWithModeOverlay_throws (n_mode : Z) (phase amplitude : D)
    (s : ChModalAssembly) :
  Z.of_nat (ccols (modes_V s)) <= n_mode ->
  SetFullStateWithModeOverlay n_mode phase amplitude s =
  (Update true s,
   Thrown (ChException.mode_beyond n_mode (Z.of_nat (ccols (modes_V s))))).
Proof. apply SetFullStateWithModeOverlay_beyond. Qed.

Lemma modes_V_DoModalReduction (damping_model : ChModalDamping) (s : ChModalAssembly) :
  modes_V (DoModalReduction damping_model s) = cresize 0 0.
Proof. kernel_refl. Qed.

(** X20.  Once DoModalReduction has run, no mode shape can be overlaid any
    more: for every n_mode from zero on, SetFullStateWithModeOverlay on the
    reduced assembly throws, and the text of the exception says that zero
    eigenvectors are computed. *)
Theorem SetFullStateWithModeOverlay_after_DoModalReduction
    (damping_model : ChModalDamping) (n_mode : Z) (phase amplitude : D)
    (s : ChModalAssembly) :
  0 <= n_mode ->
  snd (SetFullStateWithModeOverlay n_mode phase amplitude
         (DoModalReduction damping_model s)) =
  Thrown (ChException.mode_beyond n_mode 0).
Proof.
  intros Hn.
  rewrite SetFullStateWithModeOverlay_beyond.
  - cbn [snd]. rewrite modes_V_DoModalReduction. reflexivity.
  - rewrite modes_V_DoModalReduction. exact Hn.
Qed.

End ProtocolFacts.
(* -------------------------------------------------------------------------- *)
(*  SetInternalStateWithModes against the documented reconstruction            *)
(* -------------------------------------------------------------------------- *)

Section ReconstructionFacts.

Context {D : Type} {SD : Scalar D} {C : Collaborators D} {E : Surroundings D}.
















End ReconstructionFacts.

(* ========================================================================== *)
(*  Part VII.  The properties on the concrete instances                        *)
(* ========================================================================== *)

(** C1 fails on the code: with one boundary and one internal coordinate and
    no stiffness on the internal one, K_IIc = [0] is singular, and
    DoModalReduction still returns with a basis and reduced matrices
    committed over the empty ones it started from. *)
Lemma DoModalReduction_singular_K_IIc_commits :
  K_IIc_loc Z_soft_internal = mat_of_rows [[0]] /\
  singular (K_IIc_loc Z_soft_internal) /\
  Psi Z_soft_internal = mzero 0 0 /\
  Psi (DoModalReduction Z_damping Z_soft_internal) = mat_of_rows [[1]; [0]] /\
  M_red (DoModalReduction Z_damping Z_soft_internal) = mat_of_rows [[2]] /\
  K_red (DoModalReduction Z_damping Z_soft_internal) = mat_of_rows [[1]].
Proof.
  split; [vm_compute; reflexivity|].
  split.
  - exists (mat_of_rows [[1]]).
    split; [vm_compute; reflexivity|].
    split; [vm_compute; reflexivity|].
    split; [|vm_compute; reflexivity].
    intros H. vm_compute in H. discriminate H.
  - repeat split; vm_compute; reflexivity.
Qed.

(** C3 on two boundary nodes and a frame turned a quarter turn: the operator
    of ComputeLocalFullKRMmatrix carries R_F on the translational block of
    the first node and the identity on that of the second, because the loop
    advances its index twice per pass. *)
Lemma P_BI_skips_second_node :
  n_boundary_coords_w Z_two_boundary_nodes = 12 /\
  R_F Z_two_boundary_nodes = Z_quarter_turn /\
  block (P_BI Z_two_boundary_nodes) 0 0 3 3 = Z_quarter_turn /\
  block (P_BI Z_two_boundary_nodes) 6 6 3 3 = midentity 3 3 /\
  block (P_BI Z_two_boundary_nodes) 6 6 3 3 <> R_F Z_two_boundary_nodes.
Proof.
  do 4 (split; [vm_compute; reflexivity|]).
  intros H. vm_compute in H. discriminate H.
Qed.



(** C5 on one boundary and one internal coordinate with proportional
    damping M + K: the damping model returns [3] for the reduced matrices
    M_red = [2] and K_red = [1], and the R_red that DoModalReduction leaves
    is [0]. *)
Lemma DoModalReduction_drops_damping :
  M_red (DoModalReduction Z_damping Z_soft_internal) = mat_of_rows [[2]] /\
  K_red (DoModalReduction Z_damping Z_soft_internal) = mat_of_rows [[1]] /\
  ComputeR Z_damping (DoModalReduction Z_damping Z_soft_internal)
           (M_red (DoModalReduction Z_damping Z_soft_internal))
           (K_red (DoModalReduction Z_damping Z_soft_internal))
           (Psi (DoModalReduction Z_damping Z_soft_internal))
           (mzero 1 1) = mat_of_rows [[3]] /\
  R_red (DoModalReduction Z_damping Z_soft_internal) = mat_of_rows [[0]].
Proof. repeat split; vm_compute; reflexivity. Qed.


(** C8 on the reduced assembly of two nodes.  The boundary has moved by 1 on
    every coordinate and the mode has amplitude 4:
    P_B2' turns the boundary increment to (1, -1, 1, 1, 1, 1), the static
    modes carry it over, the dynamic mode adds 4 on the first coordinate,
    and P_I2 turns (5, -1, 1) back to (1, 5, 1).  The internal body, at 5 on
    every coordinate in the old full state, is scattered to
    (6, 10, 6, 6, 6, 6), and its speed is the mode rate 3 turned to the
    second coordinate. *)
Lemma SetInternalStateWithModes_recovers_two_nodes :
  Reconstruction.Delta_x_boundary Z_reduced = mconst 6 1 1 /\
  Reconstruction.Delta_eta Z_reduced = mat_of_rows [[4]] /\
  Reconstruction.Delta_x_internal Z_reduced =
    mat_of_rows [[1]; [5]; [1]; [1]; [1]; [1]] /\
  map zi_x (internal_bodylist (SetInternalStateWithModes true Z_reduced)) =
    [mat_of_rows [[6]; [10]; [6]; [6]; [6]; [6]]] /\
  map zi_v (internal_bodylist (SetInternalStateWithModes true Z_reduced)) =
    [mat_of_rows [[0]; [3]; [0]; [0]; [0]; [0]]] /\
  segment (full_assembly_x_old (SetInternalStateWithModes true Z_reduced)) 6 6 =
    mat_of_rows [[6]; [10]; [6]; [6]; [6]; [6]].
Proof. repeat split; vm_compute; reflexivity. Qed.

Lemma KRMmatricesLoad_modal_twice_witness :
  is_modal Z_switched = true /\
  KRMmatricesLoad 1 2 3 (KRMmatricesLoad 1 2 3 Z_switched) =
  KRMmatricesLoad 1 2 3 Z_switched.
Proof.
  split; [vm_compute; reflexivity|].
  refine (proj1 (@KRMmatricesLoad_modal_twice Z _ _ _ 1 2 3 Z_switched _)).
  vm_compute; reflexivity.
Defined.

Lemma SwitchModalReductionON_modal_noop_witness :
  is_modal Z_switched = true /\
  SwitchModalReductionON_matrices (mzero 0 0) (mzero 0 0) (mzero 0 0) 3 Z_damping
                                  Z_switched = Z_switched /\
  SwitchModalReductionON 3 Z_damping Z_switched = Z_switched.
Proof.
  split; [vm_compute; reflexivity|].
  refine (@SwitchModalReductionON_modal_noop Z _ _ _ (mzero 0 0) (mzero 0 0) (mzero 0 0)
            3 Z_damping Z_switched _).
  vm_compute; reflexivity.
Defined.

Lemma util_sparse_assembly_2x2symm_blocks_witness :
  block (util_sparse_assembly_2x2symm Z_two_springs Z_one_constraint) 0 0 2 2 =
    block Z_two_springs 0 0 2 2 /\
  block (util_sparse_assembly_2x2symm Z_two_springs Z_one_constraint) 0 2 2 1 =
    mtranspose Z_one_constraint.
Proof.
  split.
  - eapply proj1, proj2.
    apply (@util_sparse_assembly_2x2symm_blocks Z _ Z_two_springs Z_one_constraint);
      reflexivity.
  - eapply proj1, proj2, proj2.
    apply (@util_sparse_assembly_2x2symm_blocks Z _ Z_two_springs Z_one_constraint);
      reflexivity.
Defined.

Lemma util_sparse_assembly_2x2symm_symmetric_witness :
  mtranspose (util_sparse_assembly_2x2symm Z_two_springs Z_one_constraint) =
  util_sparse_assembly_2x2symm Z_two_springs Z_one_constraint.
Proof.
  apply util_sparse_assembly_2x2symm_symmetric.
  - vm_compute. reflexivity.
  - reflexivity.
Defined.

Lemma Setup_full_totals_witness :
  is_modal Z_one_coordinate = false /\
  ncoords_w (base (Setup Z_one_coordinate)) =
    n_boundary_coords_w (Setup Z_one_coordinate) +
    n_internal_coords_w (Setup Z_one_coordinate).
Proof.
  split; [reflexivity|].
  eapply proj1, proj2.
  apply Setup_full_totals.
  reflexivity.
Defined.

Lemma DoModalReduction_basis_blocks_witness :
  block (Psi (DoModalReduction Z_damping Z_soft_internal)) 0 0
        (idx (n_boundary_coords_w Z_soft_internal))
        (idx (n_boundary_coords_w Z_soft_internal)) =
  midentity (idx (n_boundary_coords_w Z_soft_internal))
            (idx (n_boundary_coords_w Z_soft_internal)).
Proof.
  eapply proj1.
  apply DoModalReduction_basis_blocks; vm_compute; discriminate.
Defined.

Lemma KRMmatricesLoad_modal_consistent_witness :
  is_modal Z_switched = true /\
  modal_M (KRMmatricesLoad 1 2 3 Z_switched) = M_sup (KRMmatricesLoad 1 2 3 Z_switched).
Proof.
  split; [vm_compute; reflexivity|].
  eapply proj1.
  apply KRMmatricesLoad_modal_consistent.
  vm_compute; reflexivity.
Defined.

Lemma UpdateTransformationMatrix_modal_identity_witness :
  coef (P_W (UpdateTransformationMatrix Z_switched)) 1 2 = 0 /\
  coef (Y (UpdateTransformationMatrix Z_switched)) 1 2 = 0.
Proof.
  eapply proj2, proj2.
  apply (UpdateTransformationMatrix_modal_identity Z_switched (i := 1%nat) (j := 2%nat)).
  - vm_compute. lia.
  - vm_compute. lia.
  - left. vm_compute. lia.
Defined.

Lemma util_sparse_assembly_MKRloc_blocks_witness :
  util_sparse_assembly_MKRloc
    (block Z_three_by_three 0 0 1 2) (block Z_three_by_three 0 2 1 1)
    (block Z_three_by_three 1 0 2 2) (block Z_three_by_three 1 2 2 1) =
  Z_three_by_three.
Proof.
  apply util_sparse_assembly_MKRloc_blocks.
  - vm_compute. reflexivity.
  - reflexivity.
Defined.

Lemma IntStateScatter_IntStateGather_modal_witness :
  is_modal Z_switched = true /\
  segment (fst3 (IntStateGather
                   (IntStateScatter 0 Z_positions 0 Z_speeds 0 true Z_switched)
                   0 (vzero 3) 0 (vzero 3) 0))
          (idx (u32 (0 + n_boundary_coords Z_switched)))
          (idx (n_modes_coords_w Z_switched)) =
  segment Z_positions (idx (u32 (0 + n_boundary_coords Z_switched)))
          (idx (n_modes_coords_w Z_switched)).
Proof.
  split; [vm_compute; reflexivity|].
  eapply proj1.
  apply IntStateScatter_IntStateGather_modal.
  - vm_compute. reflexivity.
  - vm_compute. lia.
  - vm_compute. lia.
  - vm_compute. lia.
  - vm_compute. lia.
Defined.

Lemma IntStateScatterAcceleration_IntStateGatherAcceleration_modal_witness :
  is_modal Z_switched = true /\
  segment (IntStateGatherAcceleration
             (IntStateScatterAcceleration 0 Z_speeds Z_switched) 0 (vzero 3))
          (idx (u32 (0 + n_boundary_coords_w Z_switched)))
          (idx (n_modes_coords_w Z_switched)) =
  segment Z_speeds (idx (u32 (0 + n_boundary_coords_w Z_switched)))
          (idx (n_modes_coords_w Z_switched)).
Proof.
  split; [vm_compute; reflexivity|].
  apply IntStateScatterAcceleration_IntStateGatherAcceleration_modal.
  - vm_compute. reflexivity.
  - vm_compute. lia.
  - vm_compute. lia.
Defined.

Lemma IntStateIncrement_IntStateGetIncrement_modal_witness :
  is_modal Z_switched = true /\
  segment (IntStateGetIncrement Z_switched 0
             (IntStateIncrement Z_switched 0 (vzero 3) Z_positions 0 Z_speeds)
             Z_positions 0 (vzero 3))
          (idx (u32 (0 + n_boundary_coords_w Z_switched)))
          (idx (n_modes_coords_w Z_switched)) =
  msub (madd (segment Z_positions (idx (u32 (0 + n_boundary_coords Z_switched)))
                      (idx (n_modes_coords_w Z_switched)))
             (segment Z_speeds (idx (u32 (0 + n_boundary_coords_w Z_switched)))
                      (idx (n_modes_coords_w Z_switched))))
       (segment Z_positions (idx (u32 (0 + n_boundary_coords Z_switched)))
                (idx (n_modes_coords_w Z_switched))).
Proof.
  split; [vm_compute; reflexivity|].
  apply IntStateIncrement_IntStateGetIncrement_modal.
  - vm_compute. reflexivity.
  - vm_compute. lia.
  - vm_compute. lia.
  - vm_compute. lia.
  - vm_compute. lia.
Defined.

Lemma SetFullStateWithModeOverlay_throws_witness :
  ccols (modes_V Z_switched) = 0%nat /\
  SetFullStateWithModeOverlay 5 0 1 Z_switched =
  (Update true Z_switched,
   Thrown (ChException.mode_beyond 5 (Z.of_nat (ccols (modes_V Z_switched))))).
Proof.
  split; [vm_compute; reflexivity|].
  apply SetFullStateWithModeOverlay_throws.
  vm_compute. discriminate.
Defined.

Lemma SetFullStateWithModeOverlay_after_DoModalReduction_witness :
  snd (SetFullStateWithModeOverlay 2 0 1 (DoModalReduction Z_damping Z_soft_internal)) =
  Thrown (ChException.mode_beyond 2 0).
Proof.
  apply SetFullStateWithModeOverlay_after_DoModalReduction.
  vm_compute. discriminate.
Defined.

(* -------------------------------------------------------------------------- *)
(*  The reconstruction in binary64                                             *)
(* -------------------------------------------------------------------------- *)

Section Binary64Facts.

Import PrimFloat.
Import Binary64.

Set Warnings "-inexact-float".


Set Warnings "inexact-float".

End Binary64Facts.
